(** * PLAN.EX: planner and habit stores, and the statistics derived from them

    A shallow embedding of the reducer-driven stores of
    [src/context/PlannerContext.tsx] (planner and habits reducers and the
    action creators built on them), of the constants of the types module and of
    the pure statistics functions of the utility module
    ([isHabitDueOnDate], [isHabitCompleted], [calculateHabitStreak],
    [calculateHabitScore]).

    Conventions of the embedding.
    - A JS array is a [list]; a [Record<string, string>] and a [Map] keyed by
      strings are [gmap string _].
    - [new Date().toISOString()] and [generateId()] read the environment: the
      value they return is passed to the function that calls them.
    - An optional field [f?: T] is an [option T]; a [Partial<T>] carries one
      [option] per key, [None] meaning that the key is absent from the patch.
    - A calendar day ['YYYY-MM-DD'] is represented by its day number, the count
      of days since 1970-01-01; [new Date(dateISO)] is the UTC midnight of
      that day and [formatDate] gives the UTC day of an instant.
    - An instant (the value of [new Date(s).getTime()]) is an integer number of
      milliseconds since the epoch.
    - The host time zone is a parameter: the local getters and setters of
      [Date] ([getDay], [getDate], [setDate], [setHours]) go through the
      offsets the host supplies, which may change with the instant. *)

From Stdlib Require Import ZArith QArith Qround Qpower Lia.
From stdpp Require Import gmap strings list fin_maps pretty.

Close Scope Q_scope.
Open Scope string_scope.
Open Scope list_scope.
Open Scope nat_scope.

(** ** Planner types *)

Inductive TaskStatus := Todo | InProgress | Review | Done.

#[global] Instance TaskStatus_eq_dec : EqDecision TaskStatus.
Proof. solve_decision. Defined.

Record Task := mkTask {
  task_id : string;
  task_text : string;
  task_status : TaskStatus;
  task_isPriority : option bool;
  task_dueDateISO : option string;
  task_tags : option (list string);
  task_note : option string;
  task_createdAt : string;
  task_updatedAt : string;
}.

Record Unit := mkUnit {
  unit_id : string;
  unit_title : string;
  unit_order : Z;
  unit_tasks : list Task;
}.

Record Exam := mkExam {
  exam_id : string;
  exam_title : string;
  exam_examDateISO : string;
  exam_description : option string;
}.

Record Course := mkCourse {
  course_id : string;
  course_code : option string;
  course_title : string;
  course_color : option string;
  course_bgGradient : option string;
  course_units : list Unit;
  course_exams : list Exam;
  course_createdAt : string;
  course_updatedAt : string;
}.

Record LectureNoteMeta := mkLectureNoteMeta {
  note_id : string;
  note_courseId : string;
  note_name : string;
  note_fileName : string;
  note_uploadDateISO : string;
  note_unitTitle : option string;
  note_fileSize : Z;
}.

Record CompletionState := mkCompletionState {
  completedTaskIds : list string;
  completionHistory : gmap string string;
}.

Record UndoSnapshot := mkUndoSnapshot {
  snap_timestamp : string;
  snap_completedTaskIds : list string;
  snap_completionHistory : gmap string string;
}.

Abbreviation PersonalTask := Task (only parsing).

(** [Partial<Task>], [Partial<Unit>], [Partial<Exam>], [Partial<Course>]. *)

Record PartialTask := mkPartialTask {
  pt_id : option string;
  pt_text : option string;
  pt_status : option TaskStatus;
  pt_isPriority : option (option bool);
  pt_dueDateISO : option (option string);
  pt_tags : option (option (list string));
  pt_note : option (option string);
  pt_createdAt : option string;
  pt_updatedAt : option string;
}.

Record PartialUnit := mkPartialUnit {
  pu_id : option string;
  pu_title : option string;
  pu_order : option Z;
  pu_tasks : option (list Task);
}.

Record PartialExam := mkPartialExam {
  pe_id : option string;
  pe_title : option string;
  pe_examDateISO : option string;
  pe_description : option (option string);
}.

Record PartialCourse := mkPartialCourse {
  pc_id : option string;
  pc_code : option (option string);
  pc_title : option string;
  pc_color : option (option string);
  pc_bgGradient : option (option string);
  pc_units : option (list Unit);
  pc_exams : option (list Exam);
  pc_createdAt : option string;
  pc_updatedAt : option string;
}.

(** ** Constants ([LIMITS], [COURSE_COLORS]) *)

Module LIMITS.
Definition MAX_COURSES : nat := 20.
Definition MAX_UNITS_PER_COURSE : nat := 30.
Definition MAX_TASKS_PER_UNIT : nat := 100.
Definition MAX_TASK_TEXT_LENGTH : nat := 500.
Definition MAX_EXAMS_PER_COURSE : nat := 20.
Definition MAX_HABITS : nat := 50.
Definition MAX_UNDO_STACK : nat := 15.
Definition MAX_PDF_SIZE_MB : nat := 50.
End LIMITS.

Definition COURSE_COLORS : list string :=
  [ "#ef4444"; "#f97316"; "#f59e0b"; "#eab308";
    "#84cc16"; "#22c55e"; "#10b981"; "#14b8a6";
    "#06b6d4"; "#0ea5e9"; "#3b82f6"; "#6366f1";
    "#8b5cf6"; "#a855f7"; "#d946ef"; "#ec4899" ].

(** ** Array helpers *)

(** [Array.prototype.slice(start, end)]: a negative index counts from the end
    of the array, and both indices are clamped to [0, length]. *)
Definition slice_index (len : nat) (i : Z) : nat :=
  if (i <? 0)%Z then Z.to_nat (Z.max (Z.of_nat len + i) 0)
  else Z.to_nat (Z.min i (Z.of_nat len)).

Definition slice {A} (l : list A) (start : Z) (stop : option Z) : list A :=
  let from := slice_index (length l) start in
  let to := match stop with
            | Some e => slice_index (length l) e
            | None => length l
            end in
  take (to - from) (drop from l).

(** [xs.includes(x)] on an array of strings. *)
Definition includes (xs : list string) (x : string) : bool :=
  bool_decide (x ∈ xs).

(** ** Planner state and actions ([PlannerContext.tsx]) *)

Module PlannerContext.

Record PlannerState := mkPlannerState {
  courses : list Course;
  completionState : CompletionState;
  undoStack : list UndoSnapshot;
  personalTasks : list PersonalTask;
  lectureNotesMeta : list LectureNoteMeta;
  isLoading : bool;
  error : option string;
}.

Definition initialState : PlannerState :=
  {| courses := [];
     completionState := {| completedTaskIds := []; completionHistory := ∅ |};
     undoStack := [];
     personalTasks := [];
     lectureNotesMeta := [];
     isLoading := true;
     error := None |}.

Record LoadPayload := mkLoadPayload {
  load_courses : list Course;
  load_completionState : CompletionState;
  load_undoStack : list UndoSnapshot;
  load_personalTasks : list PersonalTask;
  load_lectureNotesMeta : list LectureNoteMeta;
}.

Inductive PlannerAction :=
  | LOAD_DATA (payload : LoadPayload)
  | SET_LOADING (payload : bool)
  | SET_ERROR (payload : option string)
  | ADD_COURSE (payload : Course)
  | UPDATE_COURSE (id : string) (updates : PartialCourse)
  | DELETE_COURSE (payload : string)
  | ADD_UNIT (courseId : string) (unit : Unit)
  | UPDATE_UNIT (courseId unitId : string) (updates : PartialUnit)
  | DELETE_UNIT (courseId unitId : string)
  | REORDER_UNITS (courseId : string) (units : list Unit)
  | ADD_TASK (courseId unitId : string) (task : Task)
  | UPDATE_TASK (courseId unitId taskId : string) (updates : PartialTask)
  | DELETE_TASK (courseId unitId taskId : string)
  | TOGGLE_TASK_COMPLETION (payload : string)
  | UPDATE_TASK_STATUS (taskId : string) (status : TaskStatus) (courseId unitId : string)
  | ADD_EXAM (courseId : string) (exam : Exam)
  | UPDATE_EXAM (courseId examId : string) (updates : PartialExam)
  | DELETE_EXAM (courseId examId : string)
  | ADD_PERSONAL_TASK (payload : PersonalTask)
  | UPDATE_PERSONAL_TASK (id : string) (updates : PartialTask)
  | DELETE_PERSONAL_TASK (payload : string)
  | ADD_LECTURE_NOTE_META (payload : LectureNoteMeta)
  | DELETE_LECTURE_NOTE_META (payload : string)
  | UNDO
  | PUSH_UNDO_SNAPSHOT
  | IMPORT_DATA (courses : list Course) (completionState : CompletionState)
                (personalTasks : list PersonalTask).

(** ** Object spreads *)

(** [{ ...t, ...updates, updatedAt: now }] *)
Definition spreadTask (t : Task) (updates : PartialTask) (now : string) : Task :=
  {| task_id := default (task_id t) (pt_id updates);
     task_text := default (task_text t) (pt_text updates);
     task_status := default (task_status t) (pt_status updates);
     task_isPriority := default (task_isPriority t) (pt_isPriority updates);
     task_dueDateISO := default (task_dueDateISO t) (pt_dueDateISO updates);
     task_tags := default (task_tags t) (pt_tags updates);
     task_note := default (task_note t) (pt_note updates);
     task_createdAt := default (task_createdAt t) (pt_createdAt updates);
     task_updatedAt := now |}.

(** [{ ...u, ...updates }] *)
Definition spreadUnit (u : Unit) (updates : PartialUnit) : Unit :=
  {| unit_id := default (unit_id u) (pu_id updates);
     unit_title := default (unit_title u) (pu_title updates);
     unit_order := default (unit_order u) (pu_order updates);
     unit_tasks := default (unit_tasks u) (pu_tasks updates) |}.

(** [{ ...e, ...updates }] *)
Definition spreadExam (e : Exam) (updates : PartialExam) : Exam :=
  {| exam_id := default (exam_id e) (pe_id updates);
     exam_title := default (exam_title e) (pe_title updates);
     exam_examDateISO := default (exam_examDateISO e) (pe_examDateISO updates);
     exam_description := default (exam_description e) (pe_description updates) |}.

(** [{ ...c, ...updates, updatedAt: now }] *)
Definition spreadCourse (c : Course) (updates : PartialCourse) (now : string) : Course :=
  {| course_id := default (course_id c) (pc_id updates);
     course_code := default (course_code c) (pc_code updates);
     course_title := default (course_title c) (pc_title updates);
     course_color := default (course_color c) (pc_color updates);
     course_bgGradient := default (course_bgGradient c) (pc_bgGradient updates);
     course_units := default (course_units c) (pc_units updates);
     course_exams := default (course_exams c) (pc_exams updates);
     course_createdAt := default (course_createdAt c) (pc_createdAt updates);
     course_updatedAt := now |}.

(** [{ ...t, status, updatedAt: now }] *)
Definition withStatus (t : Task) (status : TaskStatus) (now : string) : Task :=
  {| task_id := task_id t;
     task_text := task_text t;
     task_status := status;
     task_isPriority := task_isPriority t;
     task_dueDateISO := task_dueDateISO t;
     task_tags := task_tags t;
     task_note := task_note t;
     task_createdAt := task_createdAt t;
     task_updatedAt := now |}.

(** [{ ...u, tasks }] *)
Definition withTasks (u : Unit) (tasks : list Task) : Unit :=
  {| unit_id := unit_id u;
     unit_title := unit_title u;
     unit_order := unit_order u;
     unit_tasks := tasks |}.

(** [{ ...c, units }], the course's [updatedAt] left as it is. *)
Definition withUnits (c : Course) (units : list Unit) : Course :=
  {| course_id := course_id c;
     course_code := course_code c;
     course_title := course_title c;
     course_color := course_color c;
     course_bgGradient := course_bgGradient c;
     course_units := units;
     course_exams := course_exams c;
     course_createdAt := course_createdAt c;
     course_updatedAt := course_updatedAt c |}.

(** [{ ...c, exams }], the course's [updatedAt] left as it is. *)
Definition withExams (c : Course) (exams : list Exam) : Course :=
  {| course_id := course_id c;
     course_code := course_code c;
     course_title := course_title c;
     course_color := course_color c;
     course_bgGradient := course_bgGradient c;
     course_units := course_units c;
     course_exams := exams;
     course_createdAt := course_createdAt c;
     course_updatedAt := course_updatedAt c |}.

(** [{ ...c, updatedAt: now }] *)
Definition touchCourse (c : Course) (now : string) : Course :=
  {| course_id := course_id c;
     course_code := course_code c;
     course_title := course_title c;
     course_color := course_color c;
     course_bgGradient := course_bgGradient c;
     course_units := course_units c;
     course_exams := course_exams c;
     course_createdAt := course_createdAt c;
     course_updatedAt := now |}.

(** [{ ...state, courses }] and the like. *)
Definition withCourses (s : PlannerState) (cs : list Course) : PlannerState :=
  {| courses := cs;
     completionState := completionState s;
     undoStack := undoStack s;
     personalTasks := personalTasks s;
     lectureNotesMeta := lectureNotesMeta s;
     isLoading := isLoading s;
     error := error s |}.

Definition withCompletionState (s : PlannerState) (cs : CompletionState) : PlannerState :=
  {| courses := courses s;
     completionState := cs;
     undoStack := undoStack s;
     personalTasks := personalTasks s;
     lectureNotesMeta := lectureNotesMeta s;
     isLoading := isLoading s;
     error := error s |}.

Definition withUndoStack (s : PlannerState) (stack : list UndoSnapshot) : PlannerState :=
  {| courses := courses s;
     completionState := completionState s;
     undoStack := stack;
     personalTasks := personalTasks s;
     lectureNotesMeta := lectureNotesMeta s;
     isLoading := isLoading s;
     error := error s |}.

Definition withPersonalTasks (s : PlannerState) (ts : list PersonalTask) : PlannerState :=
  {| courses := courses s;
     completionState := completionState s;
     undoStack := undoStack s;
     personalTasks := ts;
     lectureNotesMeta := lectureNotesMeta s;
     isLoading := isLoading s;
     error := error s |}.

Definition withLectureNotesMeta (s : PlannerState) (ns : list LectureNoteMeta) : PlannerState :=
  {| courses := courses s;
     completionState := completionState s;
     undoStack := undoStack s;
     personalTasks := personalTasks s;
     lectureNotesMeta := ns;
     isLoading := isLoading s;
     error := error s |}.

(** ** The nested [map]s of the reducer *)

(** [courses.map(c => c.id === courseId ? f(c) : c)] *)
Definition mapCourse (courseId : string) (f : Course → Course) (cs : list Course) : list Course :=
  (λ c, if decide (course_id c = courseId) then f c else c) <$> cs.

(** [units.map(u => u.id === unitId ? f(u) : u)] *)
Definition mapUnit (unitId : string) (f : Unit → Unit) (us : list Unit) : list Unit :=
  (λ u, if decide (unit_id u = unitId) then f u else u) <$> us.

(** [tasks.map(t => t.id === taskId ? f(t) : t)] *)
Definition mapTask (taskId : string) (f : Task → Task) (ts : list Task) : list Task :=
  (λ t, if decide (task_id t = taskId) then f t else t) <$> ts.

(** The expression shared by TOGGLE_TASK_COMPLETION and UPDATE_TASK_STATUS:
    the task [taskId] of unit [unitId] of course [courseId] gets [status]
    and a fresh [updatedAt]; the course's own [updatedAt] is not touched. *)
Definition setStatusAt (now : string) (cs : list Course)
    (courseId unitId taskId : string) (status : TaskStatus) : list Course :=
  mapCourse courseId
    (λ c, withUnits c
       (mapUnit unitId
          (λ u, withTasks u (mapTask taskId (λ t, withStatus t status now) (unit_tasks u)))
          (course_units c)))
    cs.

(** The search of TOGGLE_TASK_COMPLETION. The inner loop stops at the first
    unit of the course that holds a task [taskId] ([break]); the outer loop
    goes on over the remaining courses, and every hit rebuilds [newCourses]
    from [state.courses]. *)
Definition unitHolding (taskId : string) (c : Course) : option Unit :=
  find (λ u, existsb (λ t, bool_decide (task_id t = taskId)) (unit_tasks u)) (course_units c).

Definition toggleCourses (now : string) (cs : list Course)
    (taskId : string) (newStatus : TaskStatus) : list Course :=
  fold_left
    (λ newCourses course,
       match unitHolding taskId course with
       | Some unit => setStatusAt now cs (course_id course) (unit_id unit) taskId newStatus
       | None => newCourses
       end)
    cs cs.

(** ** Reducer *)

Definition plannerReducer (now : string) (state : PlannerState) (action : PlannerAction)
    : PlannerState :=
  match action with
  | LOAD_DATA payload =>
      {| courses := load_courses payload;
         completionState := load_completionState payload;
         undoStack := load_undoStack payload;
         personalTasks := load_personalTasks payload;
         lectureNotesMeta := load_lectureNotesMeta payload;
         isLoading := false;
         error := error state |}
  | SET_LOADING payload =>
      {| courses := courses state;
         completionState := completionState state;
         undoStack := undoStack state;
         personalTasks := personalTasks state;
         lectureNotesMeta := lectureNotesMeta state;
         isLoading := payload;
         error := error state |}
  | SET_ERROR payload =>
      {| courses := courses state;
         completionState := completionState state;
         undoStack := undoStack state;
         personalTasks := personalTasks state;
         lectureNotesMeta := lectureNotesMeta state;
         isLoading := isLoading state;
         error := payload |}
  | ADD_COURSE payload =>
      withCourses state (courses state ++ [payload])
  | UPDATE_COURSE id updates =>
      withCourses state (mapCourse id (λ c, spreadCourse c updates now) (courses state))
  | DELETE_COURSE payload =>
      withCourses state (filter (λ c, course_id c ≠ payload) (courses state))
  | ADD_UNIT courseId unit =>
      withCourses state
        (mapCourse courseId
           (λ c, touchCourse (withUnits c (course_units c ++ [unit])) now)
           (courses state))
  | UPDATE_UNIT courseId unitId updates =>
      withCourses state
        (mapCourse courseId
           (λ c, touchCourse
                   (withUnits c (mapUnit unitId (λ u, spreadUnit u updates) (course_units c)))
                   now)
           (courses state))
  | DELETE_UNIT courseId unitId =>
      withCourses state
        (mapCourse courseId
           (λ c, touchCourse
                   (withUnits c (filter (λ u, unit_id u ≠ unitId) (course_units c)))
                   now)
           (courses state))
  | REORDER_UNITS courseId units =>
      withCourses state
        (mapCourse courseId (λ c, touchCourse (withUnits c units) now) (courses state))
  | ADD_TASK courseId unitId task =>
      withCourses state
        (mapCourse courseId
           (λ c, touchCourse
                   (withUnits c
                      (mapUnit unitId (λ u, withTasks u (unit_tasks u ++ [task]))
                         (course_units c)))
                   now)
           (courses state))
  | UPDATE_TASK courseId unitId taskId updates =>
      withCourses state
        (mapCourse courseId
           (λ c, touchCourse
                   (withUnits c
                      (mapUnit unitId
                         (λ u, withTasks u
                                 (mapTask taskId (λ t, spreadTask t updates now) (unit_tasks u)))
                         (course_units c)))
                   now)
           (courses state))
  | DELETE_TASK courseId unitId taskId =>
      let newCompletedIds :=
        filter (λ id, id ≠ taskId) (completedTaskIds (completionState state)) in
      let newHistory := delete taskId (completionHistory (completionState state)) in
      withCompletionState
        (withCourses state
           (mapCourse courseId
              (λ c, touchCourse
                      (withUnits c
                         (mapUnit unitId
                            (λ u, withTasks u (filter (λ t, task_id t ≠ taskId) (unit_tasks u)))
                            (course_units c)))
                      now)
              (courses state)))
        {| completedTaskIds := newCompletedIds; completionHistory := newHistory |}
  | TOGGLE_TASK_COMPLETION taskId =>
      let isCompleted := includes (completedTaskIds (completionState state)) taskId in
      let newCompletedIds :=
        if isCompleted
        then filter (λ id, id ≠ taskId) (completedTaskIds (completionState state))
        else completedTaskIds (completionState state) ++ [taskId] in
      let newHistory :=
        if isCompleted
        then delete taskId (completionHistory (completionState state))
        else <[taskId := now]> (completionHistory (completionState state)) in
      let newStatus := if isCompleted then Todo else Done in
      let newCourses := toggleCourses now (courses state) taskId newStatus in
      withCompletionState (withCourses state newCourses)
        {| completedTaskIds := newCompletedIds; completionHistory := newHistory |}
  | UPDATE_TASK_STATUS taskId status courseId unitId =>
      let oldIds := completedTaskIds (completionState state) in
      let oldHistory := completionHistory (completionState state) in
      let '(newCompletedIds, newHistory) :=
        if decide (status = Done)
        then (if negb (includes oldIds taskId)
              then (oldIds ++ [taskId], <[taskId := now]> oldHistory)
              else (oldIds, oldHistory))
        else (if includes oldIds taskId
              then (filter (λ id, id ≠ taskId) oldIds, delete taskId oldHistory)
              else (oldIds, oldHistory)) in
      withCompletionState
        (withCourses state (setStatusAt now (courses state) courseId unitId taskId status))
        {| completedTaskIds := newCompletedIds; completionHistory := newHistory |}
  | ADD_EXAM courseId exam =>
      withCourses state
        (mapCourse courseId
           (λ c, touchCourse (withExams c (course_exams c ++ [exam])) now)
           (courses state))
  | UPDATE_EXAM courseId examId updates =>
      withCourses state
        (mapCourse courseId
           (λ c, touchCourse
                   (withExams c
                      ((λ e, if decide (exam_id e = examId) then spreadExam e updates else e)
                         <$> course_exams c))
                   now)
           (courses state))
  | DELETE_EXAM courseId examId =>
      withCourses state
        (mapCourse courseId
           (λ c, touchCourse
                   (withExams c (filter (λ e, exam_id e ≠ examId) (course_exams c)))
                   now)
           (courses state))
  | ADD_PERSONAL_TASK payload =>
      withPersonalTasks state (personalTasks state ++ [payload])
  | UPDATE_PERSONAL_TASK id updates =>
      withPersonalTasks state
        (mapTask id (λ t, spreadTask t updates now) (personalTasks state))
  | DELETE_PERSONAL_TASK payload =>
      withPersonalTasks state (filter (λ t, task_id t ≠ payload) (personalTasks state))
  | ADD_LECTURE_NOTE_META payload =>
      withLectureNotesMeta state (lectureNotesMeta state ++ [payload])
  | DELETE_LECTURE_NOTE_META payload =>
      withLectureNotesMeta state (filter (λ n, note_id n ≠ payload) (lectureNotesMeta state))
  | PUSH_UNDO_SNAPSHOT =>
      let snapshot :=
        {| snap_timestamp := now;
           snap_completedTaskIds := completedTaskIds (completionState state);
           snap_completionHistory := completionHistory (completionState state) |} in
      withUndoStack state
        (slice (undoStack state) (- Z.of_nat LIMITS.MAX_UNDO_STACK + 1) None ++ [snapshot])
  | UNDO =>
      if decide (length (undoStack state) = 0) then state
      else
        match undoStack state !! (length (undoStack state) - 1) with
        | Some lastSnapshot =>
            withUndoStack
              (withCompletionState state
                 {| completedTaskIds := snap_completedTaskIds lastSnapshot;
                    completionHistory := snap_completionHistory lastSnapshot |})
              (slice (undoStack state) 0 (Some (-1)%Z))
        | None => state
        end
  | IMPORT_DATA cs completion ptasks =>
      {| courses := cs;
         completionState := completion;
         undoStack := [];
         personalTasks := ptasks;
         lectureNotesMeta := lectureNotesMeta state;
         isLoading := isLoading state;
         error := error state |}
  end.

(** ** Action creators of the planner provider

    Each creator is the state transformer obtained by running its dispatches
    in order. The values read from the clock and from [generateId] are
    arguments. *)

Definition capacityMessage (limit : nat) (what : string) : string :=
  "Maksimum " +:+ pretty limit +:+ " " +:+ what +:+ " ekleyebilirsiniz.".

Definition addCourse (courseId unitId createdAt updatedAt : string)
    (title : string) (code : option string) (state : PlannerState) : PlannerState :=
  if decide (LIMITS.MAX_COURSES ≤ length (courses state)) then
    plannerReducer updatedAt state
      (SET_ERROR (Some (capacityMessage LIMITS.MAX_COURSES "ders")))
  else
    let colorIndex := length (courses state) mod length COURSE_COLORS in
    let course :=
      {| course_id := courseId;
         course_code := code;
         course_title := title;
         course_color := COURSE_COLORS !! colorIndex;
         course_bgGradient := None;
         course_units :=
           [ {| unit_id := unitId; unit_title := "Bölüm 1"; unit_order := 0;
                unit_tasks := [] |} ];
         course_exams := [];
         course_createdAt := createdAt;
         course_updatedAt := updatedAt |} in
    plannerReducer updatedAt state (ADD_COURSE course).

Definition toggleTaskCompletion (now1 now2 : string) (taskId : string)
    (state : PlannerState) : PlannerState :=
  plannerReducer now2 (plannerReducer now1 state PUSH_UNDO_SNAPSHOT)
    (TOGGLE_TASK_COMPLETION taskId).

Definition updateTaskStatus (now1 now2 : string) (taskId : string) (status : TaskStatus)
    (courseId unitId : string) (state : PlannerState) : PlannerState :=
  plannerReducer now2 (plannerReducer now1 state PUSH_UNDO_SNAPSHOT)
    (UPDATE_TASK_STATUS taskId status courseId unitId).

Definition deleteTask (now : string) (courseId unitId taskId : string)
    (state : PlannerState) : PlannerState :=
  plannerReducer now state (DELETE_TASK courseId unitId taskId).

Definition undo (now : string) (state : PlannerState) : PlannerState :=
  plannerReducer now state UNDO.

End PlannerContext.

Import PlannerContext.

(** ** Invariants of the planner state *)

(** Every task of every unit of every course, in store order. *)
Definition allTasks (cs : list Course) : list Task :=
  cs ≫= (λ c, course_units c ≫= unit_tasks).

Definition taskIds (cs : list Course) : list string :=
  task_id <$> allTasks cs.

(** [task.status === 'done' ⟺ task.id ∈ completedTaskIds], for every stored task. *)
Definition syncInvariant (s : PlannerState) : Prop :=
  ∀ c u t, c ∈ courses s → u ∈ course_units c → t ∈ unit_tasks u →
    (task_id t ∈ completedTaskIds (completionState s) ↔ task_status t = Done).

(** Every completed id names a task of some unit. *)
Definition refInvariant (cs : list Course) (completion : CompletionState) : Prop :=
  ∀ id, id ∈ completedTaskIds completion → id ∈ taskIds cs.

(** All tasks that carry [taskId] sit in units called [unitId] inside courses
    called [courseId]. *)
Definition tasksLocated (cs : list Course) (taskId courseId unitId : string) : Prop :=
  ∀ c u t, c ∈ cs → u ∈ course_units c → t ∈ unit_tasks u → task_id t = taskId →
    course_id c = courseId ∧ unit_id u = unitId.

(** Boolean forms, for evaluation on concrete states. *)
Definition syncInvariantb (s : PlannerState) : bool :=
  forallb
    (λ t, bool_decide (includes (completedTaskIds (completionState s)) (task_id t)
                       = bool_decide (task_status t = Done)))
    (allTasks (courses s)).

Definition refInvariantb (cs : list Course) (completion : CompletionState) : bool :=
  forallb (λ id, includes (taskIds cs) id) (completedTaskIds completion).

Definition tasksLocatedb (cs : list Course) (taskId courseId unitId : string) : bool :=
  forallb
    (λ c, forallb
       (λ u, forallb
          (λ t, implb (bool_decide (task_id t = taskId))
                      (bool_decide (course_id c = courseId ∧ unit_id u = unitId)))
          (unit_tasks u))
       (course_units c))
    cs.

(** ** Sample data *)

Definition sampleTask (id : string) (status : TaskStatus) : Task :=
  {| task_id := id; task_text := "Read ch.1"; task_status := status;
     task_isPriority := None; task_dueDateISO := None; task_tags := None;
     task_note := None; task_createdAt := "t0"; task_updatedAt := "t0" |}.

Definition sampleUnit (id : string) (tasks : list Task) : Unit :=
  {| unit_id := id; unit_title := "Bölüm 1"; unit_order := 0; unit_tasks := tasks |}.

Definition sampleCourse (id : string) (units : list Unit) : Course :=
  {| course_id := id; course_code := None; course_title := "Math101";
     course_color := None; course_bgGradient := None; course_units := units;
     course_exams := []; course_createdAt := "t0"; course_updatedAt := "t0" |}.

Definition sampleState (cs : list Course) (completed : list string) : PlannerState :=
  withCompletionState (withCourses initialState cs)
    {| completedTaskIds := completed; completionHistory := ∅ |}.

(** One course, one unit, one open task. *)
Definition oneTaskState : PlannerState :=
  sampleState [sampleCourse "A" [sampleUnit "U1" [sampleTask "x" Todo]]] [].

(** Two courses whose tasks share the id ["x"]. *)
Definition sharedIdState : PlannerState :=
  sampleState
    [ sampleCourse "A" [sampleUnit "U1" [sampleTask "x" Todo]];
      sampleCourse "B" [sampleUnit "U2" [sampleTask "x" Todo]] ]
    [].

(** The actions under which the referential invariant is kept: those that
    neither drop or re-key tasks behind the completion set's back nor install
    completed ids from outside. DELETE_COURSE and DELETE_UNIT are not on the
    list. *)
Definition keepsRefs (s : PlannerState) (a : PlannerAction) : Prop :=
  match a with
  | LOAD_DATA payload => refInvariant (load_courses payload) (load_completionState payload)
  | IMPORT_DATA cs completion _ => refInvariant cs completion
  | UNDO =>
      ∀ snap, last (undoStack s) = Some snap →
        ∀ id, id ∈ snap_completedTaskIds snap → id ∈ taskIds (courses s)
  | TOGGLE_TASK_COMPLETION taskId =>
      taskId ∈ completedTaskIds (completionState s) ∨ taskId ∈ taskIds (courses s)
  | UPDATE_TASK_STATUS taskId status _ _ =>
      status = Done →
      taskId ∈ completedTaskIds (completionState s) ∨ taskId ∈ taskIds (courses s)
  | UPDATE_COURSE _ updates => pc_units updates = None
  | UPDATE_UNIT _ _ updates => pu_tasks updates = None
  | UPDATE_TASK _ _ _ updates => pt_id updates = None
  | REORDER_UNITS courseId units =>
      ∀ c, c ∈ courses s → course_id c = courseId → units ≡ₚ course_units c
  | DELETE_COURSE _ | DELETE_UNIT _ _ => False
  | _ => True
  end.

(** A completed task, its completion then toggled off and the task deleted:
    the undo stack still holds the snapshot taken before the toggle. *)
Definition afterToggleAndDelete : PlannerState :=
  deleteTask "t3" "A" "U1" "x"
    (toggleTaskCompletion "t1" "t2" "x"
       (sampleState [sampleCourse "A" [sampleUnit "U1" [sampleTask "x" Done]]] ["x"])).

(** Two courses; the only task of the second one is completed. *)
Definition twoCoursesState : PlannerState :=
  sampleState
    [ sampleCourse "A" [sampleUnit "U1" [sampleTask "x" Todo]];
      sampleCourse "B" [sampleUnit "U2" [sampleTask "y" Done]] ]
    ["y"].

(** * Habits *)

(** ** Habit types

    [createdAt] is kept as the instant it denotes (milliseconds since the
    epoch, the value of [new Date(habit.createdAt).getTime()]); [dateISO] is a
    day number. [target] and [value] are [number]s that are only ever compared:
    they are rationals here. [interval], [timesPerWeek] and the entries of
    [days] are integers, as the habit form produces them. *)

Inductive FrequencyRule :=
  | WeeklyTarget (timesPerWeek : Z)
  | SpecificDays (days : list Z)
  | EveryXDays (interval : Z).

Inductive HabitType := Boolean | Numeric.

Inductive SortMode := Manual | ByName | ColorGroup.

Record Habit := mkHabit {
  habit_id : string;
  habit_title : string;
  habit_description : option string;
  habit_emoji : string;
  habit_type : HabitType;
  habit_target : option Q;
  habit_unit : option string;
  habit_color : option string;
  habit_frequency : FrequencyRule;
  habit_sortMode : option SortMode;
  habit_manualOrder : option Z;
  habit_isArchived : bool;
  habit_createdAt : Z;
  habit_updatedAt : string;
}.

Record HabitLog := mkHabitLog {
  log_habitId : string;
  log_dateISO : Z;
  log_done : option bool;
  log_value : option Q;
  log_timestamp : string;
}.

Record PartialHabit := mkPartialHabit {
  ph_id : option string;
  ph_title : option string;
  ph_description : option (option string);
  ph_emoji : option string;
  ph_type : option HabitType;
  ph_target : option (option Q);
  ph_unit : option (option string);
  ph_color : option (option string);
  ph_frequency : option FrequencyRule;
  ph_sortMode : option (option SortMode);
  ph_manualOrder : option (option Z);
  ph_isArchived : option bool;
  ph_createdAt : option Z;
  ph_updatedAt : option string;
}.

(** ** Habits state, actions and reducer ([HabitsContext.tsx]) *)

Module HabitsContext.

(** [{ ...h, ...updates, updatedAt: now }] *)
Definition spreadHabit (h : Habit) (updates : PartialHabit) (now : string) : Habit :=
  {| habit_id := default (habit_id h) (ph_id updates);
     habit_title := default (habit_title h) (ph_title updates);
     habit_description := default (habit_description h) (ph_description updates);
     habit_emoji := default (habit_emoji h) (ph_emoji updates);
     habit_type := default (habit_type h) (ph_type updates);
     habit_target := default (habit_target h) (ph_target updates);
     habit_unit := default (habit_unit h) (ph_unit updates);
     habit_color := default (habit_color h) (ph_color updates);
     habit_frequency := default (habit_frequency h) (ph_frequency updates);
     habit_sortMode := default (habit_sortMode h) (ph_sortMode updates);
     habit_manualOrder := default (habit_manualOrder h) (ph_manualOrder updates);
     habit_isArchived := default (habit_isArchived h) (ph_isArchived updates);
     habit_createdAt := default (habit_createdAt h) (ph_createdAt updates);
     habit_updatedAt := now |}.

(** [{ ...h, isArchived, updatedAt: now }] *)
Definition withArchived (h : Habit) (archived : bool) (now : string) : Habit :=
  {| habit_id := habit_id h;
     habit_title := habit_title h;
     habit_description := habit_description h;
     habit_emoji := habit_emoji h;
     habit_type := habit_type h;
     habit_target := habit_target h;
     habit_unit := habit_unit h;
     habit_color := habit_color h;
     habit_frequency := habit_frequency h;
     habit_sortMode := habit_sortMode h;
     habit_manualOrder := habit_manualOrder h;
     habit_isArchived := archived;
     habit_createdAt := habit_createdAt h;
     habit_updatedAt := now |}.

Record HabitsState := mkHabitsState {
  habits : list Habit;
  habitLogs : gmap string (list HabitLog);
  isLoading : bool;
  error : option string;
}.

Definition initialState : HabitsState :=
  {| habits := []; habitLogs := ∅; isLoading := true; error := None |}.

Inductive HabitsAction :=
  | LOAD_DATA (habits : list Habit) (habitLogs : gmap string (list HabitLog))
  | SET_LOADING (payload : bool)
  | SET_ERROR (payload : option string)
  | ADD_HABIT (payload : Habit)
  | UPDATE_HABIT (id : string) (updates : PartialHabit)
  | DELETE_HABIT (payload : string)
  | ARCHIVE_HABIT (payload : string)
  | UNARCHIVE_HABIT (payload : string)
  | LOG_HABIT (payload : HabitLog)
  | REORDER_HABITS (payload : list Habit)
  | IMPORT_HABITS (habits : list Habit) (logs : list HabitLog).

Definition withHabits (s : HabitsState) (hs : list Habit) : HabitsState :=
  {| habits := hs; habitLogs := habitLogs s;
     isLoading := isLoading s; error := error s |}.

Definition withHabitLogs (s : HabitsState) (logs : gmap string (list HabitLog)) : HabitsState :=
  {| habits := habits s; habitLogs := logs;
     isLoading := isLoading s; error := error s |}.

(** The grouping loop of IMPORT_HABITS (and of the initial load): each log is
    appended to the list kept under its [habitId]. *)
Definition groupLogs (logs : list HabitLog) : gmap string (list HabitLog) :=
  fold_left
    (λ newLogs log,
       let existing := default [] (newLogs !! log_habitId log) in
       <[log_habitId log := existing ++ [log]]> newLogs)
    logs ∅.

Definition habitsReducer (now : string) (state : HabitsState) (action : HabitsAction)
    : HabitsState :=
  match action with
  | LOAD_DATA hs logs =>
      {| habits := hs; habitLogs := logs;
         isLoading := false; error := error state |}
  | SET_LOADING payload =>
      {| habits := habits state; habitLogs := habitLogs state;
         isLoading := payload; error := error state |}
  | SET_ERROR payload =>
      {| habits := habits state; habitLogs := habitLogs state;
         isLoading := isLoading state; error := payload |}
  | ADD_HABIT payload =>
      withHabits state (habits state ++ [payload])
  | UPDATE_HABIT id updates =>
      withHabits state
        ((λ h, if decide (habit_id h = id) then spreadHabit h updates now else h)
           <$> habits state)
  | DELETE_HABIT payload =>
      let newLogs := delete payload (habitLogs state) in
      withHabitLogs
        (withHabits state (filter (λ h, habit_id h ≠ payload) (habits state)))
        newLogs
  | ARCHIVE_HABIT payload =>
      withHabits state
        ((λ h, if decide (habit_id h = payload) then withArchived h true now else h)
           <$> habits state)
  | UNARCHIVE_HABIT payload =>
      withHabits state
        ((λ h, if decide (habit_id h = payload) then withArchived h false now else h)
           <$> habits state)
  | LOG_HABIT payload =>
      let habitId := log_habitId payload in
      let dateISO := log_dateISO payload in
      let existingLogs := default [] (habitLogs state !! habitId) in
      let filteredLogs := filter (λ l, log_dateISO l ≠ dateISO) existingLogs in
      let newLogs := <[habitId := filteredLogs ++ [payload]]> (habitLogs state) in
      withHabitLogs state newLogs
  | REORDER_HABITS payload =>
      withHabits state payload
  | IMPORT_HABITS hs logs =>
      withHabitLogs (withHabits state hs) (groupLogs logs)
  end.

(** [logHabit]: the log is written to the record store first; the LOG_HABIT
    dispatch follows when the write succeeds ([saved]), the error message when
    it fails. *)
Definition logHabit (now : string) (saved : bool) (habitId : string) (dateISO : Z)
    (done : option bool) (value : option Q) (state : HabitsState) : HabitsState :=
  let log :=
    {| log_habitId := habitId; log_dateISO := dateISO; log_done := done;
       log_value := value; log_timestamp := now |} in
  if saved then habitsReducer now state (LOG_HABIT log)
  else habitsReducer now state (SET_ERROR (Some "Alışkanlık kaydı yapılamadı.")).

(** [getHabitLogs] *)
Definition getHabitLogs (state : HabitsState) (habitId : string) : list HabitLog :=
  default [] (habitLogs state !! habitId).

End HabitsContext.

(** * Derived statistics *)

Open Scope Z_scope.

(** ** Dates

    A [Date] is represented by its time value, the instant it holds.  The
    local getters and setters of [Date] are those of ECMA-262: with
    [LocalTZA(t, isUTC)] the offset of the host zone, in milliseconds, in
    force at the UTC time value [t] ([isUTC] true) or at the local time value
    [t] ([isUTC] false; a local time that a transition skips or repeats is
    read with the offset in force before the transition),
    [LocalTime(t) = t + LocalTZA(t, true)] and [UTC(t) = t - LocalTZA(t, false)]. *)

Definition MS_PER_DAY : Z := 1000 * 60 * 60 * 24.

Definition MS_PER_HOUR : Z := 1000 * 60 * 60.

(** What the host supplies. *)
Class HostZone := { LocalTZA : Z → bool → Z }.

(** [Day(t)] and [WeekDay(t)] of ECMA-262: 0 is Sunday; 1970-01-01 was a
    Thursday. *)
Definition Day (t : Z) : Z := t `div` MS_PER_DAY.

Definition WeekDay (t : Z) : Z := (Day t + 4) `mod` 7.

(** [new Date(dateISO).getTime()] for a date-only string, which is read as
    UTC midnight. *)
Definition getTime (dateISO : Z) : Z := dateISO * MS_PER_DAY.

(** [formatDate(date)], that is [date.toISOString().split('T')[0]]: the UTC
    day. *)
Definition formatDate (date : Z) : Z := Day date.

Section Host.
Context {zone : HostZone}.

Definition LocalTime (t : Z) : Z := t + LocalTZA t true.

Definition UTC (t : Z) : Z := t - LocalTZA t false.

(** The local calendar day of an instant and [date.getDay()]. *)
Definition localDay (date : Z) : Z := Day (LocalTime date).

Definition Date_getDay (date : Z) : Z := WeekDay (LocalTime date).

(** [d.setDate(d.getDate() + k)]: the local day moves by [k], the local time
    of day stays, and the result is read back as a local time. *)
Definition addDays (date k : Z) : Z := UTC (LocalTime date + k * MS_PER_DAY).

(** [d.setHours(h, m, s, ms)], the four arguments given as the millisecond
    of the day: the local day stays. *)
Definition setHours (date msOfDay : Z) : Z :=
  UTC (localDay date * MS_PER_DAY + msOfDay).

(** [new Date(dateISO).getDay()]: the local weekday of the UTC midnight of
    the day. *)
Definition getDay (dateISO : Z) : Z := Date_getDay (getTime dateISO).

(** [getLastNDays(n)], [now] being the instant of [new Date()]: for [i] from
    [n - 1] down to 0, the UTC day of [now] moved back by [i] local days. *)
Definition getLastNDays (now : Z) (n : Z) : list Z :=
  (λ i, formatDate (addDays now (- i))) <$> reverse (seqZ 0 n).

(** The host zone keeps one offset. *)
Definition fixedOffset (tz : Z) : Prop := ∀ t isUTC, LocalTZA t isUTC = tz.

(** ** Due and completed *)

(** [a % b === 0] for integers [a ≥ 0] and [b]; the remainder by 0 is NaN. *)
Definition remIsZero (a b : Z) : bool :=
  if decide (b = 0) then false else bool_decide (Z.rem a b = 0).

(** [Math.floor((date.getTime() - createdDate.getTime()) / (1000*60*60*24))];
    the quotient of two instants a few centuries apart is far from the
    precision limit of a double, so its floor is the integer floor. *)
Definition diffDays (habit : Habit) (dateISO : Z) : Z :=
  (getTime dateISO - habit_createdAt habit) `div` MS_PER_DAY.

Definition isHabitDueOnDate (habit : Habit) (dateISO : Z) : bool :=
  match habit_frequency habit with
  | WeeklyTarget _ => true
  | SpecificDays days => bool_decide (getDay dateISO ∈ days)
  | EveryXDays interval =>
      (0 <=? diffDays habit dateISO) && remIsZero (diffDays habit dateISO) interval
  end.

(** [x || d] on an optional number: [undefined] and [0] are falsy. *)
Definition orNumber (x : option Q) (d : Q) : Q :=
  match x with
  | Some v => if Qeq_bool v 0 then d else v
  | None => d
  end.

Definition isHabitCompleted (habit : Habit) (log : option HabitLog) : bool :=
  match log with
  | None => false
  | Some log =>
      match habit_type habit with
      | Boolean => bool_decide (log_done log = Some true)
      | Numeric =>
          let target := orNumber (habit_target habit) 1 in
          Qle_bool target (orNumber (log_value log) 0)
      end
  end.

(** [new Map(logs.map(log => [log.dateISO, log]))]: a later log of the same
    day replaces an earlier one. *)
Definition logMapOf (logs : list HabitLog) : gmap Z HabitLog :=
  fold_left (λ m log, <[log_dateISO log := log]> m) logs ∅.

(** ** Streaks *)

(** The counters of [calculateHabitStreak]. *)
Record StreakVars := mkStreakVars {
  currentStreak : Z;
  bestStreak : Z;
  tempStreak : Z;
  consecutiveMisses : Z;
}.

Record Streak := mkStreak { current : Z; best : Z }.

Definition isWeeklyTarget (habit : Habit) : bool :=
  match habit_frequency habit with WeeklyTarget _ => true | _ => false end.

(** What turn [i] of the loop does to the counters, given whether the day it
    looks at is due and is completed. *)
Definition streakUpdate (weeklyTarget isDue completed : bool) (i : Z)
    (v : StreakVars) : StreakVars :=
  if isDue then
    if completed then
      let tempStreak' := tempStreak v + 1 in
      {| currentStreak := if i <? 30 then tempStreak' else currentStreak v;
         bestStreak := bestStreak v;
         tempStreak := tempStreak';
         consecutiveMisses := 0 |}
    else
      let consecutiveMisses' := consecutiveMisses v + 1 in
      if weeklyTarget then
        if 7 <? consecutiveMisses' then
          {| currentStreak := currentStreak v;
             bestStreak := Z.max (bestStreak v) (tempStreak v);
             tempStreak := 0;
             consecutiveMisses := consecutiveMisses' |}
        else
          {| currentStreak := currentStreak v;
             bestStreak := bestStreak v;
             tempStreak := tempStreak v;
             consecutiveMisses := consecutiveMisses' |}
      else
        {| currentStreak := currentStreak v;
           bestStreak := Z.max (bestStreak v) (tempStreak v);
           tempStreak := 0;
           consecutiveMisses := consecutiveMisses' |}
  else v.

(** One turn of [for (let i = 0; i < 365; i++)]: the state is the counters
    and the instant of [checkDate]. *)
Definition streakStep (habit : Habit) (logMap : gmap Z HabitLog)
    (st : StreakVars * Z) (i : Z) : StreakVars * Z :=
  let '(vars, checkDate) := st in
  let dateISO := formatDate checkDate in
  let log := logMap !! dateISO in
  let isDue := isHabitDueOnDate habit dateISO in
  (streakUpdate (isWeeklyTarget habit) isDue (isHabitCompleted habit log) i vars,
   addDays checkDate (-1)).

Definition streakStart : StreakVars :=
  {| currentStreak := 0; bestStreak := 0; tempStreak := 0; consecutiveMisses := 0 |}.

Definition calculateHabitStreak (habit : Habit) (logs : list HabitLog) (endDate : Z)
    : Streak :=
  let logMap := logMapOf logs in
  let '(final, _) :=
    fold_left (streakStep habit logMap) (seqZ 0 365) (streakStart, getTime endDate) in
  {| current := currentStreak final;
     best := Z.max (bestStreak final) (tempStreak final) |}.

(** The instant of [checkDate] at the start of turn [i], and the day that
    turn looks at. *)
Fixpoint checkDateAt (endDate : Z) (i : nat) : Z :=
  match i with
  | O => getTime endDate
  | S i => addDays (checkDateAt endDate i) (-1)
  end.

Definition walkedDay (endDate i : Z) : Z := formatDate (checkDateAt endDate (Z.to_nat i)).

(** The days that [calculateHabitStreak] looks at in its turns [from], ...,
    [from + n - 1], latest first. *)
Definition walkedDays (endDate from n : Z) : list Z :=
  walkedDay endDate <$> seqZ from n.

(** The same loop told by turn number: [isDue i] and [completed i] speak of
    the day that turn [i] looks at. *)
Definition streakWalk (weeklyTarget : bool) (isDue completed : Z → bool)
    (turns : list Z) (v : StreakVars) : StreakVars :=
  fold_left (λ v i, streakUpdate weeklyTarget (isDue i) (completed i) i v) turns v.

(** The bounds kept by every turn: after [k] turns no counter exceeds [k],
    and the current streak stays below the larger of the best and the running
    streak. *)
Definition streakBounds (k : Z) (v : StreakVars) : Prop :=
  0 ≤ currentStreak v ≤ Z.max (bestStreak v) (tempStreak v) ∧
  0 ≤ tempStreak v ≤ k ∧ 0 ≤ bestStreak v ≤ k.

End Host.

(** ** Sample hosts *)

(** A zone with one offset for all time. *)
Definition fixedZone (tz : Z) : HostZone := {| LocalTZA := λ _ _, tz |}.

(** Europe/Istanbul (UTC+3 since 2016) and America/Bogota (UTC-5 since
    1993). *)
Definition Istanbul : HostZone := fixedZone (3 * MS_PER_HOUR).

Definition Bogota : HostZone := fixedZone (-5 * MS_PER_HOUR).

(** Europe/Berlin from 2022-10-30 to 2025-03-30: UTC+2 between the last
    Sundays of March and of October, 01:00 UTC, and UTC+1 otherwise.  The
    instants are those of 2023-03-26, 2023-10-29, 2024-03-31 and
    2024-10-27. *)
Definition berlinSummer (t : Z) : bool :=
  ((19442 * MS_PER_DAY + MS_PER_HOUR <=? t) && (t <? 19659 * MS_PER_DAY + MS_PER_HOUR))
  || ((19813 * MS_PER_DAY + MS_PER_HOUR <=? t) && (t <? 20023 * MS_PER_DAY + MS_PER_HOUR)).

Definition Berlin : HostZone :=
  {| LocalTZA := λ t isUTC,
       if isUTC then
         if berlinSummer t then 2 * MS_PER_HOUR else MS_PER_HOUR
       else
         (* a local time: summer time runs from 03:00 to 03:00 local *)
         if berlinSummer (t - 2 * MS_PER_HOUR) then 2 * MS_PER_HOUR else MS_PER_HOUR |}.

(** ** Score

    [calculateHabitScore] computes with [number]s. The operations it uses are
    gathered in an interface, with the few facts about them that the score's
    shape rests on; IEEE doubles and the rationals both provide them. *)

Class JsNumber (R : Type) := {
  num_lit : Q → R;                 (* a numeric literal *)
  num_add : R → R → R;             (* a + b *)
  num_mul : R → R → R;             (* a * b *)
  num_div : R → R → R;             (* a / b *)
  Math_pow : R → nat → R;          (* Math.pow(a, index) *)
  Math_round : R → R;              (* Math.round(a) *)
  num_is_zero : R → bool;          (* a === 0 *)
  num_positive : R → Prop;         (* a > 0 *)
  num_zero_is_zero : num_is_zero (num_lit 0) = true;
  num_positive_not_zero : ∀ a, num_positive a → num_is_zero a = false;
  num_pow_positive : ∀ index, num_positive (Math_pow (num_lit 1.05) index);
  num_add_zero_positive : ∀ b, num_positive b → num_positive (num_add (num_lit 0) b);
  num_add_positive : ∀ a b, num_positive a → num_positive b → num_positive (num_add a b);
}.

Section Score.
Context {R : Type} `{JsNumber R} {zone : HostZone}.






End Score.

Close Scope Z_scope.

(** ** Rational numbers as [number]s *)

(** [Math.round]: the nearest integer, a tie going up. *)
Definition Qround (a : Q) : Q := inject_Z (Qfloor (a + 1 / 2)).

#[global] Instance Q_JsNumber : JsNumber Q.
Proof.
  refine {| num_lit := λ q, q;
            num_add := Qplus;
            num_mul := Qmult;
            num_div := Qdiv;
            Math_pow := λ a index, Qpower a (Z.of_nat index);
            Math_round := Qround;
            num_is_zero := λ a, Qeq_bool a 0;
            num_positive := λ a, (0 < a)%Q |}.
  - reflexivity.
  - intros a Hpos. destruct (Qeq_bool a 0) eqn:Heq; [|reflexivity].
    apply Qeq_bool_eq in Heq. rewrite Heq in Hpos. by apply Qlt_irrefl in Hpos.
  - intros index. by apply Qpower_0_lt.
  - intros b Hpos. by rewrite Qplus_0_l.
  - intros a b Ha Hb. rewrite <- (Qplus_0_l 0). by apply Qplus_lt_le_compat; [|apply Qlt_le_weak].
Defined.

(** ** Sample habits *)

Definition sampleHabit (type : HabitType) (frequency : FrequencyRule) (createdAt : Z)
    : Habit :=
  {| habit_id := "h"; habit_title := "Read"; habit_description := None;
     habit_emoji := "*"; habit_type := type; habit_target := None;
     habit_unit := None; habit_color := None; habit_frequency := frequency;
     habit_sortMode := Some Manual; habit_manualOrder := Some 0%Z;
     habit_isArchived := false; habit_createdAt := createdAt;
     habit_updatedAt := "t0" |}.

Definition doneLog (dateISO : Z) : HabitLog :=
  {| log_habitId := "h"; log_dateISO := dateISO; log_done := Some true;
     log_value := None; log_timestamp := "t0" |}.

(** ** Which ids a unit and a course hold *)

Definition unitHas (u : Unit) (id : string) : Prop :=
  ∃ t, t ∈ unit_tasks u ∧ task_id t = id.

Definition courseHas (c : Course) (id : string) : Prop :=
  ∃ u, u ∈ course_units c ∧ unitHas u id.

(** A habit due on Monday, Wednesday and Friday, and a completed log on each
    of its nine due days of the three weeks that end on day 19727 (Friday,
    2024-01-05). *)
Definition mwfHabit : Habit := sampleHabit Boolean (SpecificDays [1; 3; 5]%Z) 0%Z.

Definition threeWeeksLogs : list HabitLog :=
  doneLog <$> [19727; 19725; 19723; 19720; 19718; 19716; 19713; 19711; 19709]%Z.


Definition berlinNight : Z := (20032 * MS_PER_DAY + 30 * 60 * 1000)%Z.


Definition twoLogs : list HabitLog := doneLog <$> [19727; 19725]%Z.

(** * More of the providers and of the utilities *)

(** ** Remaining action creators of the planner provider *)

(** [HABIT_COLORS] of the types module. *)
Definition HABIT_COLORS : list string :=
  [ "#ef4444"; "#f97316"; "#f59e0b"; "#84cc16";
    "#22c55e"; "#14b8a6"; "#06b6d4"; "#3b82f6";
    "#6366f1"; "#8b5cf6"; "#d946ef"; "#ec4899" ].

(** [state.courses.find(c => c.id === courseId)] and
    [course.units.find(u => u.id === unitId)]. *)
Definition findCourse (cs : list Course) (courseId : string) : option Course :=
  find (λ c, bool_decide (course_id c = courseId)) cs.

Definition findUnit (us : list Unit) (unitId : string) : option Unit :=
  find (λ u, bool_decide (unit_id u = unitId)) us.

Definition addUnit (unitId now : string) (courseId title : string)
    (state : PlannerState) : PlannerState :=
  match findCourse (courses state) courseId with
  | None => state
  | Some course =>
      if decide (LIMITS.MAX_UNITS_PER_COURSE ≤ length (course_units course)) then
        plannerReducer now state
          (SET_ERROR (Some (capacityMessage LIMITS.MAX_UNITS_PER_COURSE "ünite")))
      else
        let unit :=
          {| unit_id := unitId; unit_title := title;
             unit_order := Z.of_nat (length (course_units course));
             unit_tasks := [] |} in
        plannerReducer now state (ADD_UNIT courseId unit)
  end.

(** The task literal of [addTask] and [addPersonalTask]:
    [{ id, text: text.slice(0, MAX_TASK_TEXT_LENGTH), status: 'todo', createdAt,
       updatedAt, ...options }]; a key of [options] overrides the key written
    before it. A character of the model stands for a code unit of the text. *)
Definition newTask (taskId createdAt updatedAt : string) (text : string)
    (options : PartialTask) : Task :=
  {| task_id := default taskId (pt_id options);
     task_text := default (String.substring 0 LIMITS.MAX_TASK_TEXT_LENGTH text) (pt_text options);
     task_status := default Todo (pt_status options);
     task_isPriority := default None (pt_isPriority options);
     task_dueDateISO := default None (pt_dueDateISO options);
     task_tags := default None (pt_tags options);
     task_note := default None (pt_note options);
     task_createdAt := default createdAt (pt_createdAt options);
     task_updatedAt := default updatedAt (pt_updatedAt options) |}.

(** [options] left out: [...undefined] spreads nothing. *)
Definition noOptions : PartialTask :=
  {| pt_id := None; pt_text := None; pt_status := None; pt_isPriority := None;
     pt_dueDateISO := None; pt_tags := None; pt_note := None;
     pt_createdAt := None; pt_updatedAt := None |}.

Definition addTask (taskId createdAt updatedAt now : string)
    (courseId unitId text : string) (options : PartialTask)
    (state : PlannerState) : PlannerState :=
  let course := findCourse (courses state) courseId in
  let unit := course ≫= (λ c, findUnit (course_units c) unitId) in
  match unit with
  | Some u =>
      if decide (LIMITS.MAX_TASKS_PER_UNIT ≤ length (unit_tasks u)) then
        plannerReducer now state
          (SET_ERROR (Some (capacityMessage LIMITS.MAX_TASKS_PER_UNIT "görev")))
      else
        plannerReducer now state
          (ADD_TASK courseId unitId (newTask taskId createdAt updatedAt text options))
  | None =>
      plannerReducer now state
        (ADD_TASK courseId unitId (newTask taskId createdAt updatedAt text options))
  end.

Definition addExam (examId now : string) (courseId title examDateISO : string)
    (state : PlannerState) : PlannerState :=
  match findCourse (courses state) courseId with
  | None => state
  | Some course =>
      if decide (LIMITS.MAX_EXAMS_PER_COURSE ≤ length (course_exams course)) then
        plannerReducer now state
          (SET_ERROR (Some (capacityMessage LIMITS.MAX_EXAMS_PER_COURSE "sınav")))
      else
        let exam :=
          {| exam_id := examId; exam_title := title; exam_examDateISO := examDateISO;
             exam_description := None |} in
        plannerReducer now state (ADD_EXAM courseId exam)
  end.

Definition addPersonalTask (taskId createdAt updatedAt now : string)
    (text : string) (options : PartialTask) (state : PlannerState) : PlannerState :=
  plannerReducer now state
    (ADD_PERSONAL_TASK (newTask taskId createdAt updatedAt text options)).

Definition deleteCourse (now : string) (id : string) (state : PlannerState)
    : PlannerState :=
  plannerReducer now state (DELETE_COURSE id).

Definition deleteUnit (now : string) (courseId unitId : string) (state : PlannerState)
    : PlannerState :=
  plannerReducer now state (DELETE_UNIT courseId unitId).

Definition importData (now : string) (cs : list Course) (completion : CompletionState)
    (ptasks : list PersonalTask) (state : PlannerState) : PlannerState :=
  plannerReducer now state (IMPORT_DATA cs completion ptasks).

(** [canUndo: state.undoStack.length > 0] *)
Definition canUndo (state : PlannerState) : bool :=
  bool_decide (0 < length (undoStack state)).

(** ** Task and course utilities *)

(** The tasks of one course, in store order. *)
Definition courseTasks (c : Course) : list Task :=
  course_units c ≫= unit_tasks.

(** The strings of [TaskStatus]. *)
Definition statusName (status : TaskStatus) : string :=
  match status with
  | Todo => "todo"
  | InProgress => "in-progress"
  | Review => "review"
  | Done => "done"
  end.

(** [getTaskCountByStatus]: [acc[task.status] = (acc[task.status] || 0) + 1]. *)
Definition getTaskCountByStatus (tasks : list Task) : gmap string Z :=
  fold_left
    (λ acc task,
       <[statusName (task_status task) :=
           (default 0 (acc !! statusName (task_status task)) + 1)%Z]> acc)
    tasks ∅.

Record CourseProgress (R : Type) := mkCourseProgress {
  progress_total : Z;
  progress_completed : Z;
  progress_percentage : R;
}.
Arguments mkCourseProgress {R} _ _ _.
Arguments progress_total {R} _.
Arguments progress_completed {R} _.
Arguments progress_percentage {R} _.

(** One turn of the inner [forEach] of [calculateCourseProgress] on the pair
    ([total], [completed]). *)
Definition progressStep (completedIds : list string) (acc : Z * Z) (task : Task) : Z * Z :=
  let '(total, completed) := acc in
  if includes completedIds (task_id task)
  then ((total + 1)%Z, (completed + 1)%Z)
  else ((total + 1)%Z, completed).

Definition calculateCourseProgress {R : Type} `{JsNumber R}
    (course : Course) (completedIds : list string) : CourseProgress R :=
  let '(total, completed) :=
    fold_left
      (λ acc unit, fold_left (progressStep completedIds) (unit_tasks unit) acc)
      (course_units course) (0%Z, 0%Z) in
  let percentage :=
    if decide (total = 0%Z) then num_lit 0
    else Math_round
           (num_mul (num_div (num_lit (inject_Z completed)) (num_lit (inject_Z total)))
                    (num_lit 100)) in
  {| progress_total := total; progress_completed := completed;
     progress_percentage := percentage |}.

(** ** Limits and addresses of the planner store *)

(** The per-course limits of [LIMITS]. *)
Definition unitsWithinLimit (cs : list Course) : Prop :=
  ∀ c, c ∈ cs → length (course_units c) ≤ LIMITS.MAX_UNITS_PER_COURSE.

Definition examsWithinLimit (cs : list Course) : Prop :=
  ∀ c, c ∈ cs → length (course_exams c) ≤ LIMITS.MAX_EXAMS_PER_COURSE.

Definition tasksWithinLimit (cs : list Course) : Prop :=
  ∀ c u, c ∈ cs → u ∈ course_units c →
    length (unit_tasks u) ≤ LIMITS.MAX_TASKS_PER_UNIT.

(** Course ids are unique, and so are unit ids inside each course. *)
Definition uniqueCourseIds (cs : list Course) : Prop :=
  NoDup (course_id <$> cs).

Definition uniqueUnitIds (cs : list Course) : Prop :=
  ∀ c, c ∈ cs → NoDup (unit_id <$> course_units c).

(** ** Remaining action creators of the habits provider *)

Module HabitsProvider.
Import HabitsContext.

(** The argument of [addHabit]. *)
Record HabitData := mkHabitData {
  data_title : string;
  data_description : option string;
  data_emoji : option string;
  data_type : HabitType;
  data_frequency : FrequencyRule;
  data_target : option Q;
  data_unit : option string;
  data_color : option string;
}.

(** [x || d] on an optional string: [undefined] and [''] are falsy. *)
Definition orString (x : option string) (d : string) : string :=
  match x with
  | Some v => if decide (v = "") then d else v
  | None => d
  end.

(** [habitData.color || HABIT_COLORS[colorIndex]] *)
Definition orColor (x : option string) (d : option string) : option string :=
  match x with
  | Some v => if decide (v = "") then d else Some v
  | None => d
  end.

Definition addHabit (habitId : string) (createdAt : Z) (updatedAt : string)
    (habitData : HabitData) (state : HabitsState) : HabitsState :=
  if decide (LIMITS.MAX_HABITS ≤ length (habits state)) then
    habitsReducer updatedAt state
      (SET_ERROR (Some (capacityMessage LIMITS.MAX_HABITS "alışkanlık")))
  else
    let colorIndex := length (habits state) mod length HABIT_COLORS in
    let habit :=
      {| habit_id := habitId;
         habit_title := data_title habitData;
         habit_description := data_description habitData;
         habit_emoji := orString (data_emoji habitData) "✨";
         habit_type := data_type habitData;
         habit_target := data_target habitData;
         habit_unit := data_unit habitData;
         habit_color := orColor (data_color habitData) (HABIT_COLORS !! colorIndex);
         habit_frequency := data_frequency habitData;
         habit_sortMode := Some Manual;
         habit_manualOrder := Some (Z.of_nat (length (habits state)));
         habit_isArchived := false;
         habit_createdAt := createdAt;
         habit_updatedAt := updatedAt |} in
    habitsReducer updatedAt state (ADD_HABIT habit).

(** [deleteHabit]: the logs of the habit are deleted from the record store
    first; the DELETE_HABIT dispatch follows when that succeeds ([deleted]),
    the error message when it fails. *)
Definition deleteHabit (now : string) (deleted : bool) (id : string)
    (state : HabitsState) : HabitsState :=
  if deleted then habitsReducer now state (DELETE_HABIT id)
  else habitsReducer now state (SET_ERROR (Some "Alışkanlık silinemedi.")).

Definition archiveHabit (now : string) (id : string) (state : HabitsState) : HabitsState :=
  habitsReducer now state (ARCHIVE_HABIT id).

Definition unarchiveHabit (now : string) (id : string) (state : HabitsState)
    : HabitsState :=
  habitsReducer now state (UNARCHIVE_HABIT id).

(** [importHabits]: the in-memory part; each log is also written to the
    record store, on its own. *)
Definition importHabits (now : string) (hs : list Habit) (logs : list HabitLog)
    (state : HabitsState) : HabitsState :=
  habitsReducer now state (IMPORT_HABITS hs logs).

(** [getArchivedHabits] *)
Definition getArchivedHabits (state : HabitsState) : list Habit :=
  filter (λ h, habit_isArchived h = true) (habits state).

(** At most one log per habit and day. *)
Definition oneLogPerDay (state : HabitsState) : Prop :=
  ∀ habitId logs, habitLogs state !! habitId = Some logs →
    NoDup (log_dateISO <$> logs).

End HabitsProvider.

(** ** The streak loop seen through its due days *)

Open Scope Z_scope.

Section HostStatistics.
Context {zone : HostZone}.

(** Whether each due day among [days] is completed, in the order of [days]. *)
Definition dueFlags (habit : Habit) (logs : list HabitLog) (days : list Z) : list bool :=
  (λ d, isHabitCompleted habit (logMapOf logs !! d))
    <$> filter (λ d, isHabitDueOnDate habit d = true) days.

End HostStatistics.

(** The loop over due days only, all at the same side of turn 30. *)
Definition flagWalk (weeklyTarget : bool) (index : Z) (flags : list bool)
    (v : StreakVars) : StreakVars :=
  fold_left (λ v completed, streakUpdate weeklyTarget true completed index v) flags v.

(** The number of completed days among the flags. *)
Definition completedCount (flags : list bool) : Z :=
  Z.of_nat (length (filter (λ b, b = true) flags)).

Close Scope Z_scope.

(** Three completed due days, a missed one, and an older completed one, for
    [mwfHabit] walked back from day 19727. *)
Definition brokenRunLogs : list HabitLog :=
  doneLog <$> [19727; 19725; 19723; 19718]%Z.

(** A weekly-target habit, completed every fifth day of the year that ends
    on day 19727. *)
Definition weeklyHabit : Habit := sampleHabit Boolean (WeeklyTarget 3%Z) 0%Z.

Definition everyFifthDayLogs : list HabitLog :=
  doneLog <$> ((λ k, 19727 - 5 * k)%Z <$> seqZ 0 73).

(** A habit due every day of the week, and a completed log on each of the
    twenty days that end on day 20032 (2024-11-05). *)
Definition dailyHabit : Habit :=
  sampleHabit Boolean (SpecificDays [0; 1; 2; 3; 4; 5; 6]%Z) 0%Z.

Definition twentyDaysLogs : list HabitLog :=
  doneLog <$> ((λ k, 20032 - k)%Z <$> seqZ 0 20).

(** ** Weeks *)

Open Scope Z_scope.

(** 23:59:59.999 *)
Definition END_OF_DAY : Z := ((23 * 60 + 59) * 60 + 59) * 1000 + 999.

Record WeeklyProgress := mkWeeklyProgress { completed : Z; target : Z }.

Section HostWeeks.
Context {zone : HostZone}.

(** [getWeekStart]: [setDate(getDate() - day + (day === 0 ? -6 : 1))] moves
    the date by [- day + (day === 0 ? -6 : 1)] days. *)
Definition getWeekStart (date : Z) : Z :=
  let d := date in
  let day := Date_getDay d in
  let d := addDays d (- day + (if decide (day = 0) then -6 else 1)) in
  setHours d 0.

Definition getWeekEnd (date : Z) : Z :=
  let start := getWeekStart date in
  let end_ := addDays start 6 in
  setHours end_ END_OF_DAY.

(** [getDaysInRange]; [current], which starts as a copy of [startDate], is
    the first argument of the loop.  Nothing in the loop bounds its turns, so
    the walk takes fuel: [None] when [fuel] turns did not bring [current]
    past [endDate]. *)
Fixpoint getDaysInRange (fuel : nat) (startDate endDate : Z) : option (list Z) :=
  match fuel with
  | O => None
  | S fuel =>
      if decide (startDate ≤ endDate) then
        days ← getDaysInRange fuel (addDays startDate 1) endDate;
        Some (formatDate startDate :: days)
      else Some []
  end.

(** The local time value of the midnight that starts the Monday of the local
    week of [date], and whether a local time value exists on the host, that
    is, is the local time of the instant it is read as. *)
Definition mondayOf (date : Z) : Z :=
  (localDay date - (Date_getDay date + 6) `mod` 7) * MS_PER_DAY.

Definition localTimeExists (t : Z) : Prop := LocalTime (UTC t) = t.

(** One turn of the [forEach] of [getWeeklyProgress] on the counters
    [(completed, target)]. *)
Definition weekStep (habit : Habit) (logMap : gmap Z HabitLog) (acc : Z * Z)
    (dateISO : Z) : Z * Z :=
  let '(completed, target) := acc in
  if isHabitDueOnDate habit dateISO then
    (if isHabitCompleted habit (logMap !! dateISO) then completed + 1 else completed,
     target + 1)
  else (completed, target).

(** [getWeeklyProgress]; [now] is the instant of [new Date()], read when
    [weekStartDate] is not given; [fuel] is for the loop of
    [getDaysInRange]. *)
Definition getWeeklyProgress (fuel : nat) (now : Z) (habit : Habit)
    (logs : list HabitLog) (weekStartDate : option Z) : option WeeklyProgress :=
  let weekStartDate := default (getWeekStart now) weekStartDate in
  let weekEnd := getWeekEnd weekStartDate in
  weekDays ← getDaysInRange fuel weekStartDate weekEnd;
  let logMap := logMapOf logs in
  let '(completed, target) := fold_left (weekStep habit logMap) weekDays (0, 0) in
  let target :=
    match habit_frequency habit with
    | WeeklyTarget timesPerWeek => timesPerWeek
    | _ => target
    end in
  Some {| completed := completed; target := target |}.

End HostWeeks.

(** The instant 2024-01-10T09:00:00Z, a Wednesday. *)
Definition wednesdayMorning : Z := 19732 * MS_PER_DAY + 9 * MS_PER_HOUR.

Close Scope Z_scope.

(** * Properties *)

(** ** Array helpers *)

Lemma slice_tail_short {A} (l : list A) (k : nat) :
  length l ≤ k → slice l (- Z.of_nat k) None = l.
Proof.
  intros Hle. unfold slice, slice_index.
  destruct (Z.ltb_spec (- Z.of_nat k) 0) as [Hneg|Hpos].
  - replace (Z.to_nat (Z.max (Z.of_nat (length l) + - Z.of_nat k) 0)) with 0 by lia.
    rewrite drop_0, Nat.sub_0_r. apply firstn_all.
  - replace (Z.to_nat (Z.min (- Z.of_nat k) (Z.of_nat (length l)))) with 0 by lia.
    rewrite drop_0, Nat.sub_0_r. apply firstn_all.
Qed.

Lemma slice_tail_long {A} (l : list A) (k : nat) :
  0 < k → k ≤ length l → slice l (- Z.of_nat k) None = drop (length l - k) l.
Proof.
  intros Hk Hle. unfold slice, slice_index.
  destruct (Z.ltb_spec (- Z.of_nat k) 0) as [Hneg|Hpos]; [|lia].
  replace (Z.to_nat (Z.max (Z.of_nat (length l) + - Z.of_nat k) 0))
    with (length l - k) by lia.
  apply take_ge. rewrite length_drop. lia.
Qed.

Lemma slice_drop_last {A} (l : list A) (x : A) :
  slice (l ++ [x]) 0 (Some (-1)%Z) = l.
Proof.
  unfold slice, slice_index. rewrite length_app. simpl.
  replace (Z.to_nat (Z.min 0 (Z.of_nat (length l + 1)))) with 0 by lia.
  replace (Z.to_nat (Z.max (Z.of_nat (length l + 1) + -1) 0)) with (length l) by lia.
  rewrite drop_0, Nat.sub_0_r. by rewrite take_app_length.
Qed.

Lemma includes_true xs x : includes xs x = true ↔ x ∈ xs.
Proof. unfold includes. apply bool_decide_eq_true. Qed.

Lemma includes_false xs x : includes xs x = false ↔ x ∉ xs.
Proof. unfold includes. apply bool_decide_eq_false. Qed.

(** ** The undo stack *)

(** C9. PUSH_UNDO_SNAPSHOT keeps the undo stack within [MAX_UNDO_STACK] = 15
    entries, puts the new snapshot on top, and evicts the oldest entry when
    the stack was full. *)
Theorem push_undo_snapshot_bounded (now : string) (s : PlannerState) :
  length (undoStack s) ≤ 15 →
  let snapshot :=
    {| snap_timestamp := now;
       snap_completedTaskIds := completedTaskIds (completionState s);
       snap_completionHistory := completionHistory (completionState s) |} in
  let s' := plannerReducer now s PUSH_UNDO_SNAPSHOT in
  length (undoStack s') ≤ 15 ∧
  last (undoStack s') = Some snapshot ∧
  (length (undoStack s) < 15 → undoStack s' = undoStack s ++ [snapshot]) ∧
  (length (undoStack s) = 15 → undoStack s' = drop 1 (undoStack s) ++ [snapshot]).
Proof.
  intros Hlen snapshot s'. subst s'. cbn [plannerReducer withUndoStack undoStack].
  fold snapshot.
  change (- Z.of_nat LIMITS.MAX_UNDO_STACK + 1)%Z with (- Z.of_nat 14)%Z.
  destruct (decide (length (undoStack s) ≤ 14)) as [Hshort|Hfull].
  - rewrite slice_tail_short by done.
    rewrite length_app, last_snoc. simpl.
    split; [lia|]. split; [done|]. split; [done|intros; lia].
  - assert (length (undoStack s) = 15) as Heq by lia.
    rewrite slice_tail_long by lia. rewrite Heq. simpl.
    rewrite length_app, last_snoc, length_drop. simpl.
    split; [lia|]. split; [done|]. split; [intros; lia|done].
Qed.

Lemma push_undo_snapshot_bounded_witness :
  length (undoStack (plannerReducer "t1" initialState PUSH_UNDO_SNAPSHOT)) ≤ 15.
Proof.
  apply (push_undo_snapshot_bounded "t1" initialState). simpl. lia.
Defined.

(** C6. UNDO on a non-empty stack installs the most recent snapshot as the
    completion state and pops it, leaving the courses (hence every task's
    status), the personal tasks and the lecture notes as they were; on an
    empty stack it returns the state itself. *)
Theorem undo_restores_completion_only (now : string) (s : PlannerState) :
  (undoStack s = [] → undo now s = s) ∧
  (∀ rest snap, undoStack s = rest ++ [snap] →
     let s' := undo now s in
     completionState s' =
       {| completedTaskIds := snap_completedTaskIds snap;
          completionHistory := snap_completionHistory snap |} ∧
     undoStack s' = rest ∧
     courses s' = courses s ∧
     allTasks (courses s') = allTasks (courses s) ∧
     personalTasks s' = personalTasks s ∧
     lectureNotesMeta s' = lectureNotesMeta s).
Proof.
  split.
  - intros Hempty. unfold undo. cbn [plannerReducer]. by rewrite Hempty.
  - intros rest snap Hstack s'. subst s'. unfold undo. cbn [plannerReducer].
    rewrite Hstack.
    destruct (decide (length (rest ++ [snap]) = 0)) as [Hlen|_].
    { rewrite length_app in Hlen. simpl in Hlen. lia. }
    replace (length (rest ++ [snap]) - 1) with (length rest)
      by (rewrite length_app; simpl; lia).
    rewrite list_lookup_middle by done.
    rewrite slice_drop_last. done.
Qed.

Lemma undo_restores_completion_only_witness :
  let s := plannerReducer "t2"
             (plannerReducer "t1" initialState PUSH_UNDO_SNAPSHOT)
             (TOGGLE_TASK_COMPLETION "a") in
  completedTaskIds (completionState s) = ["a"] ∧
  completedTaskIds (completionState (undo "t3" s)) = [] ∧
  undoStack (undo "t3" s) = [] ∧
  undo "t3" initialState = initialState.
Proof.
  intros s.
  pose proof (undo_restores_completion_only "t3" s) as [_ Hpop].
  pose proof (undo_restores_completion_only "t3" initialState) as [Hnil _].
  specialize (Hpop [] {| snap_timestamp := "t1"; snap_completedTaskIds := [];
                         snap_completionHistory := ∅ |} eq_refl).
  cbv zeta in Hpop. destruct Hpop as (Hc & Hs & _).
  split; [reflexivity|]. split; [rewrite Hc; reflexivity|]. split; [exact Hs|].
  apply Hnil. reflexivity.
Defined.

(** ** Capacity of the course list *)

(** C8. At capacity ([MAX_COURSES] = 20 courses or more) [addCourse] leaves
    the course list as it is and reports the error message; below capacity it
    appends exactly one course, built from the title and code given, with one
    default unit. The function is total: no input makes it fail. *)
Theorem addCourse_capacity (courseId unitId createdAt updatedAt title : string)
    (code : option string) (s : PlannerState) :
  let s' := addCourse courseId unitId createdAt updatedAt title code s in
  (LIMITS.MAX_COURSES ≤ length (courses s) →
     courses s' = courses s ∧
     length (courses s') = length (courses s) ∧
     error s' = Some "Maksimum 20 ders ekleyebilirsiniz.") ∧
  (length (courses s) < LIMITS.MAX_COURSES →
     ∃ c, courses s' = courses s ++ [c] ∧
          length (courses s') = S (length (courses s)) ∧
          course_id c = courseId ∧ course_title c = title ∧ course_code c = code ∧
          length (course_units c) = 1 ∧ allTasks [c] = [] ∧
          error s' = error s).
Proof.
  intros s'. subst s'. unfold addCourse. split.
  - intros Hfull. rewrite decide_True by done. done.
  - intros Hroom. rewrite decide_False by lia.
    eexists. cbn [plannerReducer withCourses courses error].
    split; [reflexivity|]. rewrite length_app. simpl.
    repeat split; lia.
Qed.

Lemma addCourse_capacity_witness :
  let full := withCourses initialState
                (replicate 20 (mkCourse "c" None "Math101" None None [] [] "t0" "t0")) in
  length (courses (addCourse "c21" "u1" "t1" "t1" "Physics" None full)) = 20 ∧
  error (addCourse "c21" "u1" "t1" "t1" "Physics" None full)
    = Some "Maksimum 20 ders ekleyebilirsiniz." ∧
  length (courses (addCourse "c1" "u1" "t1" "t1" "Math101" None initialState)) = 1.
Proof.
  intros full.
  pose proof (addCourse_capacity "c21" "u1" "t1" "t1" "Physics" None full) as [Hfull _].
  pose proof (addCourse_capacity "c1" "u1" "t1" "t1" "Math101" None initialState)
    as [_ Hroom].
  simpl in Hfull, Hroom.
  destruct Hfull as (_ & Hlen & Herr); [unfold LIMITS.MAX_COURSES; simpl; lia|].
  destruct Hroom as (c & _ & Hlen1 & _); [unfold LIMITS.MAX_COURSES; lia|].
  split; [exact Hlen|]. split; [exact Herr|]. exact Hlen1.
Defined.

(** ** Where the status rewrite lands *)

Lemma unitHolding_Some taskId c u :
  unitHolding taskId c = Some u →
  u ∈ course_units c ∧ ∃ t, t ∈ unit_tasks u ∧ task_id t = taskId.
Proof.
  unfold unitHolding. intros Hfind. apply find_some in Hfind as [Hin Hex].
  split; [by apply list_elem_of_In|].
  apply existsb_exists in Hex as (t & Ht & Hid).
  exists t. split; [by apply list_elem_of_In|]. by apply bool_decide_eq_true in Hid.
Qed.

Lemma unitHolding_None taskId c :
  unitHolding taskId c = None →
  ∀ u t, u ∈ course_units c → t ∈ unit_tasks u → task_id t ≠ taskId.
Proof.
  unfold unitHolding. intros Hfind u t Hu Ht Hid.
  apply list_elem_of_In in Hu. pose proof (find_none _ _ Hfind u Hu) as Hnone.
  simpl in Hnone. apply not_true_iff_false in Hnone. apply Hnone.
  apply existsb_exists. exists t. split; [by apply list_elem_of_In|].
  by apply bool_decide_eq_true.
Qed.

(** The loop of TOGGLE_TASK_COMPLETION either finds no holder at all, or ends
    on the rewrite addressed to one of the holders. *)
Lemma toggle_fold_cases now cs taskId st (l acc : list Course) :
  let step := λ (newCourses : list Course) (course : Course),
    match unitHolding taskId course with
    | Some unit => setStatusAt now cs (course_id course) (unit_id unit) taskId st
    | None => newCourses
    end in
  (fold_left step l acc = acc ∧ ∀ c, c ∈ l → unitHolding taskId c = None) ∨
  (∃ c u, c ∈ l ∧ unitHolding taskId c = Some u ∧
          fold_left step l acc = setStatusAt now cs (course_id c) (unit_id u) taskId st).
Proof.
  intros step. revert acc.
  induction l as [|c l IH]; intros acc; simpl.
  - left. split; [done|]. intros c Hc. by apply elem_of_nil in Hc.
  - destruct (IH (step acc c)) as [[Heq Hnone]|(c' & u' & Hc' & Hu' & Heq)].
    + destruct (unitHolding taskId c) as [u|] eqn:Hu.
      * right. exists c, u. split; [left|]. split; [done|].
        rewrite Heq. unfold step. by rewrite Hu.
      * left. split.
        -- rewrite Heq. unfold step. by rewrite Hu.
        -- intros c' Hc'. apply elem_of_cons in Hc' as [->|Hc']; [done|by apply Hnone].
    + right. exists c', u'. split; [by right|]. done.
Qed.

Lemma toggleCourses_cases now cs taskId st :
  (toggleCourses now cs taskId st = cs ∧ ∀ c, c ∈ cs → unitHolding taskId c = None) ∨
  (∃ c u, c ∈ cs ∧ unitHolding taskId c = Some u ∧
          toggleCourses now cs taskId st
            = setStatusAt now cs (course_id c) (unit_id u) taskId st).
Proof. apply (toggle_fold_cases now cs taskId st cs cs). Qed.

Lemma setStatusAt_tasks now cs courseId unitId taskId st c' u' t' :
  c' ∈ setStatusAt now cs courseId unitId taskId st →
  u' ∈ course_units c' → t' ∈ unit_tasks u' →
  ∃ c u t, c ∈ cs ∧ u ∈ course_units c ∧ t ∈ unit_tasks u ∧
    ((course_id c = courseId ∧ unit_id u = unitId ∧ task_id t = taskId ∧
      t' = withStatus t st now) ∨
     (¬ (course_id c = courseId ∧ unit_id u = unitId ∧ task_id t = taskId) ∧ t' = t)).
Proof.
  unfold setStatusAt, mapCourse, mapUnit, mapTask. intros Hc' Hu' Ht'.
  apply list_elem_of_fmap in Hc' as (c & -> & Hc).
  destruct (decide (course_id c = courseId)) as [Hcid|Hcid].
  - simpl in Hu'. apply list_elem_of_fmap in Hu' as (u & -> & Hu).
    destruct (decide (unit_id u = unitId)) as [Huid|Huid].
    + simpl in Ht'. apply list_elem_of_fmap in Ht' as (t & -> & Ht).
      exists c, u, t. repeat (split; [done|]).
      destruct (decide (task_id t = taskId)) as [Htid|Htid]; [by left|right].
      by split; [intros (_ & _ & ?)|].
    + exists c, u, t'. repeat (split; [done|]). right.
      by split; [intros (_ & ? & _)|].
  - exists c, u', t'. repeat (split; [done|]). right.
    by split; [intros (? & _)|].
Qed.

Section SyncPreservation.
Variables (cs : list Course) (ids ids' : list string) (taskId : string).

Hypothesis sync_before :
  ∀ c u t, c ∈ cs → u ∈ course_units c → t ∈ unit_tasks u →
    (task_id t ∈ ids ↔ task_status t = Done).
Hypothesis others_kept : ∀ id, id ≠ taskId → (id ∈ ids' ↔ id ∈ ids).

Lemma sync_setStatusAt now courseId unitId st :
  tasksLocated cs taskId courseId unitId →
  (taskId ∈ ids' ↔ st = Done) →
  ∀ c u t, c ∈ setStatusAt now cs courseId unitId taskId st →
    u ∈ course_units c → t ∈ unit_tasks u →
    (task_id t ∈ ids' ↔ task_status t = Done).
Proof.
  intros Hloc Hnew c' u' t' Hc' Hu' Ht'.
  destruct (setStatusAt_tasks _ _ _ _ _ _ _ _ _ Hc' Hu' Ht')
    as (c & u & t & Hc & Hu & Ht & [(_ & _ & Htid & ->)|(Hnot & ->)]).
  - simpl. by rewrite Htid.
  - assert (task_id t ≠ taskId) as Hne.
    { intros Htid. apply Hnot. destruct (Hloc c u t Hc Hu Ht Htid). done. }
    rewrite others_kept by done. by apply (sync_before c u).
Qed.

Lemma sync_no_holder :
  (∀ c u t, c ∈ cs → u ∈ course_units c → t ∈ unit_tasks u → task_id t ≠ taskId) →
  ∀ c u t, c ∈ cs → u ∈ course_units c → t ∈ unit_tasks u →
    (task_id t ∈ ids' ↔ task_status t = Done).
Proof.
  intros Habsent c u t Hc Hu Ht.
  rewrite others_kept by by apply (Habsent c u). by apply (sync_before c u).
Qed.
End SyncPreservation.

Lemma elem_of_without (ids : list string) (taskId id : string) :
  id ∈ filter (λ i, i ≠ taskId) ids ↔ id ≠ taskId ∧ id ∈ ids.
Proof. by rewrite list_elem_of_filter. Qed.

Lemma elem_of_with (ids : list string) (taskId id : string) :
  id ∈ ids ++ [taskId] ↔ id ∈ ids ∨ id = taskId.
Proof. rewrite elem_of_app, list_elem_of_singleton. done. Qed.

Lemma sync_toggle_reducer now s taskId :
  syncInvariant s →
  (∃ courseId unitId, tasksLocated (courses s) taskId courseId unitId) →
  syncInvariant (plannerReducer now s (TOGGLE_TASK_COMPLETION taskId)).
Proof.
  intros Hsync (courseId & unitId & Hloc).
  unfold syncInvariant. cbn [plannerReducer withCompletionState withCourses
    courses completionState completedTaskIds].
  set (ids := completedTaskIds (completionState s)).
  set (isCompleted := includes ids taskId).
  set (ids' := if isCompleted then filter (λ id, id ≠ taskId) ids else ids ++ [taskId]).
  set (st := if isCompleted then Todo else Done).
  assert (∀ id, id ≠ taskId → (id ∈ ids' ↔ id ∈ ids)) as Hkept.
  { intros id Hne. subst ids'. destruct isCompleted.
    - rewrite elem_of_without. intuition congruence.
    - rewrite elem_of_with. intuition congruence. }
  assert (taskId ∈ ids' ↔ st = Done) as Hnew.
  { subst ids' st. destruct isCompleted.
    - rewrite elem_of_without. intuition congruence.
    - rewrite elem_of_with. intuition congruence. }
  destruct (toggleCourses_cases now (courses s) taskId st)
    as [[-> Hnone]|(c0 & u0 & Hc0 & Hu0 & ->)].
  - apply (sync_no_holder (courses s) ids ids' taskId Hsync Hkept).
    intros c u t Hc Hu Ht. by apply (unitHolding_None taskId c (Hnone c Hc) u t).
  - apply unitHolding_Some in Hu0 as (Hu0 & t0 & Ht0 & Hid0).
    destruct (Hloc c0 u0 t0 Hc0 Hu0 Ht0 Hid0) as [-> ->].
    by apply (sync_setStatusAt (courses s) ids ids' taskId Hsync Hkept).
Qed.

Lemma sync_updateStatus_reducer now s taskId status courseId unitId :
  syncInvariant s →
  tasksLocated (courses s) taskId courseId unitId →
  syncInvariant (plannerReducer now s (UPDATE_TASK_STATUS taskId status courseId unitId)).
Proof.
  intros Hsync Hloc.
  unfold syncInvariant. cbn [plannerReducer].
  set (ids := completedTaskIds (completionState s)).
  destruct (decide (status = Done)) as [->|Hst];
    destruct (includes ids taskId) eqn:Hin; cbn [negb];
    cbn [withCompletionState withCourses courses completionState completedTaskIds].
  - apply includes_true in Hin.
    apply (sync_setStatusAt (courses s) ids ids taskId Hsync); intuition congruence.
  - apply includes_false in Hin.
    apply (sync_setStatusAt (courses s) ids (ids ++ [taskId]) taskId Hsync); try done.
    + intros id Hne. rewrite elem_of_with. intuition congruence.
    + rewrite elem_of_with. intuition congruence.
  - apply (sync_setStatusAt (courses s) ids (filter (λ id, id ≠ taskId) ids) taskId Hsync);
      try done.
    + intros id Hne. rewrite elem_of_without. intuition congruence.
    + rewrite elem_of_without. intuition congruence.
  - apply includes_false in Hin.
    apply (sync_setStatusAt (courses s) ids ids taskId Hsync); intuition congruence.
Qed.

Lemma push_undo_snapshot_frame now s :
  let s' := plannerReducer now s PUSH_UNDO_SNAPSHOT in
  courses s' = courses s ∧ completionState s' = completionState s.
Proof. done. Qed.

Lemma syncInvariant_ext s s' :
  courses s' = courses s → completionState s' = completionState s →
  syncInvariant s → syncInvariant s'.
Proof. unfold syncInvariant. intros -> ->. done. Qed.

(** ** Boolean forms of the invariants *)

Lemma elem_of_allTasks cs t :
  t ∈ allTasks cs ↔ ∃ c u, c ∈ cs ∧ u ∈ course_units c ∧ t ∈ unit_tasks u.
Proof.
  unfold allTasks. rewrite list_elem_of_bind. split.
  - intros (c & Ht & Hc). apply list_elem_of_bind in Ht as (u & Ht & Hu). eauto.
  - intros (c & u & Hc & Hu & Ht). exists c. split; [|done].
    apply list_elem_of_bind. eauto.
Qed.

Lemma elem_of_taskIds cs id :
  id ∈ taskIds cs ↔
  ∃ c u t, c ∈ cs ∧ u ∈ course_units c ∧ t ∈ unit_tasks u ∧ task_id t = id.
Proof.
  unfold taskIds. rewrite list_elem_of_fmap. split.
  - intros (t & -> & Ht). apply elem_of_allTasks in Ht as (c & u & ?). exists c, u, t.
    intuition.
  - intros (c & u & t & Hc & Hu & Ht & <-). exists t. split; [done|].
    apply elem_of_allTasks. eauto.
Qed.

Lemma syncInvariantb_spec s : syncInvariantb s = true ↔ syncInvariant s.
Proof.
  unfold syncInvariantb, syncInvariant. rewrite forallb_forall. split.
  - intros Hall c u t Hc Hu Ht.
    assert (t ∈ allTasks (courses s)) as Hin by (apply elem_of_allTasks; eauto).
    apply list_elem_of_In, Hall, bool_decide_eq_true in Hin.
    rewrite <- includes_true, Hin. apply bool_decide_eq_true.
  - intros Hsync t Hin. apply list_elem_of_In, elem_of_allTasks in Hin as (c & u & Hc & Hu & Ht).
    apply bool_decide_eq_true. specialize (Hsync c u t Hc Hu Ht).
    unfold includes. by apply bool_decide_ext.
Qed.

Lemma refInvariantb_spec cs completion :
  refInvariantb cs completion = true ↔ refInvariant cs completion.
Proof.
  unfold refInvariantb, refInvariant. rewrite forallb_forall. split.
  - intros Hall id Hid. by apply list_elem_of_In, Hall, includes_true in Hid.
  - intros Href id Hid. apply includes_true, Href. by apply list_elem_of_In.
Qed.

Lemma tasksLocatedb_spec cs taskId courseId unitId :
  tasksLocatedb cs taskId courseId unitId = true ↔ tasksLocated cs taskId courseId unitId.
Proof.
  unfold tasksLocatedb, tasksLocated. rewrite forallb_forall. split.
  - intros Hall c u t Hc Hu Ht Hid.
    apply list_elem_of_In, Hall in Hc. rewrite forallb_forall in Hc.
    apply list_elem_of_In, Hc in Hu. rewrite forallb_forall in Hu.
    apply list_elem_of_In, Hu in Ht.
    rewrite (bool_decide_eq_true_2 _ Hid) in Ht. simpl in Ht.
    by apply bool_decide_eq_true in Ht.
  - intros Hloc c Hc. apply forallb_forall. intros u Hu. apply forallb_forall.
    intros t Ht. apply list_elem_of_In in Hc, Hu, Ht.
    destruct (decide (task_id t = taskId)) as [Hid|Hid].
    + rewrite (bool_decide_eq_true_2 _ Hid). simpl. apply bool_decide_eq_true.
      by apply (Hloc c u t).
    + by rewrite (bool_decide_eq_false_2 _ Hid).
Qed.

(** ** Unique task ids place every id at one address *)

Lemma NoDup_bind_part {A B C} (g : B → C) (f : A → list B) (l : list A) (x : A) :
  NoDup (g <$> (l ≫= f)) → x ∈ l → NoDup (g <$> f x).
Proof.
  induction l as [|z l IH]; intros Hnd Hx; [by apply elem_of_nil in Hx|].
  simpl in Hnd. rewrite fmap_app in Hnd. apply NoDup_app in Hnd as (Hz & _ & Hl).
  apply elem_of_cons in Hx as [->|Hx]; [done|by apply IH].
Qed.

Lemma NoDup_bind_same {A B C} (g : B → C) (f : A → list B) (l : list A)
    (x y : A) (a b : B) :
  NoDup (g <$> (l ≫= f)) → x ∈ l → y ∈ l → a ∈ f x → b ∈ f y → g a = g b → x = y.
Proof.
  induction l as [|z l IH]; intros Hnd Hx Hy Ha Hb Hg; [by apply elem_of_nil in Hx|].
  simpl in Hnd. rewrite fmap_app in Hnd. apply NoDup_app in Hnd as (Hz & Hdisj & Hl).
  assert (∀ x' a', x' ∈ l → a' ∈ f x' → g a' ∈ g <$> (l ≫= f)) as Hrest.
  { intros x' a' Hx' Ha'. apply list_elem_of_fmap_2, list_elem_of_bind. eauto. }
  apply elem_of_cons in Hx as [->|Hx]; apply elem_of_cons in Hy as [->|Hy].
  - done.
  - exfalso. apply (Hdisj (g a)); [by apply list_elem_of_fmap_2|].
    rewrite Hg. by apply (Hrest y).
  - exfalso. apply (Hdisj (g b)); [by apply list_elem_of_fmap_2|].
    rewrite <- Hg. by apply (Hrest x).
  - by apply IH.
Qed.

Lemma unique_ids_located cs taskId :
  NoDup (taskIds cs) → ∃ courseId unitId, tasksLocated cs taskId courseId unitId.
Proof.
  intros Hnd. unfold taskIds, allTasks in Hnd.
  destruct (decide (taskId ∈ taskIds cs)) as [Hin|Hout].
  - apply elem_of_taskIds in Hin as (c0 & u0 & t0 & Hc0 & Hu0 & Ht0 & Hid0).
    exists (course_id c0), (unit_id u0). intros c u t Hc Hu Ht Hid.
    assert (c = c0) as ->.
    { apply (NoDup_bind_same task_id (λ c, course_units c ≫= unit_tasks) cs c c0 t t0);
        try done; [| |congruence]; apply list_elem_of_bind; eauto. }
    split; [done|].
    assert (u = u0) as ->; [|done].
    apply (NoDup_bind_same task_id unit_tasks (course_units c0) u u0 t t0);
      try done; [|congruence].
    by apply (NoDup_bind_part task_id (λ c, course_units c ≫= unit_tasks) cs c0).
  - exists "", "". intros c u t Hc Hu Ht Hid. exfalso. apply Hout.
    apply elem_of_taskIds. eauto 10.
Qed.

(** ** The completion set and the status fields *)

(** C1, as the code has it. [toggleTaskCompletion] and [updateTaskStatus]
    keep [task.id ∈ completedTaskIds ⟺ task.status = 'done'] for every stored
    task when the rewrite of the status reaches every task that carries
    [taskId]: for the toggle, when those tasks sit in units of one id inside
    courses of one id, which is so in particular when task ids are unique in
    the store; for the status update, when that address is the [courseId],
    [unitId] passed by the caller. *)
Theorem sync_preserved (s : PlannerState) :
  syncInvariant s →
  (∀ now1 now2 taskId,
     (∃ courseId unitId, tasksLocated (courses s) taskId courseId unitId) →
     syncInvariant (toggleTaskCompletion now1 now2 taskId s)) ∧
  (∀ now1 now2 taskId,
     NoDup (taskIds (courses s)) →
     syncInvariant (toggleTaskCompletion now1 now2 taskId s)) ∧
  (∀ now1 now2 taskId status courseId unitId,
     tasksLocated (courses s) taskId courseId unitId →
     syncInvariant (updateTaskStatus now1 now2 taskId status courseId unitId s)).
Proof.
  intros Hsync.
  assert (∀ now, syncInvariant (plannerReducer now s PUSH_UNDO_SNAPSHOT)) as Hpush.
  { intros now. by apply (syncInvariant_ext s). }
  split; [|split].
  - intros now1 now2 taskId Hloc. unfold toggleTaskCompletion.
    by apply sync_toggle_reducer.
  - intros now1 now2 taskId Hnd. unfold toggleTaskCompletion.
    apply sync_toggle_reducer; [done|]. by apply unique_ids_located.
  - intros now1 now2 taskId status courseId unitId Hloc. unfold updateTaskStatus.
    by apply sync_updateStatus_reducer.
Qed.

Lemma sync_preserved_witness :
  syncInvariant (toggleTaskCompletion "t1" "t2" "x" oneTaskState) ∧
  syncInvariant (updateTaskStatus "t1" "t2" "x" Review "A" "U1" oneTaskState).
Proof.
  assert (syncInvariant oneTaskState) as Hsync
    by (apply syncInvariantb_spec; vm_compute; reflexivity).
  destruct (sync_preserved oneTaskState Hsync) as (_ & Htoggle & Hupdate).
  split.
  - apply Htoggle. vm_compute. apply NoDup_cons. split; [apply not_elem_of_nil|apply NoDup_nil_2].
  - apply Hupdate. apply tasksLocatedb_spec. vm_compute. reflexivity.
Defined.

(** C1 as stated fails on either operation. With two tasks sharing an id the
    toggle rewrites only the last holder found; and a status update addressed
    to another course and unit changes the completion set while the task keeps
    its status. *)
Lemma sync_counterexample :
  (syncInvariant sharedIdState ∧
   ¬ syncInvariant (toggleTaskCompletion "t1" "t2" "x" sharedIdState)) ∧
  (syncInvariant oneTaskState ∧
   ¬ syncInvariant (updateTaskStatus "t1" "t2" "x" Done "B" "U9" oneTaskState)).
Proof.
  split; split.
  - apply syncInvariantb_spec. vm_compute. reflexivity.
  - intros Hsync. apply syncInvariantb_spec in Hsync. vm_compute in Hsync. discriminate.
  - apply syncInvariantb_spec. vm_compute. reflexivity.
  - intros Hsync. apply syncInvariantb_spec in Hsync. vm_compute in Hsync. discriminate.
Qed.

(** ** Which ids the store holds *)

Lemma taskIds_courseHas cs id : id ∈ taskIds cs ↔ ∃ c, c ∈ cs ∧ courseHas c id.
Proof.
  rewrite elem_of_taskIds. unfold courseHas, unitHas. split.
  - intros (c & u & t & ?). exists c. intuition eauto.
  - intros (c & Hc & u & Hu & t & Ht & Hid). eauto 10.
Qed.

Lemma mapCourse_has courseId f cs id :
  (∀ c, courseHas c id → courseHas (f c) id) →
  id ∈ taskIds cs → id ∈ taskIds (mapCourse courseId f cs).
Proof.
  intros Hf. rewrite !taskIds_courseHas. intros (c & Hc & Hhas).
  exists (if decide (course_id c = courseId) then f c else c). split.
  - unfold mapCourse. apply list_elem_of_fmap. eauto.
  - destruct (decide (course_id c = courseId)); [by apply Hf|done].
Qed.

Lemma mapUnit_has unitId f us id :
  (∀ u, unitHas u id → unitHas (f u) id) →
  (∃ u, u ∈ us ∧ unitHas u id) → ∃ u, u ∈ mapUnit unitId f us ∧ unitHas u id.
Proof.
  intros Hf (u & Hu & Hhas).
  exists (if decide (unit_id u = unitId) then f u else u). split.
  - unfold mapUnit. apply list_elem_of_fmap. eauto.
  - destruct (decide (unit_id u = unitId)); [by apply Hf|done].
Qed.

Lemma mapTask_has taskId f ts id :
  (∀ t, task_id (f t) = task_id t) →
  (∃ t, t ∈ ts ∧ task_id t = id) → ∃ t, t ∈ mapTask taskId f ts ∧ task_id t = id.
Proof.
  intros Hf (t & Ht & Hid).
  exists (if decide (task_id t = taskId) then f t else t). split.
  - unfold mapTask. apply list_elem_of_fmap. eauto.
  - destruct (decide (task_id t = taskId)); [by rewrite Hf|done].
Qed.

Lemma setStatusAt_has now cs courseId unitId taskId st id :
  id ∈ taskIds cs → id ∈ taskIds (setStatusAt now cs courseId unitId taskId st).
Proof.
  unfold setStatusAt. apply mapCourse_has. intros c. unfold courseHas. simpl.
  apply mapUnit_has. intros u. unfold unitHas. simpl.
  by apply mapTask_has.
Qed.

Lemma toggleCourses_has now cs taskId st id :
  id ∈ taskIds cs → id ∈ taskIds (toggleCourses now cs taskId st).
Proof.
  destruct (toggleCourses_cases now cs taskId st) as [[-> _]|(c & u & _ & _ & ->)];
    [done|apply setStatusAt_has].
Qed.

(** Deleting a task removes the tasks that carry its id, and only those. *)
Lemma delete_task_keeps now s courseId unitId taskId t :
  t ∈ allTasks (courses s) → task_id t ≠ taskId →
  t ∈ allTasks (courses (plannerReducer now s (DELETE_TASK courseId unitId taskId))).
Proof.
  intros Ht Hne. cbn [plannerReducer withCompletionState withCourses courses].
  apply elem_of_allTasks in Ht as (c & u & Hc & Hu & Ht). apply elem_of_allTasks.
  set (fu := λ u : Unit, withTasks u (filter (λ t, task_id t ≠ taskId) (unit_tasks u))).
  set (fc := λ c : Course,
         touchCourse (withUnits c (mapUnit unitId fu (course_units c))) now).
  exists (if decide (course_id c = courseId) then fc c else c),
         (if decide (course_id c = courseId)
          then (if decide (unit_id u = unitId) then fu u else u) else u).
  split; [unfold mapCourse; apply list_elem_of_fmap; eauto|].
  destruct (decide (course_id c = courseId)); [|done]. simpl. split.
  - unfold mapUnit. apply list_elem_of_fmap. eauto.
  - destruct (decide (unit_id u = unitId)); [|done]. simpl.
    by apply list_elem_of_filter.
Qed.

Lemma ref_preserved_reducer now s a :
  refInvariant (courses s) (completionState s) → keepsRefs s a →
  refInvariant (courses (plannerReducer now s a))
               (completionState (plannerReducer now s a)).
Proof.
  intros Href Hkeeps. unfold refInvariant in *.
  destruct a; cbn [keepsRefs] in Hkeeps;
    cbn [plannerReducer withCourses withCompletionState withUndoStack
         withPersonalTasks withLectureNotesMeta courses completionState
         completedTaskIds];
    try done; try (intros i Hi; apply Href in Hi).
  - (* ADD_COURSE *)
    apply taskIds_courseHas in Hi as (c & Hc & Hhas). apply taskIds_courseHas.
    exists c. split; [|done]. apply elem_of_app. by left.
  - (* UPDATE_COURSE *)
    revert Hi. apply mapCourse_has. intros c. unfold courseHas. simpl.
    by rewrite Hkeeps.
  - (* ADD_UNIT *)
    revert Hi. apply mapCourse_has. intros c (u & Hu & Hhas). exists u. simpl.
    split; [|done]. apply elem_of_app. by left.
  - (* UPDATE_UNIT *)
    revert Hi. apply mapCourse_has. intros c. unfold courseHas. simpl.
    apply mapUnit_has. intros u. unfold unitHas. simpl. by rewrite Hkeeps.
  - (* REORDER_UNITS *)
    apply taskIds_courseHas in Hi as (c & Hc & Hhas). apply taskIds_courseHas.
    exists (if decide (course_id c = courseId)
            then touchCourse (withUnits c units) now else c). split.
    + unfold mapCourse. apply list_elem_of_fmap. eauto.
    + destruct (decide (course_id c = courseId)) as [Hcid|]; [|done].
      destruct Hhas as (u & Hu & Hhas). exists u. simpl. split; [|done].
      by rewrite (Hkeeps c Hc Hcid).
  - (* ADD_TASK *)
    revert Hi. apply mapCourse_has. intros c. unfold courseHas. simpl.
    apply mapUnit_has. intros u (t & Ht & Htid). exists t. simpl.
    split; [|done]. apply elem_of_app. by left.
  - (* UPDATE_TASK *)
    revert Hi. apply mapCourse_has. intros c. unfold courseHas. simpl.
    apply mapUnit_has. intros u. unfold unitHas. simpl.
    apply mapTask_has. intros t. simpl. by rewrite Hkeeps.
  - (* DELETE_TASK *)
    intros i Hi. apply elem_of_without in Hi as [Hne Hi]. apply Href in Hi.
    unfold taskIds in *. apply list_elem_of_fmap in Hi as (t & -> & Ht).
    apply list_elem_of_fmap_2.
    by apply (delete_task_keeps now s courseId unitId taskId).
  - (* TOGGLE_TASK_COMPLETION *)
    intros i Hi. apply toggleCourses_has.
    destruct (includes (completedTaskIds (completionState s)) payload) eqn:Hin.
    + apply elem_of_without in Hi as [_ Hi]. by apply Href.
    + apply includes_false in Hin. apply elem_of_with in Hi as [Hi| ->].
      * by apply Href.
      * by destruct Hkeeps.
  - (* UPDATE_TASK_STATUS *)
    destruct (decide (status = Done)) as [Hst|Hst];
      destruct (includes (completedTaskIds (completionState s)) taskId) eqn:Hin;
      cbn [negb completedTaskIds]; intros i Hi; apply setStatusAt_has.
    + by apply Href.
    + apply includes_false in Hin. apply elem_of_with in Hi as [Hi| ->].
      * by apply Href.
      * by destruct (Hkeeps Hst).
    + apply elem_of_without in Hi as [_ Hi]. by apply Href.
    + by apply Href.
  - (* ADD_EXAM *)
    revert Hi. by apply mapCourse_has.
  - (* UPDATE_EXAM *)
    revert Hi. by apply mapCourse_has.
  - (* DELETE_EXAM *)
    revert Hi. by apply mapCourse_has.
  - (* UNDO *)
    destruct (decide (length (undoStack s) = 0)); [done|].
    destruct (undoStack s !! (length (undoStack s) - 1)) as [snap|] eqn:Hsnap; [|done].
    simpl. apply Hkeeps. rewrite last_lookup.
    by replace (pred (length (undoStack s))) with (length (undoStack s) - 1) by lia.
Qed.

(** ** Completed ids name stored tasks *)

(** C2, as the code has it. The referential invariant (every completed id
    names a task of some unit) is kept by every reducer action that neither
    drops or re-keys tasks behind the completion set's back nor installs
    completed ids from outside ([keepsRefs]). DELETE_TASK is such an action
    without any side condition: it removes the id from [completedTaskIds] and
    from [completionHistory], and every task it removes has lost its id from
    [completedTaskIds]. *)
Theorem ref_invariant_kept (now : string) (s : PlannerState) :
  refInvariant (courses s) (completionState s) →
  (∀ a, keepsRefs s a →
     refInvariant (courses (plannerReducer now s a))
                  (completionState (plannerReducer now s a))) ∧
  (∀ courseId unitId taskId,
     let s' := plannerReducer now s (DELETE_TASK courseId unitId taskId) in
     refInvariant (courses s') (completionState s') ∧
     (taskId ∉ completedTaskIds (completionState s')) ∧
     completionHistory (completionState s') !! taskId = None ∧
     (∀ t, t ∈ allTasks (courses s) → t ∉ allTasks (courses s') →
           task_id t ∉ completedTaskIds (completionState s'))).
Proof.
  intros Href. split.
  - intros a Hkeeps. by apply ref_preserved_reducer.
  - intros courseId unitId taskId s'.
    assert (taskId ∉ completedTaskIds (completionState s')) as Hpurged.
    { subst s'. cbn [plannerReducer withCompletionState completionState completedTaskIds].
      rewrite elem_of_without. by intros [Hne _]. }
    split; [by apply (ref_preserved_reducer now s (DELETE_TASK courseId unitId taskId))|].
    split; [done|]. split.
    + subst s'. cbn [plannerReducer withCompletionState completionState completionHistory].
      apply lookup_delete_eq.
    + intros t Ht Hgone.
      destruct (decide (task_id t = taskId)) as [->|Hne]; [done|].
      exfalso. apply Hgone. by apply delete_task_keeps.
Qed.

Lemma ref_invariant_kept_witness :
  let s' := plannerReducer "t1" twoCoursesState (DELETE_TASK "B" "U2" "y") in
  refInvariant (courses s') (completionState s') ∧
  ("y" ∉ completedTaskIds (completionState s')) ∧
  completionHistory (completionState s') !! "y" = None.
Proof.
  assert (refInvariant (courses twoCoursesState) (completionState twoCoursesState))
    as Href by (apply refInvariantb_spec; vm_compute; reflexivity).
  destruct (ref_invariant_kept "t1" twoCoursesState Href) as [Hall Hdelete].
  destruct (Hdelete "B" "U2" "y") as (_ & Hids & Hhist & _).
  split; [|by split].
  apply (Hall (DELETE_TASK "B" "U2" "y")). exact I.
Defined.

(** C2 as stated fails. UNDO brings back the id of a task deleted since the
    snapshot was taken; DELETE_COURSE and DELETE_UNIT drop tasks and leave
    [completedTaskIds] as it is. *)
Lemma ref_invariant_counterexample :
  (refInvariant (courses afterToggleAndDelete) (completionState afterToggleAndDelete) ∧
   ¬ refInvariant (courses (undo "t4" afterToggleAndDelete))
                  (completionState (undo "t4" afterToggleAndDelete))) ∧
  (refInvariant (courses twoCoursesState) (completionState twoCoursesState) ∧
   (let s' := plannerReducer "t1" twoCoursesState (DELETE_COURSE "B") in
    ("y" ∉ taskIds (courses s')) ∧ "y" ∈ completedTaskIds (completionState s') ∧
    ¬ refInvariant (courses s') (completionState s')) ∧
   (let s' := plannerReducer "t1" twoCoursesState (DELETE_UNIT "B" "U2") in
    ("y" ∉ taskIds (courses s')) ∧ "y" ∈ completedTaskIds (completionState s') ∧
    ¬ refInvariant (courses s') (completionState s'))).
Proof.
  assert (∀ cs completion, refInvariantb cs completion = false →
            ¬ refInvariant cs completion) as Hno.
  { intros cs completion Hb Href. apply refInvariantb_spec in Href. congruence. }
  split; [split|split; [|split]].
  - apply refInvariantb_spec. vm_compute. reflexivity.
  - apply Hno. vm_compute. reflexivity.
  - apply refInvariantb_spec. vm_compute. reflexivity.
  - cbv zeta. split; [|split].
    + apply includes_false. vm_compute. reflexivity.
    + apply includes_true. vm_compute. reflexivity.
    + apply Hno. vm_compute. reflexivity.
  - cbv zeta. split; [|split].
    + apply includes_false. vm_compute. reflexivity.
    + apply includes_true. vm_compute. reflexivity.
    + apply Hno. vm_compute. reflexivity.
Qed.

(** * Habits *)

(** ** One log per habit and day *)

Section HabitLogs.
Import HabitsContext.

Lemma filter_day_excluded (logs : list HabitLog) (dateISO : Z) :
  filter (λ l, log_dateISO l = dateISO) (filter (λ l, log_dateISO l ≠ dateISO) logs) = [].
Proof.
  induction logs as [|l logs IH]; [done|].
  rewrite (filter_cons (λ l, log_dateISO l ≠ dateISO)).
  destruct (decide (log_dateISO l ≠ dateISO)) as [Hne|_]; [|done].
  rewrite filter_cons. by rewrite decide_False by done.
Qed.

Lemma log_habit_day now (s : HabitsState) (log : HabitLog) :
  filter (λ l, log_dateISO l = log_dateISO log)
    (getHabitLogs (habitsReducer now s (LOG_HABIT log)) (log_habitId log)) = [log].
Proof.
  unfold getHabitLogs. cbn [habitsReducer withHabitLogs habitLogs].
  rewrite lookup_insert_eq. cbn [default from_option id].
  rewrite filter_app, filter_day_excluded, filter_cons.
  by rewrite decide_True by done.
Qed.

(** C7. After LOG_HABIT the list kept for the habit holds exactly one log of
    that day, the one dispatched, the logs of other days and of other habits
    being kept; logging the same habit and day twice through [logHabit]
    leaves exactly one log of that day, carrying the values of the second
    call. *)
Theorem log_habit_last_write_wins (now : string) (s : HabitsState) (log : HabitLog) :
  let s' := habitsReducer now s (LOG_HABIT log) in
  filter (λ l, log_dateISO l = log_dateISO log) (getHabitLogs s' (log_habitId log))
    = [log] ∧
  filter (λ l, log_dateISO l ≠ log_dateISO log) (getHabitLogs s' (log_habitId log))
    = filter (λ l, log_dateISO l ≠ log_dateISO log) (getHabitLogs s (log_habitId log)) ∧
  (∀ other, other ≠ log_habitId log → getHabitLogs s' other = getHabitLogs s other) ∧
  (∀ now1 now2 habitId dateISO,
     let s2 := logHabit now2 true habitId dateISO (Some true) None
                 (logHabit now1 true habitId dateISO (Some true) None s) in
     filter (λ l, log_dateISO l = dateISO) (getHabitLogs s2 habitId)
       = [ {| log_habitId := habitId; log_dateISO := dateISO; log_done := Some true;
              log_value := None; log_timestamp := now2 |} ]).
Proof.
  intros s'. split; [apply log_habit_day|]. split; [|split].
  - subst s'. unfold getHabitLogs. cbn [habitsReducer withHabitLogs habitLogs].
    rewrite lookup_insert_eq. cbn [default from_option id].
    rewrite filter_app, filter_cons, decide_False by (by intros Hne).
    rewrite filter_nil, app_nil_r.
    set (logs := default [] (habitLogs s !! log_habitId log)).
    induction logs as [|l logs IH]; [done|].
    rewrite !filter_cons. destruct (decide (log_dateISO l ≠ log_dateISO log)).
    + rewrite filter_cons, decide_True by done. by rewrite IH.
    + done.
  - intros other Hne. subst s'. unfold getHabitLogs.
    cbn [habitsReducer withHabitLogs habitLogs]. by rewrite lookup_insert_ne.
  - intros now1 now2 habitId dateISO s2. subst s2. unfold logHabit.
    apply (log_habit_day now2 _
             {| log_habitId := habitId; log_dateISO := dateISO; log_done := Some true;
                log_value := None; log_timestamp := now2 |}).
Qed.

Lemma log_habit_last_write_wins_witness :
  let first := logHabit "t1" true "h" 19727 (Some true) None initialState in
  let second := logHabit "t2" true "h" 19727 (Some true) None first in
  getHabitLogs second "h"
    = [ {| log_habitId := "h"; log_dateISO := 19727; log_done := Some true;
           log_value := None; log_timestamp := "t2" |} ] ∧
  getHabitLogs second "g" = getHabitLogs first "g".
Proof.
  intros first second.
  pose proof (log_habit_last_write_wins "t2" first
                {| log_habitId := "h"; log_dateISO := 19727; log_done := Some true;
                   log_value := None; log_timestamp := "t2" |})
    as (_ & _ & Hother & _).
  split; [reflexivity|].
  apply (Hother "g"). discriminate.
Defined.
End HabitLogs.

(** * Derived statistics *)

Open Scope Z_scope.

(** ** The log kept for a day *)

Lemma logMapOf_fold (logs : list HabitLog) (m : gmap Z HabitLog) (d : Z) :
  fold_left (λ m log, <[log_dateISO log := log]> m) logs m !! d
  = match last (filter (λ l, log_dateISO l = d) logs) with
    | Some l => Some l
    | None => m !! d
    end.
Proof.
  revert m. induction logs as [|l logs IH]; intros m; [done|].
  simpl. rewrite IH, filter_cons.
  destruct (decide (log_dateISO l = d)) as [Hd|Hd].
  - rewrite last_cons. destruct (last _); [done|]. by rewrite Hd, lookup_insert_eq.
  - destruct (last _); [done|]. by rewrite lookup_insert_ne.
Qed.

Lemma logMapOf_lookup (logs : list HabitLog) (d : Z) :
  logMapOf logs !! d = last (filter (λ l, log_dateISO l = d) logs).
Proof.
  unfold logMapOf. rewrite logMapOf_fold. destruct (last _); [done|apply lookup_empty].
Qed.

Lemma logMapOf_Some (logs : list HabitLog) (d : Z) (l : HabitLog) :
  logMapOf logs !! d = Some l → l ∈ logs ∧ log_dateISO l = d.
Proof.
  rewrite logMapOf_lookup. intros Hlast. apply last_Some_elem_of in Hlast.
  apply list_elem_of_filter in Hlast. tauto.
Qed.

Lemma logMapOf_None (logs : list HabitLog) (d : Z) :
  (∀ l, l ∈ logs → log_dateISO l ≠ d) → logMapOf logs !! d = None.
Proof.
  intros Hnone. destruct (logMapOf logs !! d) as [l|] eqn:Hl; [|done].
  apply logMapOf_Some in Hl as [Hin Hd]. by destruct (Hnone l Hin).
Qed.

Lemma logMapOf_is_Some (logs : list HabitLog) (d : Z) (l : HabitLog) :
  l ∈ logs → log_dateISO l = d → is_Some (logMapOf logs !! d).
Proof.
  intros Hin Hd. rewrite logMapOf_lookup. apply last_is_Some.
  intros Hnil. assert (l ∈ filter (λ l, log_dateISO l = d) logs) as Hl
    by by apply list_elem_of_filter.
  rewrite Hnil in Hl. by apply elem_of_nil in Hl.
Qed.

(** ** The streak loop, turn by turn *)

Lemma fold_streakStep {zone : HostZone} habit logMap endDate (n k : nat) v :
  fold_left (streakStep habit logMap) (seqZ (Z.of_nat k) (Z.of_nat n))
    (v, checkDateAt endDate k)
  = (streakWalk (isWeeklyTarget habit)
       (λ i, isHabitDueOnDate habit (walkedDay endDate i))
       (λ i, isHabitCompleted habit (logMap !! walkedDay endDate i))
       (seqZ (Z.of_nat k) (Z.of_nat n)) v,
     checkDateAt endDate (k + n)).
Proof.
  induction n as [|n IH].
  - simpl. by rewrite Nat.add_0_r.
  - rewrite seqZ_S. unfold streakWalk in *. rewrite !fold_left_app, IH. simpl.
    unfold walkedDay. rewrite <- Nat2Z.inj_add, Nat2Z.id.
    by rewrite Nat.add_succ_r.
Qed.

Lemma calculateHabitStreak_walk {zone : HostZone} habit logs endDate :
  calculateHabitStreak habit logs endDate
  = let final :=
      streakWalk (isWeeklyTarget habit)
        (λ i, isHabitDueOnDate habit (walkedDay endDate i))
        (λ i, isHabitCompleted habit (logMapOf logs !! walkedDay endDate i))
        (seqZ 0 365) streakStart in
    {| current := currentStreak final;
       best := Z.max (bestStreak final) (tempStreak final) |}.
Proof.
  unfold calculateHabitStreak.
  pose proof (fold_streakStep habit (logMapOf logs) endDate 365 0 streakStart) as Hfold.
  change (Z.of_nat 0) with 0 in Hfold. change (Z.of_nat 365) with 365 in Hfold.
  change (checkDateAt endDate 0) with (getTime endDate) in Hfold. by rewrite Hfold.
Qed.

Lemma streakWalk_app w due comp turns1 turns2 v :
  streakWalk w due comp (turns1 ++ turns2) v
  = streakWalk w due comp turns2 (streakWalk w due comp turns1 v).
Proof. unfold streakWalk. apply fold_left_app. Qed.

Lemma streakWalk_ext w due1 comp1 due2 comp2 turns v :
  (∀ i, i ∈ turns → due1 i = due2 i ∧ (due1 i = true → comp1 i = comp2 i)) →
  streakWalk w due1 comp1 turns v = streakWalk w due2 comp2 turns v.
Proof.
  revert v. induction turns as [|i turns IH]; intros v Hagree; [done|].
  simpl. destruct (Hagree i) as [Hdue Hcomp]; [by left|].
  assert (streakUpdate w (due1 i) (comp1 i) i v = streakUpdate w (due2 i) (comp2 i) i v)
    as ->.
  { rewrite <- Hdue. unfold streakUpdate. destruct (due1 i); [|done]. by rewrite Hcomp. }
  apply IH. intros j Hj. apply Hagree. by right.
Qed.

Lemma streakWalk_current_frozen w due comp turns v :
  (∀ i, i ∈ turns → 30 ≤ i) →
  currentStreak (streakWalk w due comp turns v) = currentStreak v.
Proof.
  revert v. induction turns as [|i turns IH]; intros v Hlate; [done|].
  simpl. rewrite IH by (intros j Hj; apply Hlate; by right).
  assert (30 ≤ i) as Hi by (apply Hlate; by left).
  unfold streakUpdate.
  destruct (due i), (comp i), w; simpl; try done.
  - by rewrite (proj2 (Z.ltb_ge i 30)).
  - by rewrite (proj2 (Z.ltb_ge i 30)).
  - by destruct (7 <? consecutiveMisses v + 1).
Qed.

Lemma streakUpdate_bounds w isDue completed i k v :
  streakBounds k v → streakBounds (k + 1) (streakUpdate w isDue completed i v).
Proof.
  unfold streakBounds, streakUpdate. intros (Hc & Ht & Hb).
  destruct isDue, completed, w; simpl;
    try destruct (i <? 30); try destruct (7 <? consecutiveMisses v + 1); simpl; lia.
Qed.

Lemma streakWalk_bounds w due comp turns k v :
  streakBounds k v →
  streakBounds (k + Z.of_nat (length turns)) (streakWalk w due comp turns v).
Proof.
  revert k v. induction turns as [|i turns IH]; intros k v Hv.
  - cbn [length streakWalk fold_left]. by replace (k + Z.of_nat 0) with k by lia.
  - cbn [length]. replace (k + Z.of_nat (S (length turns)))
      with (k + 1 + Z.of_nat (length turns)) by lia.
    apply (IH (k + 1)). by apply streakUpdate_bounds.
Qed.

(** C10. The streaks reported satisfy [0 ≤ current ≤ best ≤ 365]. *)
Theorem streak_current_le_best {zone : HostZone} (habit : Habit) (logs : list HabitLog)
    (endDate : Z) :
  0 ≤ current (calculateHabitStreak habit logs endDate)
    ≤ best (calculateHabitStreak habit logs endDate) ∧
  best (calculateHabitStreak habit logs endDate) ≤ 365.
Proof.
  rewrite calculateHabitStreak_walk. cbv zeta. cbn [current best].
  pose proof (streakWalk_bounds (isWeeklyTarget habit)
                (λ i, isHabitDueOnDate habit (walkedDay endDate i))
                (λ i, isHabitCompleted habit (logMapOf logs !! walkedDay endDate i))
                (seqZ 0 365) 0 streakStart) as Hb.
  rewrite length_seqZ in Hb. unfold streakBounds in Hb.
  destruct Hb as (Hc & Ht & Hbest); [unfold streakBounds, streakStart; simpl; lia|].
  lia.
Qed.

(** ** Hosts that keep one offset *)

Lemma fixed_LocalTime {zone : HostZone} tz t : fixedOffset tz → LocalTime t = t + tz.
Proof. intros Hfixed. unfold LocalTime. by rewrite Hfixed. Qed.

Lemma fixed_UTC {zone : HostZone} tz t : fixedOffset tz → UTC t = t - tz.
Proof. intros Hfixed. unfold UTC. by rewrite Hfixed. Qed.

Lemma fixed_addDays {zone : HostZone} tz date k :
  fixedOffset tz → addDays date k = date + k * MS_PER_DAY.
Proof.
  intros Hfixed. unfold addDays. rewrite (fixed_UTC tz), (fixed_LocalTime tz) by done. lia.
Qed.

Lemma fixed_checkDateAt {zone : HostZone} tz endDate (i : nat) :
  fixedOffset tz → checkDateAt endDate i = getTime (endDate - Z.of_nat i).
Proof.
  intros Hfixed. induction i as [|i IH]; simpl.
  - f_equal. lia.
  - rewrite IH, (fixed_addDays tz) by done. unfold getTime. lia.
Qed.

(** With one offset the walk of [calculateHabitStreak] goes back one calendar
    day a turn. *)
Lemma fixed_walkedDay {zone : HostZone} tz endDate i :
  fixedOffset tz → 0 ≤ i → walkedDay endDate i = endDate - i.
Proof.
  intros Hfixed Hi. unfold walkedDay. rewrite (fixed_checkDateAt tz) by done.
  unfold formatDate, Day, getTime. rewrite Z.div_mul by done. lia.
Qed.

(** At or ahead of UTC the weekday the code sees for a day is the weekday of
    that day; behind UTC it is the weekday of the day before. *)
Lemma fixed_getDay_ahead {zone : HostZone} tz dateISO :
  fixedOffset tz → 0 ≤ tz < MS_PER_DAY → getDay dateISO = WeekDay (getTime dateISO).
Proof.
  intros Hfixed Htz. unfold getDay, Date_getDay, WeekDay. f_equal. f_equal.
  rewrite (fixed_LocalTime tz) by done. unfold Day, getTime.
  rewrite Z.add_comm, Z.div_add by done. rewrite Z.div_small by done.
  rewrite Z.div_mul by done. lia.
Qed.

Lemma fixed_getDay_behind {zone : HostZone} tz dateISO :
  fixedOffset tz → - MS_PER_DAY ≤ tz < 0 →
  getDay dateISO = WeekDay (getTime (dateISO - 1)).
Proof.
  intros Hfixed Htz. unfold getDay, Date_getDay, WeekDay. f_equal. f_equal.
  rewrite (fixed_LocalTime tz) by done. unfold Day, getTime.
  replace (dateISO * MS_PER_DAY + tz)
    with (tz + MS_PER_DAY + (dateISO - 1) * MS_PER_DAY) by lia.
  rewrite Z.div_add by done. rewrite Z.div_small by lia.
  rewrite Z.div_mul by done. lia.
Qed.

Lemma WeekDay_getTime dateISO : WeekDay (getTime dateISO) = (dateISO + 4) `mod` 7.
Proof. unfold WeekDay, Day, getTime. by rewrite Z.div_mul. Qed.

Lemma WeekDay_back (endDate i : Z) :
  WeekDay (getTime (endDate - i)) = (WeekDay (getTime endDate) - i) `mod` 7.
Proof.
  rewrite !WeekDay_getTime. rewrite Zminus_mod_idemp_l. f_equal. lia.
Qed.

(** ** Three weeks of Mondays, Wednesdays and Fridays *)

Lemma streak_after_three_weeks (g : Z) :
  g ∈ [1; 3; 5] →
  let final :=
    streakWalk false (λ i, bool_decide ((g - i) `mod` 7 ∈ [1; 3; 5])) (λ i, i <? 21)
      (seqZ 0 365) streakStart in
  currentStreak final = 9 ∧ Z.max (bestStreak final) (tempStreak final) = 9.
Proof.
  intros Hg. repeat (apply elem_of_cons in Hg as [->|Hg]); [..|by apply elem_of_nil in Hg];
    vm_compute; by split.
Qed.

Lemma streakWalk_all_missed w due comp turns v :
  (∀ i, i ∈ turns → due i = true → comp i = false) →
  tempStreak v = 0 → bestStreak v = 0 →
  let v' := streakWalk w due comp turns v in
  tempStreak v' = 0 ∧ bestStreak v' = 0 ∧ currentStreak v' = currentStreak v.
Proof.
  revert v. induction turns as [|i turns IH]; intros v Hmissed Ht Hb; [done|].
  cbv zeta.
  change (streakWalk w due comp (i :: turns) v)
    with (streakWalk w due comp turns (streakUpdate w (due i) (comp i) i v)).
  assert (let u := streakUpdate w (due i) (comp i) i v in
          tempStreak u = 0 ∧ bestStreak u = 0 ∧ currentStreak u = currentStreak v)
    as (Ht' & Hb' & Hc').
  { cbv zeta. unfold streakUpdate. destruct (due i) eqn:Hdue; [|done].
    rewrite (Hmissed i) by (done || by left).
    destruct w; [destruct (7 <? _)|]; simpl; rewrite ?Ht, ?Hb; done. }
  destruct (IH (streakUpdate w (due i) (comp i) i v)) as (H1 & H2 & H3);
    [intros j Hj; apply Hmissed; by right|done..|].
  split; [done|]. split; [done|]. by rewrite H3.
Qed.

(** No Monday, Wednesday or Friday follows another one. *)
Lemma no_two_days_running (d : Z) :
  WeekDay (getTime d) ∈ [1; 3; 5] → WeekDay (getTime (d - 1)) ∉ [1; 3; 5].
Proof.
  assert (∀ x : Z, x ∈ [1; 3; 5] ↔ x = 1 ∨ x = 3 ∨ x = 5) as Hmem
    by (intros x; rewrite !elem_of_cons, elem_of_nil; tauto).
  rewrite !WeekDay_getTime, !Hmem. intros Hd Hbefore.
  Z.div_mod_to_equations. lia.
Qed.

(** C3. The habit is due on Monday, Wednesday and Friday; its logs are all
    completed, lie on the Mondays, Wednesdays and Fridays of the three weeks
    that end on [endDate], itself such a day, and cover them all (nine
    days).  On a host that keeps one offset at or ahead of UTC the streaks
    are [current = 9] and [best = 9], as claimed.  On a host that keeps one
    offset behind UTC they are both 0: the code reads the weekday of a day
    off the local time of its UTC midnight, which is the day before, so the
    days it takes for due are the Tuesdays, Thursdays and Saturdays, which
    have no log.  And on any host the current streak is decided by the due
    days among the 30 days the walk looks at first: two log lists that agree
    on the completion of those give the same current streak. *)
Theorem streak_three_weeks {zone : HostZone} :
  (∀ tz habit logs endDate days,
     fixedOffset tz →
     habit_frequency habit = SpecificDays days →
     (∀ k, k ∈ days ↔ k ∈ [1; 3; 5]) →
     WeekDay (getTime endDate) ∈ [1; 3; 5] →
     (∀ log, log ∈ logs →
        isHabitCompleted habit (Some log) = true ∧
        endDate - 21 < log_dateISO log ≤ endDate ∧
        WeekDay (getTime (log_dateISO log)) ∈ [1; 3; 5]) →
     (∀ d, endDate - 21 < d ≤ endDate → WeekDay (getTime d) ∈ [1; 3; 5] →
        ∃ log, log ∈ logs ∧ log_dateISO log = d) →
     length (filter (λ d, WeekDay (getTime d) ∈ [1; 3; 5])
               ((λ i, endDate - i) <$> seqZ 0 21)) = 9%nat ∧
     (0 ≤ tz < MS_PER_DAY →
      calculateHabitStreak habit logs endDate = {| current := 9; best := 9 |}) ∧
     (- MS_PER_DAY ≤ tz < 0 →
      calculateHabitStreak habit logs endDate = {| current := 0; best := 0 |})) ∧
  (∀ habit logs logs' endDate,
     (∀ d, d ∈ walkedDays endDate 0 30 → isHabitDueOnDate habit d = true →
        isHabitCompleted habit (logMapOf logs !! d)
        = isHabitCompleted habit (logMapOf logs' !! d)) →
     current (calculateHabitStreak habit logs endDate)
     = current (calculateHabitStreak habit logs' endDate)).
Proof.
  split.
  - intros tz habit logs endDate days Hfixed Hfreq Hdays Hend Hlogs Hcover.
    assert (∀ d, isHabitDueOnDate habit d = bool_decide (getDay d ∈ [1; 3; 5])) as Hdue.
    { intros d. unfold isHabitDueOnDate. rewrite Hfreq. apply bool_decide_ext, Hdays. }
    assert (isWeeklyTarget habit = false) as Hw
      by (unfold isWeeklyTarget; by rewrite Hfreq).
    split; [|split].
    + assert (∀ l : list Z,
                length (filter (λ d, WeekDay (getTime d) ∈ [1; 3; 5])
                          ((λ i, endDate - i) <$> l))
                = length (filter (λ i, (WeekDay (getTime endDate) - i) `mod` 7 ∈ [1; 3; 5]) l))
        as Hlen.
      { induction l as [|i l IH]; [done|]. rewrite fmap_cons, !filter_cons.
        rewrite WeekDay_back.
        destruct (decide ((WeekDay (getTime endDate) - i) `mod` 7 ∈ [1; 3; 5]));
          simpl; by rewrite IH. }
      rewrite Hlen.
      repeat (apply elem_of_cons in Hend as [->|Hend]); [..|by apply elem_of_nil in Hend];
        vm_compute; reflexivity.
    + intros Htz. rewrite calculateHabitStreak_walk. cbv zeta. rewrite Hw.
      rewrite (streakWalk_ext _ _ _
                 (λ i, bool_decide ((WeekDay (getTime endDate) - i) `mod` 7 ∈ [1; 3; 5]))
                 (λ i, i <? 21)).
      { destruct (streak_after_three_weeks (WeekDay (getTime endDate)) Hend) as [-> ->].
        done. }
      intros i Hi. apply elem_of_seqZ in Hi.
      rewrite (fixed_walkedDay tz) by (done || lia).
      rewrite Hdue, (fixed_getDay_ahead tz), WeekDay_back by done. split; [done|].
      intros Hdue_i. apply bool_decide_eq_true in Hdue_i. rewrite <- WeekDay_back in Hdue_i.
      destruct (Z.ltb_spec i 21) as [Hin|Hout].
      * destruct (Hcover (endDate - i)) as (log & Hlog & Hdate); [lia|done|].
        destruct (logMapOf_is_Some logs (endDate - i) log Hlog Hdate) as [l Hl].
        rewrite Hl. apply logMapOf_Some in Hl as [Hl _]. by apply Hlogs.
      * rewrite logMapOf_None; [done|].
        intros l Hl Hdate. apply Hlogs in Hl as (_ & Hrange & _). lia.
    + intros Htz. rewrite calculateHabitStreak_walk. cbv zeta. rewrite Hw.
      destruct (streakWalk_all_missed false
                  (λ i, isHabitDueOnDate habit (walkedDay endDate i))
                  (λ i, isHabitCompleted habit (logMapOf logs !! walkedDay endDate i))
                  (seqZ 0 365) streakStart) as (-> & -> & ->); [|done..].
      intros i Hi Hdue_i. apply elem_of_seqZ in Hi.
      rewrite (fixed_walkedDay tz) in * by (done || lia).
      rewrite Hdue, (fixed_getDay_behind tz) in Hdue_i by done.
      apply bool_decide_eq_true in Hdue_i.
      rewrite logMapOf_None; [done|]. intros l Hl Hdate.
      apply Hlogs in Hl as (_ & _ & Hday). rewrite Hdate in Hday.
      by apply no_two_days_running in Hday.
  - intros habit logs logs' endDate Hagree.
    rewrite !calculateHabitStreak_walk. cbv zeta. cbn [current].
    change 365 with (30 + 335). rewrite (seqZ_app 0 30 335) by lia.
    rewrite !streakWalk_app.
    rewrite 2!(streakWalk_current_frozen _ _ _ (seqZ (0 + 30) 335))
      by (intros i Hi; apply elem_of_seqZ in Hi; lia).
    apply (f_equal currentStreak), streakWalk_ext.
    intros i Hi. split; [done|]. intros Hdue. apply Hagree; [|done].
    unfold walkedDays. apply list_elem_of_fmap. by exists i.
Qed.

Lemma streak_three_weeks_witness :
  calculateHabitStreak (zone := Bogota) mwfHabit threeWeeksLogs 19727
  = {| current := 0; best := 0 |} ∧
  calculateHabitStreak (zone := Istanbul) mwfHabit threeWeeksLogs 19727
  = {| current := 9; best := 9 |}.
Proof.
  assert (WeekDay (getTime 19727) ∈ [1; 3; 5]) as Hfriday
    by (apply (bool_decide_eq_true_1 _); vm_compute; reflexivity).
  assert (∀ log, log ∈ threeWeeksLogs →
            isHabitCompleted mwfHabit (Some log) = true ∧
            19727 - 21 < log_dateISO log ≤ 19727 ∧
            WeekDay (getTime (log_dateISO log)) ∈ [1; 3; 5]) as Hlogs.
  { apply Forall_forall. apply (bool_decide_eq_true_1 _). vm_compute. reflexivity. }
  assert (∀ d, 19727 - 21 < d ≤ 19727 → WeekDay (getTime d) ∈ [1; 3; 5] →
            ∃ log, log ∈ threeWeeksLogs ∧ log_dateISO log = d) as Hcover.
  { intros d Hd Hday.
    assert (Forall (λ d, WeekDay (getTime d) ∈ [1; 3; 5] →
                         d ∈ log_dateISO <$> threeWeeksLogs) (seqZ 19707 21)) as Hall.
    { apply (bool_decide_eq_true_1 _). vm_compute. reflexivity. }
    rewrite Forall_forall in Hall.
    assert (d ∈ log_dateISO <$> threeWeeksLogs) as Hin
      by (apply Hall; [apply elem_of_seqZ; lia|done]).
    apply list_elem_of_fmap in Hin as (log & -> & Hlog). by exists log. }
  destruct (streak_three_weeks (zone := Bogota)) as [Hbehind _].
  destruct (streak_three_weeks (zone := Istanbul)) as [Hahead _].
  split.
  - apply (Hbehind (-5 * MS_PER_HOUR) mwfHabit threeWeeksLogs 19727 [1; 3; 5]); try done.
  - apply (Hahead (3 * MS_PER_HOUR) mwfHabit threeWeeksLogs 19727 [1; 3; 5]); try done.
Defined.

(** ** Every-X-days habits *)

Lemma remIsZero_mod (a b : Z) :
  0 ≤ a → 0 < b → (remIsZero a b = true ↔ a `mod` b = 0).
Proof.
  intros Ha Hb. unfold remIsZero. rewrite decide_False by lia.
  rewrite bool_decide_eq_true, Z.rem_mod_nonneg by lia. done.
Qed.

(** With [diffDays] the whole days from the creation instant to the start of
    the day asked about, an every-X-days habit is due exactly when [diffDays]
    is non-negative and a multiple of the interval. *)
Lemma isHabitDueOnDate_everyXDays {zone : HostZone} habit interval dateISO :
  habit_frequency habit = EveryXDays interval → 0 < interval →
  (isHabitDueOnDate habit dateISO = true ↔
   0 ≤ diffDays habit dateISO ∧ diffDays habit dateISO `mod` interval = 0).
Proof.
  intros Hfreq Hpos. unfold isHabitDueOnDate. rewrite Hfreq, andb_true_iff, Z.leb_le.
  split; intros [Hge Hrem]; (split; [done|]); by apply remIsZero_mod.
Qed.

(** A habit created after the start of a day is not due on that day, and is
    due on the next one. *)
Lemma everyXDays_creation_day {zone : HostZone} habit interval d :
  habit_frequency habit = EveryXDays interval → interval ≠ 0 →
  getTime d < habit_createdAt habit ≤ getTime (d + 1) →
  isHabitDueOnDate habit d = false ∧ isHabitDueOnDate habit (d + 1) = true.
Proof.
  intros Hfreq Hne [Hafter Hbefore]. unfold isHabitDueOnDate, diffDays. rewrite Hfreq.
  unfold getTime, MS_PER_DAY in *. split.
  - apply andb_false_iff. left. apply Z.leb_gt.
    apply Z.div_lt_upper_bound; lia.
  - replace (((d + 1) * (1000 * 60 * 60 * 24) - habit_createdAt habit)
               `div` (1000 * 60 * 60 * 24)) with 0.
    + unfold remIsZero. by rewrite decide_False by done.
    + symmetry. apply Z.div_small. lia.
Qed.

(** C4 at a habit created during a day. An every-2-days habit created at
    10:00 UTC of day 19723 (2024-01-01) is not due on day 19723, is due on
    day 19724 and is not due on day 19725; created at 00:00 UTC sharp it is
    due on days 19723 and 19725 and not on day 19724. *)
Theorem everyXDays_created_during_day {zone : HostZone} :
  let atTen := sampleHabit Boolean (EveryXDays 2) (getTime 19723 + 10 * 60 * 60 * 1000) in
  let atMidnight := sampleHabit Boolean (EveryXDays 2) (getTime 19723) in
  (isHabitDueOnDate atTen 19723 = false ∧
   isHabitDueOnDate atTen 19724 = true ∧
   isHabitDueOnDate atTen 19725 = false) ∧
  (isHabitDueOnDate atMidnight 19723 = true ∧
   isHabitDueOnDate atMidnight 19724 = false ∧
   isHabitDueOnDate atMidnight 19725 = true).
Proof. vm_compute. repeat split. Qed.

(** ** The score *)



Section ScoreProofs.
Context {R : Type} `{JsNumber R} {zone : HostZone}.






End ScoreProofs.


(** * Further properties of the planner store *)

Close Scope Z_scope.

(** ** Undo after a completion change *)

Lemma completionState_eta (completion : CompletionState) :
  {| completedTaskIds := completedTaskIds completion;
     completionHistory := completionHistory completion |} = completion.
Proof. by destruct completion. Qed.

Lemma undo_pops now s rest snap :
  undoStack s = rest ++ [snap] →
  plannerReducer now s UNDO
  = withUndoStack
      (withCompletionState s
         {| completedTaskIds := snap_completedTaskIds snap;
            completionHistory := snap_completionHistory snap |})
      rest.
Proof.
  intros Hstack. cbn [plannerReducer]. rewrite Hstack.
  rewrite decide_False by (rewrite length_app; simpl; lia).
  replace (length (rest ++ [snap]) - 1) with (length rest)
    by (rewrite length_app; simpl; lia).
  rewrite list_lookup_middle by done. by rewrite slice_drop_last.
Qed.

Lemma undo_after_push now1 now2 now3 s a :
  completionState (plannerReducer now2 (plannerReducer now1 s PUSH_UNDO_SNAPSHOT) a)
    = completionState (plannerReducer now2 s a) →
  courses (plannerReducer now2 (plannerReducer now1 s PUSH_UNDO_SNAPSHOT) a)
    = courses (plannerReducer now2 s a) →
  undoStack (plannerReducer now2 (plannerReducer now1 s PUSH_UNDO_SNAPSHOT) a)
    = undoStack (plannerReducer now1 s PUSH_UNDO_SNAPSHOT) →
  let s2 := plannerReducer now3
              (plannerReducer now2 (plannerReducer now1 s PUSH_UNDO_SNAPSHOT) a) UNDO in
  completionState s2 = completionState s ∧
  courses s2 = courses (plannerReducer now2 s a) ∧
  undoStack s2 = slice (undoStack s) (-14)%Z None.
Proof.
  intros _ Hcourses Hstack s2. subst s2.
  rewrite (undo_pops now3 _ (slice (undoStack s) (-14)%Z None)
             {| snap_timestamp := now1;
                snap_completedTaskIds := completedTaskIds (completionState s);
                snap_completionHistory := completionHistory (completionState s) |})
    by (by rewrite Hstack).
  cbn [withUndoStack withCompletionState completionState courses undoStack
       snap_completedTaskIds snap_completionHistory].
  by rewrite completionState_eta, Hcourses.
Qed.

(** X1. Undoing right after [toggleTaskCompletion] or [updateTaskStatus]
    gives back the completion state of before the call and, when the undo
    stack was not full, the undo stack of before; the courses stay as the call
    left them, status fields included. *)
Theorem undo_after_completion_change (now1 now2 now3 : string) (s : PlannerState) :
  (∀ taskId,
     let s1 := toggleTaskCompletion now1 now2 taskId s in
     let s2 := undo now3 s1 in
     completionState s2 = completionState s ∧
     courses s2 = courses s1 ∧
     (length (undoStack s) < LIMITS.MAX_UNDO_STACK → undoStack s2 = undoStack s) ∧
     (length (undoStack s) = LIMITS.MAX_UNDO_STACK → undoStack s2 = drop 1 (undoStack s))) ∧
  (∀ taskId status courseId unitId,
     let s1 := updateTaskStatus now1 now2 taskId status courseId unitId s in
     let s2 := undo now3 s1 in
     completionState s2 = completionState s ∧
     courses s2 = courses s1 ∧
     (length (undoStack s) < LIMITS.MAX_UNDO_STACK → undoStack s2 = undoStack s) ∧
     (length (undoStack s) = LIMITS.MAX_UNDO_STACK → undoStack s2 = drop 1 (undoStack s))).
Proof.
  assert (∀ a,
            completionState (plannerReducer now2 (plannerReducer now1 s PUSH_UNDO_SNAPSHOT) a)
              = completionState (plannerReducer now2 s a) →
            courses (plannerReducer now2 (plannerReducer now1 s PUSH_UNDO_SNAPSHOT) a)
              = courses (plannerReducer now2 s a) →
            undoStack (plannerReducer now2 (plannerReducer now1 s PUSH_UNDO_SNAPSHOT) a)
              = undoStack (plannerReducer now1 s PUSH_UNDO_SNAPSHOT) →
            let s1 := plannerReducer now2 (plannerReducer now1 s PUSH_UNDO_SNAPSHOT) a in
            let s2 := plannerReducer now3 s1 UNDO in
            completionState s2 = completionState s ∧
            courses s2 = courses s1 ∧
            (length (undoStack s) < LIMITS.MAX_UNDO_STACK → undoStack s2 = undoStack s) ∧
            (length (undoStack s) = LIMITS.MAX_UNDO_STACK →
             undoStack s2 = drop 1 (undoStack s))) as Hgen.
  { intros a Hc Hcs Hst s1 s2.
    destruct (undo_after_push now1 now2 now3 s a Hc Hcs Hst) as (H1 & H2 & H3).
    fold s1 in H1, H2, H3. fold s2 in H1, H2, H3.
    split; [done|]. split; [by rewrite H2; subst s1|].
    unfold LIMITS.MAX_UNDO_STACK. split; intros Hlen; rewrite H3.
    - apply (slice_tail_short _ 14). lia.
    - rewrite (slice_tail_long _ 14) by lia. by rewrite Hlen. }
  split.
  - intros taskId. apply (Hgen (TOGGLE_TASK_COMPLETION taskId)); done.
  - intros taskId status courseId unitId.
    apply (Hgen (UPDATE_TASK_STATUS taskId status courseId unitId)); try done.
    all: cbn [plannerReducer]; by destruct (decide (status = Done)), (includes _ _).
Qed.

Lemma undo_after_completion_change_witness :
  let s2 := undo "t3" (toggleTaskCompletion "t1" "t2" "x" oneTaskState) in
  completionState s2 = completionState oneTaskState ∧
  undoStack s2 = undoStack oneTaskState.
Proof.
  destruct (undo_after_completion_change "t1" "t2" "t3" oneTaskState) as [Htoggle _].
  destruct (Htoggle "x") as (Hc & _ & Hshort & _).
  split; [exact Hc|]. apply Hshort. vm_compute. lia.
Defined.

Lemma setStatusAt_hit now cs courseId unitId taskId st c u t :
  c ∈ cs → u ∈ course_units c → t ∈ unit_tasks u →
  course_id c = courseId → unit_id u = unitId → task_id t = taskId →
  ∃ c' u', c' ∈ setStatusAt now cs courseId unitId taskId st ∧
           u' ∈ course_units c' ∧ withStatus t st now ∈ unit_tasks u'.
Proof.
  intros Hc Hu Ht Hcid Huid Htid.
  exists (withUnits c
            (mapUnit unitId
               (λ u, withTasks u (mapTask taskId (λ t, withStatus t st now) (unit_tasks u)))
               (course_units c))),
         (withTasks u (mapTask taskId (λ t, withStatus t st now) (unit_tasks u))).
  split; [|split].
  - unfold setStatusAt, mapCourse. apply list_elem_of_fmap. exists c.
    by rewrite decide_True by done.
  - simpl. unfold mapUnit. apply list_elem_of_fmap. exists u.
    by rewrite decide_True by done.
  - simpl. unfold mapTask. apply list_elem_of_fmap. exists t.
    by rewrite decide_True by done.
Qed.

(** X2. The asymmetry of undo: toggling a stored task and undoing always
    leaves the completion set and the status fields in disagreement, because
    the undo restores the completion set and not the status the toggle
    wrote. *)
Theorem undo_after_toggle_breaks_sync (now1 now2 now3 : string) (s : PlannerState)
    (taskId : string) :
  taskId ∈ taskIds (courses s) →
  ¬ syncInvariant (undo now3 (toggleTaskCompletion now1 now2 taskId s)).
Proof.
  intros Hstored Hafter.
  apply elem_of_taskIds in Hstored as (c & u & t & Hc & Hu & Ht & Hid).
  destruct (undo_after_push now1 now2 now3 s (TOGGLE_TASK_COMPLETION taskId))
    as (Hcompletion & Hcourses & _); try done.
  unfold syncInvariant, undo, toggleTaskCompletion in Hafter.
  rewrite Hcompletion, Hcourses in Hafter.
  cbn [plannerReducer withCompletionState withCourses courses] in Hafter.
  set (ids := completedTaskIds (completionState s)) in *.
  set (st := if includes ids taskId then Todo else Done) in *.
  assert (∃ c' u' t', c' ∈ toggleCourses now2 (courses s) taskId st ∧
                      u' ∈ course_units c' ∧ t' ∈ unit_tasks u' ∧
                      task_id t' = taskId ∧ task_status t' = st)
    as (c' & u' & t' & Hc' & Hu' & Ht' & Hid' & Hst').
  { destruct (toggleCourses_cases now2 (courses s) taskId st)
      as [[_ Hnone]|(c0 & u0 & Hc0 & Hu0 & ->)].
    - exfalso. by apply (unitHolding_None taskId c (Hnone c Hc) u t).
    - apply unitHolding_Some in Hu0 as (Hu0 & t0 & Ht0 & Hid0).
      destruct (setStatusAt_hit now2 (courses s) (course_id c0) (unit_id u0) taskId st
                  c0 u0 t0) as (c' & u' & Hc' & Hu' & Ht'); try done.
      exists c', u', (withStatus t0 st now2). by repeat split. }
  specialize (Hafter c' u' t' Hc' Hu' Ht'). rewrite Hid', Hst' in Hafter.
  subst st. destruct (includes ids taskId) eqn:Hin.
  - apply includes_true in Hin. apply Hafter in Hin. discriminate.
  - apply includes_false in Hin. apply Hin, Hafter. done.
Qed.

Lemma undo_after_toggle_breaks_sync_witness :
  syncInvariant oneTaskState ∧
  ¬ syncInvariant (undo "t3" (toggleTaskCompletion "t1" "t2" "x" oneTaskState)).
Proof.
  assert (syncInvariant oneTaskState) as Hsync
    by (apply syncInvariantb_spec; vm_compute; reflexivity).
  split; [exact Hsync|].
  apply (undo_after_toggle_breaks_sync "t1" "t2" "t3" oneTaskState "x").
  apply includes_true. vm_compute. reflexivity.
Defined.

(** ** Toggling twice *)

Lemma filter_absent (ids : list string) (taskId : string) :
  taskId ∉ ids → filter (λ id, id ≠ taskId) ids = ids.
Proof.
  induction ids as [|id ids IH]; intros Hnot; [done|].
  apply not_elem_of_cons in Hnot as [Hne Hnot].
  rewrite filter_cons, decide_True by done. by rewrite IH.
Qed.

Lemma toggle_completion now s taskId :
  completionState (plannerReducer now s (TOGGLE_TASK_COMPLETION taskId))
  = if includes (completedTaskIds (completionState s)) taskId
    then {| completedTaskIds :=
              filter (λ id, id ≠ taskId) (completedTaskIds (completionState s));
            completionHistory := delete taskId (completionHistory (completionState s)) |}
    else {| completedTaskIds := completedTaskIds (completionState s) ++ [taskId];
            completionHistory :=
              <[taskId := now]> (completionHistory (completionState s)) |}.
Proof. cbn [plannerReducer withCompletionState completionState]. by destruct (includes _ _). Qed.

Lemma toggleTaskCompletion_completion now1 now2 s taskId :
  completionState (toggleTaskCompletion now1 now2 taskId s)
  = completionState (plannerReducer now2 s (TOGGLE_TASK_COMPLETION taskId)).
Proof. done. Qed.

(** X3. Two toggles of the same task in a row give back the completion set:
    every id is completed afterwards exactly when it was before. When the
    task was not completed the completion state is restored as a value, ids in
    their order and history included, provided the history held no stale
    entry for the task. *)
Theorem toggle_twice (now1 now2 now3 now4 : string) (s : PlannerState) (taskId : string) :
  let s2 := toggleTaskCompletion now3 now4 taskId
              (toggleTaskCompletion now1 now2 taskId s) in
  (∀ id, id ∈ completedTaskIds (completionState s2)
         ↔ id ∈ completedTaskIds (completionState s)) ∧
  (taskId ∉ completedTaskIds (completionState s) →
   completionHistory (completionState s) !! taskId = None →
   completionState s2 = completionState s).
Proof.
  intros s2. subst s2.
  rewrite toggleTaskCompletion_completion, toggle_completion.
  rewrite toggleTaskCompletion_completion, toggle_completion.
  set (ids := completedTaskIds (completionState s)).
  set (history := completionHistory (completionState s)).
  destruct (includes ids taskId) eqn:Hin; cbn [completedTaskIds completionHistory].
  - apply includes_true in Hin.
    assert (includes (filter (λ id, id ≠ taskId) ids) taskId = false) as ->.
    { apply includes_false. rewrite elem_of_without. by intros [Hne _]. }
    cbn [completedTaskIds]. split; [|done].
    intros id. rewrite elem_of_with, elem_of_without.
    destruct (decide (id = taskId)) as [->|Hne]; intuition.
  - apply includes_false in Hin.
    assert (includes (ids ++ [taskId]) taskId = true) as ->.
    { apply includes_true. rewrite elem_of_with. by right. }
    cbn [completedTaskIds completionHistory].
    rewrite filter_app, filter_absent by done.
    rewrite filter_cons, decide_False by (by intros Hne).
    rewrite filter_nil, app_nil_r. split; [done|].
    intros _ Hfresh. rewrite delete_insert_eq, delete_id by done.
    subst ids history. apply completionState_eta.
Qed.

Lemma toggle_twice_witness :
  completionState (toggleTaskCompletion "t3" "t4" "x"
                     (toggleTaskCompletion "t1" "t2" "x" oneTaskState))
  = completionState oneTaskState.
Proof.
  destruct (toggle_twice "t1" "t2" "t3" "t4" oneTaskState "x") as [_ Hsame].
  apply Hsame.
  - apply includes_false. vm_compute. reflexivity.
  - vm_compute. reflexivity.
Defined.

(** ** Deleting a task *)

Lemma delete_task_source now s courseId unitId taskId c' u' t :
  c' ∈ courses (plannerReducer now s (DELETE_TASK courseId unitId taskId)) →
  u' ∈ course_units c' → t ∈ unit_tasks u' →
  ∃ c u, c ∈ courses s ∧ u ∈ course_units c ∧ t ∈ unit_tasks u ∧
         ¬ (course_id c = courseId ∧ unit_id u = unitId ∧ task_id t = taskId).
Proof.
  cbn [plannerReducer withCompletionState withCourses courses].
  unfold mapCourse, mapUnit. intros Hc' Hu' Ht.
  apply list_elem_of_fmap in Hc' as (c & -> & Hc).
  destruct (decide (course_id c = courseId)) as [Hcid|Hcid].
  - simpl in Hu'. apply list_elem_of_fmap in Hu' as (u & -> & Hu).
    destruct (decide (unit_id u = unitId)) as [Huid|Huid].
    + simpl in Ht. apply list_elem_of_filter in Ht as [Hne Ht].
      exists c, u. repeat (split; [done|]). by intros (_ & _ & ?).
    + exists c, u. repeat (split; [done|]). by intros (_ & ? & _).
  - exists c, u'. repeat (split; [done|]). by intros (? & _).
Qed.

(** X4. [deleteTask] addressed to the unit and course that hold the task
    removes every task of that id from the store and keeps the agreement of
    the completion set with the status fields. *)
Theorem deleteTask_sync (now : string) (s : PlannerState) (courseId unitId taskId : string) :
  tasksLocated (courses s) taskId courseId unitId →
  let s' := deleteTask now courseId unitId taskId s in
  (taskId ∉ taskIds (courses s')) ∧
  (syncInvariant s → syncInvariant s').
Proof.
  intros Hloc s'. subst s'. unfold deleteTask.
  assert (∀ c' u' t,
            c' ∈ courses (plannerReducer now s (DELETE_TASK courseId unitId taskId)) →
            u' ∈ course_units c' → t ∈ unit_tasks u' →
            task_id t ≠ taskId ∧
            ∃ c u, c ∈ courses s ∧ u ∈ course_units c ∧ t ∈ unit_tasks u) as Hkept.
  { intros c' u' t Hc' Hu' Ht.
    destruct (delete_task_source now s courseId unitId taskId c' u' t Hc' Hu' Ht)
      as (c & u & Hc & Hu & Ht0 & Hnot).
    split; [|eauto]. intros Hid. apply Hnot.
    destruct (Hloc c u t Hc Hu Ht0 Hid). done. }
  split.
  - intros Hin. apply elem_of_taskIds in Hin as (c' & u' & t & Hc' & Hu' & Ht & Hid).
    by destruct (Hkept c' u' t Hc' Hu' Ht).
  - intros Hsync c' u' t Hc' Hu' Ht.
    destruct (Hkept c' u' t Hc' Hu' Ht) as (Hne & c & u & Hc & Hu & Ht0).
    cbn [plannerReducer withCompletionState completionState completedTaskIds].
    rewrite elem_of_without. specialize (Hsync c u t Hc Hu Ht0). tauto.
Qed.

Lemma deleteTask_sync_witness :
  let s' := deleteTask "t1" "B" "U2" "y" twoCoursesState in
  ("y" ∉ taskIds (courses s')) ∧ syncInvariant s'.
Proof.
  assert (tasksLocated (courses twoCoursesState) "y" "B" "U2") as Hloc
    by (apply tasksLocatedb_spec; vm_compute; reflexivity).
  destruct (deleteTask_sync "t1" twoCoursesState "B" "U2" "y" Hloc) as [Hgone Hsync].
  split; [exact Hgone|]. apply Hsync.
  apply syncInvariantb_spec. vm_compute. reflexivity.
Defined.

(** ** Adding units, tasks and exams *)

Lemma findCourse_Some cs courseId c :
  findCourse cs courseId = Some c → c ∈ cs ∧ course_id c = courseId.
Proof.
  unfold findCourse. intros Hfind. apply find_some in Hfind as [Hin Hid].
  split; [by apply list_elem_of_In|by apply bool_decide_eq_true in Hid].
Qed.

Lemma findCourse_None cs courseId :
  findCourse cs courseId = None → ∀ c, c ∈ cs → course_id c ≠ courseId.
Proof.
  unfold findCourse. intros Hfind c Hc Hid. apply list_elem_of_In in Hc.
  pose proof (find_none _ _ Hfind c Hc) as Hnone. simpl in Hnone.
  by rewrite bool_decide_eq_true_2 in Hnone.
Qed.

Lemma findUnit_Some us unitId u :
  findUnit us unitId = Some u → u ∈ us ∧ unit_id u = unitId.
Proof.
  unfold findUnit. intros Hfind. apply find_some in Hfind as [Hin Hid].
  split; [by apply list_elem_of_In|by apply bool_decide_eq_true in Hid].
Qed.

Lemma findUnit_None us unitId :
  findUnit us unitId = None → ∀ u, u ∈ us → unit_id u ≠ unitId.
Proof.
  unfold findUnit. intros Hfind u Hu Hid. apply list_elem_of_In in Hu.
  pose proof (find_none _ _ Hfind u Hu) as Hnone. simpl in Hnone.
  by rewrite bool_decide_eq_true_2 in Hnone.
Qed.

Lemma NoDup_fmap_same {A B} (f : A → B) (l : list A) (x y : A) :
  NoDup (f <$> l) → x ∈ l → y ∈ l → f x = f y → x = y.
Proof.
  induction l as [|z l IH]; intros Hnd Hx Hy Hf; [by apply elem_of_nil in Hx|].
  rewrite fmap_cons in Hnd. apply NoDup_cons in Hnd as [Hz Hnd].
  apply elem_of_cons in Hx as [->|Hx]; apply elem_of_cons in Hy as [->|Hy].
  - done.
  - exfalso. apply Hz. rewrite Hf. by apply list_elem_of_fmap_2.
  - exfalso. apply Hz. rewrite <- Hf. by apply list_elem_of_fmap_2.
  - by apply IH.
Qed.

Lemma mapCourse_no_match courseId f cs :
  (∀ c, c ∈ cs → course_id c ≠ courseId) → mapCourse courseId f cs = cs.
Proof.
  intros Hnone. unfold mapCourse. rewrite <- (list_fmap_id cs) at 2.
  apply list_fmap_ext. intros i c Hc. apply list_elem_of_lookup_2 in Hc.
  by rewrite decide_False by by apply Hnone.
Qed.

Lemma allTasks_mapCourse courseId f cs :
  (∀ c, courseTasks (f c) = courseTasks c) →
  allTasks (mapCourse courseId f cs) = allTasks cs.
Proof.
  intros Hf. unfold allTasks, mapCourse. induction cs as [|c cs IH]; [done|].
  rewrite fmap_cons, !bind_cons, IH. f_equal.
  destruct (decide (course_id c = courseId)); [apply Hf|done].
Qed.

Lemma elem_of_mapCourse courseId f cs c' :
  c' ∈ mapCourse courseId f cs →
  ∃ c, c ∈ cs ∧ ((course_id c = courseId ∧ c' = f c) ∨ (course_id c ≠ courseId ∧ c' = c)).
Proof.
  unfold mapCourse. intros Hc'. apply list_elem_of_fmap in Hc' as (c & -> & Hc).
  exists c. split; [done|]. destruct (decide (course_id c = courseId)); tauto.
Qed.

Lemma elem_of_mapUnit unitId f us u' :
  u' ∈ mapUnit unitId f us →
  ∃ u, u ∈ us ∧ ((unit_id u = unitId ∧ u' = f u) ∨ (unit_id u ≠ unitId ∧ u' = u)).
Proof.
  unfold mapUnit. intros Hu'. apply list_elem_of_fmap in Hu' as (u & -> & Hu).
  exists u. split; [done|]. destruct (decide (unit_id u = unitId)); tauto.
Qed.

(** X5. [addUnit] does nothing when no course has the id; at capacity it
    leaves the courses alone and reports the error; it never touches a task
    or the completion state; and with unique course ids it keeps every course
    within [MAX_UNITS_PER_COURSE] units. *)
Theorem addUnit_behaviour (unitId now courseId title : string) (s : PlannerState) :
  let s' := addUnit unitId now courseId title s in
  (findCourse (courses s) courseId = None → s' = s) ∧
  (∀ course, findCourse (courses s) courseId = Some course →
     LIMITS.MAX_UNITS_PER_COURSE ≤ length (course_units course) →
     courses s' = courses s ∧ error s' = Some "Maksimum 30 ünite ekleyebilirsiniz.") ∧
  (allTasks (courses s') = allTasks (courses s) ∧
   completionState s' = completionState s) ∧
  (uniqueCourseIds (courses s) → unitsWithinLimit (courses s) →
   unitsWithinLimit (courses s')).
Proof.
  intros s'. subst s'. unfold addUnit.
  destruct (findCourse (courses s) courseId) as [course|] eqn:Hfind.
  - destruct (decide (LIMITS.MAX_UNITS_PER_COURSE ≤ length (course_units course)))
      as [Hfull|Hroom].
    + split; [done|]. split; [by intros ? [= <-] _|]. by split.
    + split; [done|]. split; [intros ? [= <-] ?; lia|].
      cbn [plannerReducer withCourses courses completionState]. split.
      * split; [|done]. apply allTasks_mapCourse. intros c.
        unfold courseTasks. simpl. by rewrite bind_app, bind_cons, app_nil_r.
      * intros Hunique Hlimit c' Hc'.
        apply elem_of_mapCourse in Hc' as (c & Hc & [[Hid ->]|[_ ->]]); [|by apply Hlimit].
        apply findCourse_Some in Hfind as [Hcourse Hcid].
        assert (c = course) as ->
          by (apply (NoDup_fmap_same course_id (courses s) c course Hunique Hc Hcourse);
              congruence).
        simpl. rewrite length_app. simpl. lia.
  - split; [done|]. split; [done|]. by split.
Qed.

Lemma addUnit_behaviour_witness :
  let s' := addUnit "U3" "t1" "B" "Week 2" twoCoursesState in
  unitsWithinLimit (courses s') ∧
  addUnit "U3" "t1" "Z" "Week 2" twoCoursesState = twoCoursesState.
Proof.
  destruct (addUnit_behaviour "U3" "t1" "B" "Week 2" twoCoursesState)
    as (_ & _ & _ & Hlimit).
  destruct (addUnit_behaviour "U3" "t1" "Z" "Week 2" twoCoursesState)
    as (Hmissing & _).
  split; [|by apply Hmissing].
  apply Hlimit.
  - apply (bool_decide_eq_true_1 _). vm_compute. reflexivity.
  - intros c Hc. unfold twoCoursesState in Hc. simpl in Hc.
    repeat (apply elem_of_cons in Hc as [->|Hc]); [..|by apply elem_of_nil in Hc];
      vm_compute; lia.
Defined.

Lemma add_task_source now s courseId unitId task c' u' t :
  c' ∈ courses (plannerReducer now s (ADD_TASK courseId unitId task)) →
  u' ∈ course_units c' → t ∈ unit_tasks u' →
  t = task ∨ ∃ c u, c ∈ courses s ∧ u ∈ course_units c ∧ t ∈ unit_tasks u.
Proof.
  cbn [plannerReducer withCourses courses]. intros Hc' Hu' Ht.
  apply elem_of_mapCourse in Hc' as (c & Hc & [[Hcid ->]|[_ ->]]); [|right; eauto].
  simpl in Hu'. apply elem_of_mapUnit in Hu' as (u & Hu & [[Huid ->]|[_ ->]]);
    [|right; eauto].
  simpl in Ht. apply elem_of_app in Ht as [Ht|Ht]; [right; eauto|].
  left. by apply list_elem_of_singleton in Ht.
Qed.

Lemma add_task_tasks_unchanged now s courseId unitId task :
  (∀ c u, c ∈ courses s → u ∈ course_units c →
     ¬ (course_id c = courseId ∧ unit_id u = unitId)) →
  allTasks (courses (plannerReducer now s (ADD_TASK courseId unitId task)))
  = allTasks (courses s).
Proof.
  intros Hnone. cbn [plannerReducer withCourses courses].
  unfold allTasks, mapCourse. induction (courses s) as [|c cs IH]; [done|].
  rewrite fmap_cons, !bind_cons, IH
    by (intros c0 u0 Hc0; apply Hnone; by right). f_equal.
  destruct (decide (course_id c = courseId)) as [Hcid|]; [|done]. simpl.
  assert (∀ u, u ∈ course_units c → unit_id u ≠ unitId) as Hunits
    by (intros u Hu Huid; apply (Hnone c u); [by left|done|done]).
  unfold mapUnit. induction (course_units c) as [|u us IHu]; [done|].
  rewrite fmap_cons, !bind_cons, IHu by (intros u0 Hu0; apply Hunits; by right).
  by rewrite decide_False by (apply Hunits; by left).
Qed.

Lemma add_task_within_limit now s courseId unitId task :
  (∀ c u, c ∈ courses s → u ∈ course_units c →
     course_id c = courseId → unit_id u = unitId →
     length (unit_tasks u) < LIMITS.MAX_TASKS_PER_UNIT) →
  tasksWithinLimit (courses s) →
  tasksWithinLimit (courses (plannerReducer now s (ADD_TASK courseId unitId task))).
Proof.
  intros Hroom Hlimit c' u' Hc' Hu'. cbn [plannerReducer withCourses courses] in Hc'.
  apply elem_of_mapCourse in Hc' as (c & Hc & [[Hcid ->]|[_ ->]]);
    [|by apply (Hlimit c)].
  simpl in Hu'. apply elem_of_mapUnit in Hu' as (u & Hu & [[Huid ->]|[_ ->]]);
    [|by apply (Hlimit c)].
  simpl. rewrite length_app. simpl. specialize (Hroom c u Hc Hu Hcid Huid). lia.
Qed.

(** With unique ids the two [find]s return the one unit at the address. *)
Lemma find_at_address cs courseId unitId c u :
  uniqueCourseIds cs → uniqueUnitIds cs →
  c ∈ cs → u ∈ course_units c → course_id c = courseId → unit_id u = unitId →
  findCourse cs courseId = Some c ∧ findUnit (course_units c) unitId = Some u.
Proof.
  intros Hcids Huids Hc Hu Hcid Huid.
  destruct (findCourse cs courseId) as [course|] eqn:Hcourse;
    [|by destruct (findCourse_None _ _ Hcourse c Hc)].
  pose proof (findCourse_Some _ _ _ Hcourse) as [Hin Hid].
  assert (course = c) as ->
    by (apply (NoDup_fmap_same course_id cs course c Hcids Hin Hc); congruence).
  split; [done|].
  destruct (findUnit (course_units c) unitId) as [unit|] eqn:Hunit;
    [|by destruct (findUnit_None _ _ Hunit u Hu)].
  pose proof (findUnit_Some _ _ _ Hunit) as [Hin' Hid'].
  f_equal. apply (NoDup_fmap_same unit_id (course_units c) unit u (Huids c Hc) Hin' Hu).
  congruence.
Qed.

(** X6. [addTask] refuses a task for a unit that already holds
    [MAX_TASKS_PER_UNIT] tasks, leaving the courses alone and reporting the
    error. It keeps the agreement of the completion set with the status
    fields when the task it builds is not completed in either sense; it
    changes no task when no unit has the address; and with unique course ids
    and unit ids it keeps every unit within the limit. *)
Theorem addTask_behaviour (taskId createdAt updatedAt now courseId unitId text : string)
    (options : PartialTask) (s : PlannerState) :
  let task := newTask taskId createdAt updatedAt text options in
  let s' := addTask taskId createdAt updatedAt now courseId unitId text options s in
  (∀ course unit,
     findCourse (courses s) courseId = Some course →
     findUnit (course_units course) unitId = Some unit →
     LIMITS.MAX_TASKS_PER_UNIT ≤ length (unit_tasks unit) →
     courses s' = courses s ∧ error s' = Some "Maksimum 100 görev ekleyebilirsiniz.") ∧
  (syncInvariant s →
   task_id task ∉ completedTaskIds (completionState s) →
   task_status task ≠ Done →
   syncInvariant s') ∧
  ((∀ c u, c ∈ courses s → u ∈ course_units c →
      ¬ (course_id c = courseId ∧ unit_id u = unitId)) →
   allTasks (courses s') = allTasks (courses s)) ∧
  (uniqueCourseIds (courses s) → uniqueUnitIds (courses s) →
   tasksWithinLimit (courses s) → tasksWithinLimit (courses s')).
Proof.
  intros task s'. subst s'. unfold addTask. fold task.
  set (added := plannerReducer now s (ADD_TASK courseId unitId task)).
  assert (syncInvariant s →
          task_id task ∉ completedTaskIds (completionState s) →
          task_status task ≠ Done → syncInvariant added) as Hsync_added.
  { intros Hsync Hfresh Hopen c' u' t Hc' Hu' Ht.
    destruct (add_task_source now s courseId unitId task c' u' t Hc' Hu' Ht)
      as [->|(c & u & Hc & Hu & Ht0)].
    - subst added. cbn [plannerReducer withCourses completionState]. tauto.
    - by apply (Hsync c u). }
  destruct (findCourse (courses s) courseId) as [course|] eqn:Hcourse; cbn [mbind option_bind].
  - destruct (findUnit (course_units course) unitId) as [unit|] eqn:Hunit.
    + destruct (decide (LIMITS.MAX_TASKS_PER_UNIT ≤ length (unit_tasks unit)))
        as [Hfull|Hroom].
      * split; [done|]. split; [done|]. split; done.
      * split; [intros ? ? [= <-] Hu; rewrite Hunit in Hu; injection Hu as <-; lia|].
        split; [done|]. split; [apply add_task_tasks_unchanged|].
        intros Hcids Huids. apply add_task_within_limit.
        intros c u Hc Hu Hcid Huid.
        destruct (find_at_address _ _ _ c u Hcids Huids Hc Hu Hcid Huid) as [H1 H2].
        rewrite Hcourse in H1. injection H1 as <-.
        rewrite Hunit in H2. injection H2 as <-. lia.
    + split; [intros ? ? [= <-] Hu; by rewrite Hunit in Hu|].
      split; [done|]. split; [apply add_task_tasks_unchanged|].
      intros Hcids Huids. apply add_task_within_limit.
      intros c u Hc Hu Hcid Huid.
      destruct (find_at_address _ _ _ c u Hcids Huids Hc Hu Hcid Huid) as [H1 H2].
      rewrite Hcourse in H1. injection H1 as <-. by rewrite Hunit in H2.
  - split; [done|]. split; [done|]. split; [apply add_task_tasks_unchanged|].
    intros Hcids Huids. apply add_task_within_limit.
    intros c u Hc Hu Hcid Huid.
    destruct (find_at_address _ _ _ c u Hcids Huids Hc Hu Hcid Huid) as [H1 _].
    by rewrite Hcourse in H1.
Qed.

Lemma addTask_behaviour_witness :
  let s' := addTask "z" "t1" "t1" "t1" "A" "U1" "Read ch.2" noOptions twoCoursesState in
  syncInvariant s' ∧ tasksWithinLimit (courses s') ∧
  allTasks (courses (addTask "z" "t1" "t1" "t1" "A" "U7" "Read ch.2" noOptions
                       twoCoursesState))
  = allTasks (courses twoCoursesState).
Proof.
  destruct (addTask_behaviour "z" "t1" "t1" "t1" "A" "U1" "Read ch.2" noOptions
              twoCoursesState) as (_ & Hsync & _ & Hlimit).
  destruct (addTask_behaviour "z" "t1" "t1" "t1" "A" "U7" "Read ch.2" noOptions
              twoCoursesState) as (_ & _ & Hmissing & _).
  split; [|split].
  - apply Hsync.
    + apply syncInvariantb_spec. vm_compute. reflexivity.
    + apply includes_false. vm_compute. reflexivity.
    + discriminate.
  - apply Hlimit.
    + apply (bool_decide_eq_true_1 _). vm_compute. reflexivity.
    + intros c Hc. unfold twoCoursesState in Hc. simpl in Hc.
      repeat (apply elem_of_cons in Hc as [->|Hc]); [..|by apply elem_of_nil in Hc];
        apply (bool_decide_eq_true_1 _); vm_compute; reflexivity.
    + intros c u Hc Hu. unfold twoCoursesState in Hc. simpl in Hc.
      repeat (apply elem_of_cons in Hc as [->|Hc]); [..|by apply elem_of_nil in Hc];
        simpl in Hu;
        (repeat (apply elem_of_cons in Hu as [->|Hu]); [..|by apply elem_of_nil in Hu]);
        vm_compute; lia.
  - apply Hmissing. intros c u Hc Hu [Hcid Huid]. unfold twoCoursesState in Hc.
    simpl in Hc.
    repeat (apply elem_of_cons in Hc as [->|Hc]); [..|by apply elem_of_nil in Hc];
      simpl in Hu;
      (repeat (apply elem_of_cons in Hu as [->|Hu]); [..|by apply elem_of_nil in Hu]);
      discriminate.
Defined.

(** X7. [addExam] does nothing when no course has the id; at capacity it
    leaves the courses alone and reports the error; it never touches a task;
    and with unique course ids it keeps every course within
    [MAX_EXAMS_PER_COURSE] exams. *)
Theorem addExam_behaviour (examId now courseId title examDateISO : string)
    (s : PlannerState) :
  let s' := addExam examId now courseId title examDateISO s in
  (findCourse (courses s) courseId = None → s' = s) ∧
  (∀ course, findCourse (courses s) courseId = Some course →
     LIMITS.MAX_EXAMS_PER_COURSE ≤ length (course_exams course) →
     courses s' = courses s ∧ error s' = Some "Maksimum 20 sınav ekleyebilirsiniz.") ∧
  (allTasks (courses s') = allTasks (courses s) ∧
   completionState s' = completionState s) ∧
  (uniqueCourseIds (courses s) → examsWithinLimit (courses s) →
   examsWithinLimit (courses s')).
Proof.
  intros s'. subst s'. unfold addExam.
  destruct (findCourse (courses s) courseId) as [course|] eqn:Hfind.
  - destruct (decide (LIMITS.MAX_EXAMS_PER_COURSE ≤ length (course_exams course)))
      as [Hfull|Hroom].
    + split; [done|]. split; [by intros ? [= <-] _|]. by split.
    + split; [done|]. split; [intros ? [= <-] ?; lia|].
      cbn [plannerReducer withCourses courses completionState]. split.
      * split; [|done]. by apply allTasks_mapCourse.
      * intros Hunique Hlimit c' Hc'.
        apply elem_of_mapCourse in Hc' as (c & Hc & [[Hid ->]|[_ ->]]); [|by apply Hlimit].
        apply findCourse_Some in Hfind as [Hcourse Hcid].
        assert (c = course) as ->
          by (apply (NoDup_fmap_same course_id (courses s) c course Hunique Hc Hcourse);
              congruence).
        simpl. rewrite length_app. simpl. lia.
  - split; [done|]. split; [done|]. by split.
Qed.

Lemma addExam_behaviour_witness :
  examsWithinLimit (courses (addExam "e1" "t1" "B" "Final" "2024-06-01" twoCoursesState)) ∧
  addExam "e1" "t1" "Z" "Final" "2024-06-01" twoCoursesState = twoCoursesState.
Proof.
  destruct (addExam_behaviour "e1" "t1" "B" "Final" "2024-06-01" twoCoursesState)
    as (_ & _ & _ & Hlimit).
  destruct (addExam_behaviour "e1" "t1" "Z" "Final" "2024-06-01" twoCoursesState)
    as (Hmissing & _).
  split; [|by apply Hmissing].
  apply Hlimit.
  - apply (bool_decide_eq_true_1 _). vm_compute. reflexivity.
  - intros c Hc. unfold twoCoursesState in Hc. simpl in Hc.
    repeat (apply elem_of_cons in Hc as [->|Hc]); [..|by apply elem_of_nil in Hc];
      vm_compute; lia.
Defined.

(** ** The undo stack under every action *)

Lemma slice_tail_bounded {A} (l : list A) (k : nat) :
  0 < k → length (slice l (- Z.of_nat k) None) ≤ k.
Proof.
  intros Hk. destruct (decide (length l ≤ k)) as [Hshort|Hlong].
  - by rewrite slice_tail_short.
  - rewrite slice_tail_long by lia. rewrite length_drop. lia.
Qed.

(** X8. No reducer action takes the undo stack beyond [MAX_UNDO_STACK]
    entries, LOAD_DATA apart, which installs the stack it is given. *)
Theorem undo_stack_bounded (now : string) (s : PlannerState) (a : PlannerAction) :
  length (undoStack s) ≤ LIMITS.MAX_UNDO_STACK →
  (∀ payload, a = LOAD_DATA payload →
     length (load_undoStack payload) ≤ LIMITS.MAX_UNDO_STACK) →
  length (undoStack (plannerReducer now s a)) ≤ LIMITS.MAX_UNDO_STACK.
Proof.
  intros Hlen Hload. unfold LIMITS.MAX_UNDO_STACK in *.
  destruct a; cbn [plannerReducer]; try done.
  - by apply (Hload payload).
  - destruct (decide (status = Done)), (includes _ _); done.
  - destruct (decide (length (undoStack s) = 0)); [done|].
    destruct (undoStack s !! (length (undoStack s) - 1)); [|done].
    cbn [withUndoStack undoStack]. unfold slice, slice_index. simpl.
    rewrite length_take, length_drop. lia.
  - cbn [withUndoStack undoStack]. rewrite length_app. simpl.
    pose proof (slice_tail_bounded (undoStack s) 14 ltac:(lia)) as Hb.
    change (- Z.of_nat LIMITS.MAX_UNDO_STACK + 1)%Z with (- Z.of_nat 14)%Z. lia.
  - simpl. lia.
Qed.

Lemma undo_stack_bounded_witness :
  length (undoStack (plannerReducer "t1" oneTaskState (TOGGLE_TASK_COMPLETION "x"))) ≤ 15.
Proof.
  apply (undo_stack_bounded "t1" oneTaskState (TOGGLE_TASK_COMPLETION "x")).
  - vm_compute. lia.
  - intros payload Heq. discriminate.
Defined.

(** ** Deleting courses and units *)

(** X9. [deleteCourse] and [deleteUnit] leave the completion state alone and
    keep the agreement of the completion set with the status fields.  The
    completed ids of the tasks they delete stay behind: after [deleteCourse]
    every completed id still names a stored task exactly when each completed
    task of the deleted courses shares its id with a task that remains. *)
Theorem delete_course_unit_orphans (now id courseId unitId : string) (s : PlannerState) :
  let s1 := deleteCourse now id s in
  let s2 := deleteUnit now courseId unitId s in
  completionState s1 = completionState s ∧ completionState s2 = completionState s ∧
  (syncInvariant s → syncInvariant s1 ∧ syncInvariant s2) ∧
  (refInvariant (courses s) (completionState s) →
   (refInvariant (courses s1) (completionState s1) ↔
    ∀ t, t ∈ allTasks (filter (λ c, course_id c = id) (courses s)) →
         task_id t ∈ completedTaskIds (completionState s) →
         task_id t ∈ taskIds (courses s1))).
Proof.
  cbv zeta. unfold deleteCourse, deleteUnit.
  cbn [plannerReducer withCourses completionState courses].
  split; [done|]. split; [done|]. split; [|intros Href; split].
  - intros Hsync. split.
    + intros c u t Hc Hu Ht. apply list_elem_of_filter in Hc as [_ Hc].
      by apply (Hsync c u).
    + intros c' u' t Hc' Hu' Ht.
      apply elem_of_mapCourse in Hc' as (c & Hc & [[_ ->]|[_ ->]]);
        [|by apply (Hsync c u')].
      cbn [touchCourse withUnits course_units] in Hu'.
      apply list_elem_of_filter in Hu' as [_ Hu']. by apply (Hsync c u').
  - intros Hafter t _ Hdone. by apply Hafter.
  - intros Hkept taskId Hdone. pose proof (Href taskId Hdone) as Hin.
    apply elem_of_taskIds in Hin as (c & u & t & Hc & Hu & Ht & <-).
    destruct (decide (course_id c = id)) as [Hid|Hother].
    + apply Hkept; [|done]. apply elem_of_allTasks. exists c, u.
      split; [|done]. rewrite list_elem_of_filter. done.
    + apply elem_of_taskIds. exists c, u, t. split; [|done].
      rewrite list_elem_of_filter. done.
Qed.

Lemma delete_course_unit_orphans_witness :
  syncInvariant (deleteUnit "t1" "B" "U2" twoCoursesState) ∧
  refInvariant (courses (deleteCourse "t1" "A" twoCoursesState))
    (completionState (deleteCourse "t1" "A" twoCoursesState)).
Proof.
  destruct (delete_course_unit_orphans "t1" "A" "B" "U2" twoCoursesState)
    as (_ & _ & Hsync & Href).
  split.
  - apply Hsync. apply syncInvariantb_spec. vm_compute. reflexivity.
  - apply Href; [apply refInvariantb_spec; vm_compute; reflexivity|].
    refine (proj1 (Forall_forall _ _) _). apply (bool_decide_eq_true_1 _).
    vm_compute. reflexivity.
Defined.

(** ** Personal tasks *)

Lemma length_substring (n : nat) (text : string) :
  String.length (String.substring 0 n text) = n `min` String.length text.
Proof.
  revert n. induction text as [|a text IH]; intros [|n]; simpl; try done.
  by rewrite IH.
Qed.

Lemma prefix_substring (n : nat) (text : string) :
  String.prefix (String.substring 0 n text) text = true.
Proof.
  revert n. induction text as [|a text IH]; intros [|n]; simpl; try done.
  destruct (Ascii.ascii_dec a a); [apply IH|done].
Qed.

(** X10. [addPersonalTask] has no capacity check: it always appends one task
    and touches nothing else.  The text of the task is the text given cut
    down to its first [MAX_TASK_TEXT_LENGTH] characters, unless [options]
    carries a text: that one is stored as it is, however long. *)
Theorem addPersonalTask_text_limit (taskId createdAt updatedAt now text : string)
    (options : PartialTask) (s : PlannerState) :
  let task := newTask taskId createdAt updatedAt text options in
  let s' := addPersonalTask taskId createdAt updatedAt now text options s in
  personalTasks s' = personalTasks s ++ [task] ∧
  courses s' = courses s ∧ error s' = error s ∧
  (pt_text options = None →
   String.prefix (task_text task) text = true ∧
   String.length (task_text task)
   = LIMITS.MAX_TASK_TEXT_LENGTH `min` String.length text) ∧
  (∀ given, pt_text options = Some given → task_text task = given).
Proof.
  cbv zeta. unfold addPersonalTask.
  cbn [plannerReducer withPersonalTasks personalTasks courses error].
  split; [done|]. split; [done|]. split; [done|]. unfold newTask. cbn [task_text].
  split.
  - intros ->. cbn [default]. split; [apply prefix_substring|apply length_substring].
  - by intros given ->.
Qed.

Lemma addPersonalTask_text_limit_witness :
  String.length
    (task_text (newTask "z" "t1" "t1" "Read ch.2" noOptions)) = 9.
Proof.
  destruct (addPersonalTask_text_limit "z" "t1" "t1" "t1" "Read ch.2" noOptions oneTaskState)
    as (_ & _ & _ & Hcut & _).
  destruct (Hcut eq_refl) as [_ ->]. reflexivity.
Defined.

(** ** What can be undone *)

(** X11. [canUndo] tells whether [undo] does anything: with [canUndo] false
    [undo] returns the state it was given, with [canUndo] true it takes
    exactly one snapshot off the stack and touches the courses not at all.
    After [importData] nothing can be undone. *)
Theorem canUndo_undo (now : string) (s : PlannerState) :
  (canUndo s = false → undo now s = s) ∧
  (canUndo s = true →
   S (length (undoStack (undo now s))) = length (undoStack s) ∧
   undoStack (undo now s) `prefix_of` undoStack s ∧
   courses (undo now s) = courses s) ∧
  (∀ now' cs completion ptasks, canUndo (importData now' cs completion ptasks s) = false).
Proof.
  unfold canUndo, undo. split; [|split].
  - intros Hempty%bool_decide_eq_false. cbn [plannerReducer].
    by rewrite decide_True by lia.
  - intros Hsome%bool_decide_eq_true.
    destruct (exists_last (l := undoStack s)) as (rest & snap & Hstack);
      [by intros Hnil; rewrite Hnil in Hsome; simpl in Hsome; lia|].
    rewrite (undo_pops now s rest snap Hstack), Hstack.
    cbn [withUndoStack withCompletionState undoStack courses].
    rewrite length_app. simpl. split; [lia|]. split; [|done].
    by apply prefix_app_r.
  - done.
Qed.

Lemma canUndo_undo_witness :
  undo "t9" oneTaskState = oneTaskState ∧
  S (length (undoStack (undo "t9" (toggleTaskCompletion "t1" "t2" "x" oneTaskState))))
  = length (undoStack (toggleTaskCompletion "t1" "t2" "x" oneTaskState)).
Proof.
  split.
  - by apply (canUndo_undo "t9" oneTaskState).
  - destruct (canUndo_undo "t9" (toggleTaskCompletion "t1" "t2" "x" oneTaskState))
      as (_ & Hpop & _).
    by destruct (Hpop eq_refl) as [-> _].
Defined.

(** ** Progress of a course *)

Lemma fold_progress_units (completedIds : list string) (us : list Unit) (acc : Z * Z) :
  fold_left (λ acc unit, fold_left (progressStep completedIds) (unit_tasks unit) acc) us acc
  = fold_left (progressStep completedIds) (us ≫= unit_tasks) acc.
Proof.
  revert acc. induction us as [|u us IH]; intros acc; [done|].
  rewrite bind_cons, fold_left_app. simpl. apply IH.
Qed.

Lemma fold_progress_tasks (completedIds : list string) (ts : list Task) (total completed : Z) :
  fold_left (progressStep completedIds) ts (total, completed)
  = ((total + Z.of_nat (length ts))%Z,
     (completed + Z.of_nat (length (filter (λ t, task_id t ∈ completedIds) ts)))%Z).
Proof.
  revert total completed. induction ts as [|t ts IH]; intros total completed.
  - simpl. f_equal; lia.
  - cbn [fold_left progressStep]. rewrite filter_cons. unfold includes.
    destruct (decide (task_id t ∈ completedIds)) as [Hin|Hout].
    + rewrite bool_decide_eq_true_2 by done. rewrite IH. cbn [length]. f_equal; lia.
    + rewrite bool_decide_eq_false_2 by done. rewrite IH. cbn [length]. f_equal; lia.
Qed.

Lemma filter_agree {A} (P Q : A → Prop) `{!∀ x, Decision (P x)} `{!∀ x, Decision (Q x)}
    (l : list A) :
  (∀ x, x ∈ l → (P x ↔ Q x)) → filter P l = filter Q l.
Proof.
  induction l as [|x l IH]; intros Hagree; [done|].
  rewrite !filter_cons, IH by (intros y Hy; apply Hagree; by right).
  assert (P x ↔ Q x) as Hx by (apply Hagree; by left).
  destruct (decide (P x)), (decide (Q x)); tauto.
Qed.

Section CourseProgress.
Context {R : Type} `{JsNumber R}.

(** X12. [calculateCourseProgress] counts every task of the course once in
    [total] and the tasks whose id is in the completion set in [completed],
    so [0 ≤ completed ≤ total]; a course without tasks has percentage 0; and
    in a state where the completion set agrees with the status fields,
    [completed] is the number of the course's tasks whose status is
    ['done']. *)
Theorem calculateCourseProgress_counts (course : Course) (completedIds : list string) :
  let progress := calculateCourseProgress (R := R) course completedIds in
  progress_total progress = Z.of_nat (length (courseTasks course)) ∧
  progress_completed progress
    = Z.of_nat (length (filter (λ t, task_id t ∈ completedIds) (courseTasks course))) ∧
  (0 ≤ progress_completed progress ≤ progress_total progress)%Z ∧
  (courseTasks course = [] → progress_percentage progress = num_lit 0) ∧
  (∀ s, syncInvariant s → course ∈ courses s →
        completedIds = completedTaskIds (completionState s) →
        progress_completed progress
          = Z.of_nat (length (filter (λ t, task_status t = Done) (courseTasks course)))).
Proof.
  intros progress. subst progress. unfold calculateCourseProgress.
  rewrite fold_progress_units, fold_progress_tasks. fold (courseTasks course).
  cbn [progress_total progress_completed progress_percentage].
  rewrite !Z.add_0_l.
  split; [done|]. split; [done|]. split; [|split].
  - pose proof (length_filter (λ t, task_id t ∈ completedIds) (courseTasks course)). lia.
  - intros ->. by rewrite decide_True by done.
  - intros s Hsync Hcourse ->. do 2 f_equal. apply filter_agree.
    intros t Ht. unfold courseTasks in Ht.
    apply list_elem_of_bind in Ht as (u & Ht & Hu). by apply (Hsync course u t).
Qed.
End CourseProgress.

Lemma calculateCourseProgress_counts_witness :
  let course := sampleCourse "B" [sampleUnit "U2" [sampleTask "y" Done]] in
  progress_completed (calculateCourseProgress (R := Q) course ["y"]) = 1%Z.
Proof.
  intros course.
  destruct (calculateCourseProgress_counts (R := Q) course ["y"])
    as (_ & _ & _ & _ & Hdone).
  rewrite (Hdone twoCoursesState); [reflexivity| |by right; left|reflexivity].
  apply syncInvariantb_spec. vm_compute. reflexivity.
Defined.

(** ** Counting tasks by status *)

Lemma statusName_inj s1 s2 : statusName s1 = statusName s2 → s1 = s2.
Proof. by destruct s1, s2. Qed.

Lemma fold_count_by_status (tasks : list Task) (acc : gmap string Z) (key : string) :
  fold_left
    (λ acc task,
       <[statusName (task_status task) :=
           (default 0 (acc !! statusName (task_status task)) + 1)%Z]> acc)
    tasks acc !! key
  = match length (filter (λ t, statusName (task_status t) = key) tasks) with
    | 0 => acc !! key
    | S n => Some (default 0 (acc !! key) + Z.of_nat (S n))%Z
    end.
Proof.
  revert acc. induction tasks as [|t tasks IH]; intros acc; [done|].
  cbn [fold_left]. rewrite IH, filter_cons.
  destruct (decide (statusName (task_status t) = key)) as [<-|Hne].
  - cbn [length]. rewrite lookup_insert_eq. cbn [default from_option id].
    destruct (length _); f_equal; lia.
  - by rewrite lookup_insert_ne.
Qed.

(** X13. [getTaskCountByStatus] maps the name of each status that occurs to
    the number of tasks in that status and has no other key: a status without
    task is absent, not 0. *)
Theorem getTaskCountByStatus_counts (tasks : list Task) :
  (∀ status,
     getTaskCountByStatus tasks !! statusName status
     = match length (filter (λ t, task_status t = status) tasks) with
       | 0 => None
       | S n => Some (Z.of_nat (S n))
       end) ∧
  (∀ key, (∀ status, key ≠ statusName status) → getTaskCountByStatus tasks !! key = None).
Proof.
  split.
  - intros status. unfold getTaskCountByStatus. rewrite fold_count_by_status.
    rewrite (filter_agree (λ t, statusName (task_status t) = statusName status)
               (λ t, task_status t = status))
      by (intros t _; split; [apply statusName_inj|by intros ->]).
    rewrite lookup_empty. by destruct (length _).
  - intros key Hkey. unfold getTaskCountByStatus. rewrite fold_count_by_status.
    assert (filter (λ t, statusName (task_status t) = key) tasks = []) as ->; [|done].
    apply elem_of_nil_inv. intros t Ht. apply list_elem_of_filter in Ht as [Hname _].
    by apply (Hkey (task_status t)).
Qed.

Lemma getTaskCountByStatus_counts_witness :
  getTaskCountByStatus [sampleTask "a" Todo; sampleTask "b" Done; sampleTask "c" Todo]
    !! "priority" = None.
Proof.
  destruct (getTaskCountByStatus_counts
              [sampleTask "a" Todo; sampleTask "b" Done; sampleTask "c" Todo])
    as [_ Hother].
  apply Hother. by intros [].
Defined.

(** * Further properties of the habits store *)

Section HabitsStore.
Import HabitsContext HabitsProvider.

Lemma NoDup_day_replaced (logs : list HabitLog) (log : HabitLog) :
  NoDup (log_dateISO <$> logs) →
  NoDup (log_dateISO <$> (filter (λ l, log_dateISO l ≠ log_dateISO log) logs ++ [log])).
Proof.
  intros Hnd. rewrite fmap_app. apply NoDup_app. split; [|split].
  - induction logs as [|l logs IH]; [apply NoDup_nil_2|].
    rewrite fmap_cons in Hnd. apply NoDup_cons in Hnd as [Hl Hnd].
    rewrite filter_cons. destruct (decide (log_dateISO l ≠ log_dateISO log)); [|by apply IH].
    rewrite fmap_cons. apply NoDup_cons. split; [|by apply IH].
    intros Hin. apply Hl. apply list_elem_of_fmap in Hin as (l' & Heq & Hl').
    apply list_elem_of_filter in Hl' as [_ Hl']. rewrite Heq. by apply list_elem_of_fmap_2.
  - intros d Hd Hd'. simpl in Hd'. apply list_elem_of_singleton in Hd' as ->.
    apply list_elem_of_fmap in Hd as (l & Heq & Hl).
    apply list_elem_of_filter in Hl as [Hne _]. by apply Hne.
  - simpl. apply NoDup_singleton.
Qed.

(** X14. The habits reducer keeps at most one log per habit and day under
    every action but LOAD_DATA and IMPORT_HABITS, which install the logs they
    are given. *)
Theorem one_log_per_day_kept (now : string) (s : HabitsState) (a : HabitsAction) :
  oneLogPerDay s →
  (∀ hs logs, a ≠ LOAD_DATA hs logs) → (∀ hs logs, a ≠ IMPORT_HABITS hs logs) →
  oneLogPerDay (habitsReducer now s a).
Proof.
  intros Hone Hload Himport.
  destruct a as [hs0 logs0| | | | | | | | | |hs0 logs0]; cbn [habitsReducer]; try done.
  - by destruct (Hload hs0 logs0).
  - intros habitId logs. cbn [withHabitLogs withHabits HabitsContext.habitLogs].
    intros Hlogs. apply lookup_delete_Some in Hlogs as [_ Hlogs]. by apply (Hone habitId).
  - intros habitId logs. cbn [withHabitLogs HabitsContext.habitLogs]. intros Hlogs.
    destruct (decide (habitId = log_habitId payload)) as [->|Hne].
    + rewrite lookup_insert_eq in Hlogs. injection Hlogs as <-.
      apply NoDup_day_replaced.
      destruct (HabitsContext.habitLogs s !! log_habitId payload) as [old|] eqn:Hold.
      * by apply (Hone (log_habitId payload)).
      * apply NoDup_nil_2.
    + rewrite lookup_insert_ne in Hlogs by done. by apply (Hone habitId).
  - by destruct (Himport hs0 logs0).
Qed.

Lemma one_log_per_day_kept_witness :
  oneLogPerDay (logHabit "t2" true "h" 19727 (Some true) None
                  (logHabit "t1" true "h" 19727 None None initialState)).
Proof.
  unfold logHabit. apply one_log_per_day_kept; [|discriminate|discriminate].
  apply one_log_per_day_kept; [|discriminate|discriminate].
  intros habitId logs Hlogs. unfold initialState in Hlogs.
  cbn [HabitsContext.habitLogs] in Hlogs. by rewrite lookup_empty in Hlogs.
Defined.

Lemma groupLogs_fold (logs : list HabitLog) (acc : gmap string (list HabitLog))
    (habitId : string) :
  fold_left
    (λ newLogs log,
       let existing := default [] (newLogs !! log_habitId log) in
       <[log_habitId log := existing ++ [log]]> newLogs)
    logs acc !! habitId
  = match filter (λ l, log_habitId l = habitId) logs with
    | [] => acc !! habitId
    | l :: ls => Some (default [] (acc !! habitId) ++ l :: ls)
    end.
Proof.
  revert acc. induction logs as [|log logs IH]; intros acc; [done|].
  cbn [fold_left]. rewrite IH, filter_cons.
  destruct (decide (log_habitId log = habitId)) as [<-|Hne].
  - rewrite lookup_insert_eq. cbn [default from_option id].
    destruct (filter _ logs); [done|]. by rewrite <- app_assoc.
  - by rewrite lookup_insert_ne.
Qed.

(** X15. After IMPORT_HABITS the logs kept for a habit are the imported logs
    of that habit, in the order of the import; the habits are the imported
    ones and whatever was logged before is gone. Several logs of one day are
    all kept. *)
Theorem import_habits_groups (now : string) (hs : list Habit) (logs : list HabitLog)
    (s : HabitsState) :
  let s' := importHabits now hs logs s in
  habits s' = hs ∧
  (∀ habitId, getHabitLogs s' habitId = filter (λ l, log_habitId l = habitId) logs) ∧
  (NoDup ((λ l, (log_habitId l, log_dateISO l)) <$> logs) → oneLogPerDay s').
Proof.
  intros s'. subst s'. unfold importHabits.
  assert (∀ habitId,
            getHabitLogs (habitsReducer now s (IMPORT_HABITS hs logs)) habitId
            = filter (λ l, log_habitId l = habitId) logs) as Hgroup.
  { intros habitId. unfold getHabitLogs.
    cbn [habitsReducer withHabitLogs withHabits HabitsContext.habitLogs].
    unfold groupLogs. rewrite groupLogs_fold, lookup_empty.
    by destruct (filter _ logs). }
  split; [done|]. split; [done|].
  intros Hnd habitId group Hlookup.
  assert (group = filter (λ l, log_habitId l = habitId) logs) as ->.
  { rewrite <- Hgroup. unfold getHabitLogs. by rewrite Hlookup. }
  clear Hlookup Hgroup. induction logs as [|l logs IH]; [apply NoDup_nil_2|].
  rewrite fmap_cons in Hnd. apply NoDup_cons in Hnd as [Hl Hnd].
  rewrite filter_cons. destruct (decide (log_habitId l = habitId)) as [Hid|]; [|by apply IH].
  rewrite fmap_cons. apply NoDup_cons. split; [|by apply IH].
  intros Hin. apply Hl. apply list_elem_of_fmap in Hin as (l' & Heq & Hl').
  apply list_elem_of_filter in Hl' as [Hid' Hl']. apply list_elem_of_fmap.
  exists l'. split; [|done]. by rewrite Hid, Hid', Heq.
Qed.

Lemma import_habits_groups_witness :
  oneLogPerDay (importHabits "t1" [mwfHabit] threeWeeksLogs initialState).
Proof.
  destruct (import_habits_groups "t1" [mwfHabit] threeWeeksLogs initialState)
    as (_ & _ & Hone).
  apply Hone. apply (bool_decide_eq_true_1 _). vm_compute. reflexivity.
Defined.

(** X16. DELETE_HABIT removes the habits of that id and the logs kept under
    it, and nothing else; [deleteHabit] whose record-store deletion fails
    removes neither the habit nor its logs and reports the error. *)
Theorem deleteHabit_cascade (now : string) (id : string) (s : HabitsState) :
  let s' := deleteHabit now true id s in
  (∀ h, h ∈ habits s' ↔ h ∈ habits s ∧ habit_id h ≠ id) ∧
  getHabitLogs s' id = [] ∧
  (∀ other, other ≠ id → getHabitLogs s' other = getHabitLogs s other) ∧
  (let failed := deleteHabit now false id s in
   habits failed = habits s ∧ habitLogs failed = habitLogs s ∧
   error failed = Some "Alışkanlık silinemedi.").
Proof.
  intros s'. subst s'. unfold deleteHabit, getHabitLogs.
  cbn [habitsReducer withHabitLogs withHabits HabitsContext.habitLogs habits].
  split; [|split; [|split]].
  - intros h. rewrite list_elem_of_filter. tauto.
  - by rewrite lookup_delete_eq.
  - intros other Hne. by rewrite lookup_delete_ne.
  - done.
Qed.

Lemma deleteHabit_cascade_witness :
  let s := logHabit "t1" true "h" 19727 (Some true) None
             (logHabit "t0" true "g" 19727 (Some true) None initialState) in
  getHabitLogs (deleteHabit "t2" true "h" s) "g" = getHabitLogs s "g".
Proof.
  intros s. destruct (deleteHabit_cascade "t2" "h" s) as (_ & _ & Hother & _).
  apply Hother. discriminate.
Defined.

(** X17. [addHabit] at capacity leaves the habits alone and reports the
    error; below it appends one habit, unarchived, in manual order at the
    end of the list, with the default emoji when none (or an empty one) was
    given; either way it keeps the list within [MAX_HABITS] and leaves the
    logs alone. *)
Theorem addHabit_behaviour (habitId : string) (createdAt : Z) (updatedAt : string)
    (habitData : HabitData) (s : HabitsState) :
  let s' := addHabit habitId createdAt updatedAt habitData s in
  (LIMITS.MAX_HABITS ≤ length (habits s) →
   habits s' = habits s ∧ error s' = Some "Maksimum 50 alışkanlık ekleyebilirsiniz.") ∧
  (length (habits s) < LIMITS.MAX_HABITS →
   ∃ h, habits s' = habits s ++ [h] ∧ habit_id h = habitId ∧
        habit_isArchived h = false ∧
        habit_manualOrder h = Some (Z.of_nat (length (habits s))) ∧
        habit_frequency h = data_frequency habitData ∧
        (data_emoji habitData = None ∨ data_emoji habitData = Some "" →
         habit_emoji h = "✨") ∧
        is_Some (habit_color h)) ∧
  (length (habits s) ≤ LIMITS.MAX_HABITS → length (habits s') ≤ LIMITS.MAX_HABITS) ∧
  habitLogs s' = habitLogs s.
Proof.
  intros s'. subst s'. unfold addHabit.
  destruct (decide (LIMITS.MAX_HABITS ≤ length (habits s))) as [Hfull|Hroom].
  - split; [done|]. split; [intros; lia|]. by split.
  - split; [intros; lia|].
    cbn [habitsReducer withHabits habits HabitsContext.habitLogs]. split; [|split; [|done]].
    + intros _. eexists. split; [reflexivity|].
      cbn [habit_id habit_isArchived habit_manualOrder habit_frequency habit_emoji
           habit_color].
      repeat (split; [done|]). split.
      * by intros [->| ->].
      * assert (is_Some (HABIT_COLORS !! (length (habits s) mod length HABIT_COLORS)))
          as Hcolor by (apply lookup_lt_is_Some, Nat.mod_upper_bound; done).
        unfold orColor. destruct (data_color habitData) as [color|]; [|done].
        by destruct (decide (color = "")).
    + intros _. rewrite length_app. simpl. lia.
Qed.

Lemma addHabit_behaviour_witness :
  let data := {| data_title := "Read"; data_description := None; data_emoji := Some "";
                 data_type := Boolean; data_frequency := WeeklyTarget 3;
                 data_target := None; data_unit := None; data_color := None |} in
  habit_emoji <$> habits (addHabit "h1" 0 "t1" data initialState) = ["✨"].
Proof.
  intros data.
  destruct (addHabit_behaviour "h1" 0 "t1" data initialState) as (_ & Hroom & _).
  destruct Hroom as (h & Hhabits & _ & _ & _ & _ & Hemoji & _);
    [vm_compute; lia|].
  rewrite Hhabits. simpl. f_equal. apply Hemoji. by right.
Defined.
(** ** Archiving *)

Lemma archived_ids now id (archived : bool) (hs : list Habit) (keep : Habit → Prop)
    `{!∀ h, Decision (keep h)} :
  (∀ h, keep h ↔
        habit_isArchived (if decide (habit_id h = id) then withArchived h archived now else h)
        = true) →
  habit_id <$> filter (λ h, habit_isArchived h = true)
                 ((λ h, if decide (habit_id h = id) then withArchived h archived now else h)
                    <$> hs)
  = habit_id <$> filter keep hs.
Proof.
  intros Hkeep. induction hs as [|h hs IH]; [done|].
  rewrite fmap_cons, !filter_cons.
  destruct (decide (keep h)) as [Hk|Hk]; pose proof Hk as Hk'; rewrite Hkeep in Hk'.
  - rewrite decide_True by done. rewrite !fmap_cons, IH. f_equal.
    by destruct (decide (habit_id h = id)).
  - rewrite decide_False by done. apply IH.
Qed.

(** X18. [archiveHabit] and [unarchiveHabit] keep the habits, their order and
    the logs, and change nothing at all for an id that no habit has.  The
    archived habits after [archiveHabit] are those of that id and those
    archived before; after a following [unarchiveHabit] of the same id they
    are the other habits archived before, so a habit that was archived
    already does not come back archived. *)
Theorem archive_round_trip (now1 now2 : string) (id : string) (s : HabitsState) :
  let archived := archiveHabit now1 id s in
  let restored := unarchiveHabit now2 id archived in
  habit_id <$> habits archived = habit_id <$> habits s ∧
  habitLogs archived = habitLogs s ∧
  (id ∉ habit_id <$> habits s → archived = s) ∧
  habit_id <$> getArchivedHabits archived
  = habit_id <$> filter (λ h, habit_id h = id ∨ habit_isArchived h = true) (habits s) ∧
  habit_id <$> getArchivedHabits restored
  = habit_id <$> filter (λ h, habit_id h ≠ id ∧ habit_isArchived h = true) (habits s).
Proof.
  cbv zeta. unfold archiveHabit, unarchiveHabit, getArchivedHabits.
  cbn [habitsReducer withHabits habits habitLogs].
  split; [|split; [done|split; [|split]]].
  - rewrite <- list_fmap_compose. apply list_fmap_ext. intros i h _. simpl.
    by destruct (decide (habit_id h = id)).
  - intros Hfresh. destruct s as [hs logs loading err]. unfold withHabits.
    cbn [habits habitLogs HabitsContext.isLoading HabitsContext.error] in *. f_equal.
    etrans; [|apply list_fmap_id]. apply list_fmap_ext. intros i h Hh. simpl.
    destruct (decide (habit_id h = id)) as [Hid|]; [|done].
    destruct Hfresh. apply list_elem_of_fmap. exists h. split; [done|].
    by eapply list_elem_of_lookup_2.
  - apply archived_ids. intros h.
    destruct (decide (habit_id h = id)); cbn [withArchived habit_isArchived]; tauto.
  - rewrite <- list_fmap_compose.
    rewrite (list_fmap_ext _ (λ h, if decide (habit_id h = id)
                                   then withArchived h false now2 else h) (habits s)).
    + apply archived_ids. intros h.
      destruct (decide (habit_id h = id)); cbn [withArchived habit_isArchived];
        intuition congruence.
    + intros i h _. simpl. destruct (decide (habit_id h = id)) as [Hid|Hid].
      * cbn [withArchived habit_id]. rewrite decide_True by done. done.
      * by rewrite decide_False by done.
Qed.

Lemma archive_round_trip_witness :
  archiveHabit "t1" "h" initialState = initialState.
Proof.
  destruct (archive_round_trip "t1" "t2" "h" initialState) as (_ & _ & Hsame & _).
  apply Hsame. vm_compute. by intros ?%elem_of_nil.
Defined.

End HabitsStore.

(** * Further properties of the statistics *)

Open Scope Z_scope.

(** ** The streak loop as a walk over due days *)

Lemma streakWalk_flags w (due comp : Z → bool) (turns : list Z) (index : Z) v :
  (∀ i, i ∈ turns → (i <? 30) = (index <? 30)) →
  streakWalk w due comp turns v
  = flagWalk w index (comp <$> filter (λ i, due i = true) turns) v.
Proof.
  revert v. induction turns as [|i turns IH]; intros v Hside; [done|].
  cbn [streakWalk fold_left]. rewrite filter_cons.
  assert ((i <? 30) = (index <? 30)) as Hi by (apply Hside; by left).
  assert (∀ v', fold_left (λ v i, streakUpdate w (due i) (comp i) i v) turns v'
                = flagWalk w index (comp <$> filter (λ i, due i = true) turns) v') as IH'
    by (intros v'; apply IH; intros j Hj; apply Hside; by right).
  rewrite IH'. destruct (due i) eqn:Hdue.
  - rewrite decide_True by done. rewrite fmap_cons. cbn [flagWalk fold_left].
    f_equal. unfold streakUpdate. by rewrite Hi.
  - by rewrite decide_False by done.
Qed.

Lemma dueFlags_walked {zone : HostZone} habit logs endDate from n :
  dueFlags habit logs (walkedDays endDate from n)
  = (λ i, isHabitCompleted habit (logMapOf logs !! walkedDay endDate i))
      <$> filter (λ i, isHabitDueOnDate habit (walkedDay endDate i) = true) (seqZ from n).
Proof.
  unfold dueFlags, walkedDays. induction (seqZ from n) as [|i l IH]; [done|].
  rewrite fmap_cons, !filter_cons.
  destruct (decide (isHabitDueOnDate habit (walkedDay endDate i) = true)); [|done].
  by rewrite !fmap_cons, IH.
Qed.

(** The loop of [calculateHabitStreak] is the walk over the due days of the
    30 latest days followed by the walk over the due days of the 335 days
    before. *)
Lemma calculateHabitStreak_flags {zone : HostZone} habit logs endDate :
  calculateHabitStreak habit logs endDate
  = let final :=
      flagWalk (isWeeklyTarget habit) 30
        (dueFlags habit logs (walkedDays endDate 30 335))
        (flagWalk (isWeeklyTarget habit) 0
           (dueFlags habit logs (walkedDays endDate 0 30)) streakStart) in
    {| current := currentStreak final;
       best := Z.max (bestStreak final) (tempStreak final) |}.
Proof.
  rewrite calculateHabitStreak_walk. cbv zeta.
  change 365 with (30 + 335). rewrite (seqZ_app 0 30 335) by lia.
  rewrite streakWalk_app.
  rewrite (streakWalk_flags _ _ _ (seqZ 0 30) 0)
    by (intros i Hi; apply elem_of_seqZ in Hi; simpl; apply Z.ltb_lt; lia).
  rewrite (streakWalk_flags _ _ _ (seqZ (0 + 30) 335) 30)
    by (intros i Hi; apply elem_of_seqZ in Hi; simpl; apply Z.ltb_ge; lia).
  by rewrite !dueFlags_walked.
Qed.

Lemma flagWalk_app w index flags1 flags2 v :
  flagWalk w index (flags1 ++ flags2) v
  = flagWalk w index flags2 (flagWalk w index flags1 v).
Proof. unfold flagWalk. apply fold_left_app. Qed.

Lemma flagWalk_late_current w flags v :
  currentStreak (flagWalk w 30 flags v) = currentStreak v.
Proof.
  revert v. induction flags as [|b flags IH]; intros v; [done|].
  change (flagWalk w 30 (b :: flags) v)
    with (flagWalk w 30 flags (streakUpdate w true b 30 v)).
  rewrite IH. unfold streakUpdate. destruct b, w; try done.
  by destruct (7 <? consecutiveMisses v + 1).
Qed.

Lemma flagWalk_cons w index b flags v :
  flagWalk w index (b :: flags) v = flagWalk w index flags (streakUpdate w true b index v).
Proof. done. Qed.

(** ** Streaks without completed days, and with some *)

Lemma flagWalk_all_missed w index flags v :
  Forall (λ b, b = false) flags →
  tempStreak v = 0 → bestStreak v = 0 →
  let v' := flagWalk w index flags v in
  tempStreak v' = 0 ∧ bestStreak v' = 0 ∧ currentStreak v' = currentStreak v.
Proof.
  revert v. induction flags as [|b flags IH]; intros v Hall Ht Hb; [done|].
  apply Forall_cons in Hall as [-> Hall]. rewrite flagWalk_cons. cbv zeta.
  destruct (IH (streakUpdate w true false index v) Hall) as (H1 & H2 & H3).
  - unfold streakUpdate. destruct w; [destruct (7 <? _)|]; done.
  - unfold streakUpdate. destruct w; [destruct (7 <? _)|]; simpl; lia.
  - split; [done|]. split; [done|]. rewrite H3.
    unfold streakUpdate. destruct w; [destruct (7 <? _)|]; done.
Qed.

Lemma flagWalk_top_grows w index flags v :
  0 ≤ tempStreak v → 0 ≤ bestStreak v →
  let v' := flagWalk w index flags v in
  0 ≤ tempStreak v' ∧ 0 ≤ bestStreak v' ∧
  Z.max (bestStreak v) (tempStreak v) ≤ Z.max (bestStreak v') (tempStreak v').
Proof.
  revert v. induction flags as [|b flags IH]; intros v Ht Hb; [cbv zeta; simpl; lia|].
  rewrite flagWalk_cons. cbv zeta.
  destruct (IH (streakUpdate w true b index v)) as (H1 & H2 & H3).
  - unfold streakUpdate. destruct b, w; try destruct (7 <? _); simpl; lia.
  - unfold streakUpdate. destruct b, w; try destruct (7 <? _); simpl; lia.
  - split; [done|]. split; [done|]. etrans; [|exact H3].
    unfold streakUpdate. destruct b, w; try destruct (7 <? _); simpl; lia.
Qed.

Lemma flagWalk_some_completed w index flags v :
  0 ≤ tempStreak v → 0 ≤ bestStreak v → true ∈ flags →
  1 ≤ Z.max (bestStreak (flagWalk w index flags v)) (tempStreak (flagWalk w index flags v)).
Proof.
  revert v. induction flags as [|b flags IH]; intros v Ht Hb Hin;
    [by apply elem_of_nil in Hin|].
  rewrite flagWalk_cons. apply elem_of_cons in Hin as [<-|Hin].
  - destruct (flagWalk_top_grows w index flags (streakUpdate w true true index v))
      as (_ & _ & Hgrow); [simpl; lia..|].
    etrans; [|exact Hgrow]. simpl. lia.
  - apply IH; [..|done];
      unfold streakUpdate; destruct b, w; try destruct (7 <? _); simpl; lia.
Qed.

Lemma dueFlags_app {zone : HostZone} habit logs days1 days2 :
  dueFlags habit logs (days1 ++ days2)
  = dueFlags habit logs days1 ++ dueFlags habit logs days2.
Proof. unfold dueFlags. by rewrite filter_app, fmap_app. Qed.

Lemma walkedDays_split {zone : HostZone} endDate :
  walkedDays endDate 0 365 = walkedDays endDate 0 30 ++ walkedDays endDate 30 335.
Proof.
  unfold walkedDays. change 365 with (30 + 335).
  rewrite (seqZ_app 0 30 335) by lia. by rewrite fmap_app.
Qed.

(** X19. When no due day among the days that the 365 turns of the walk look
    at is completed, in particular when there is no log at all, both streaks
    are 0; as soon as one due day of them is completed the best streak is at
    least 1.  The days are those the code visits on the host: a day that the
    walk jumps over does not count. *)
Theorem streak_zero_iff_nothing_completed {zone : HostZone} (habit : Habit)
    (logs : list HabitLog) (endDate : Z) :
  let flags := dueFlags habit logs (walkedDays endDate 0 365) in
  (Forall (λ b, b = false) flags →
   calculateHabitStreak habit logs endDate = {| current := 0; best := 0 |}) ∧
  (true ∈ flags → 1 ≤ best (calculateHabitStreak habit logs endDate)) ∧
  calculateHabitStreak habit [] endDate = {| current := 0; best := 0 |}.
Proof.
  assert (∀ logs',
            Forall (λ b, b = false) (dueFlags habit logs' (walkedDays endDate 0 365)) →
            calculateHabitStreak habit logs' endDate = {| current := 0; best := 0 |})
    as Hnone.
  { intros logs' Hall. rewrite walkedDays_split, dueFlags_app in Hall.
    apply Forall_app in Hall as [Hrecent Hlate].
    rewrite calculateHabitStreak_flags. cbv zeta.
    destruct (flagWalk_all_missed (isWeeklyTarget habit) 0 _ streakStart Hrecent)
      as (H1 & H2 & H3); [done..|].
    destruct (flagWalk_all_missed (isWeeklyTarget habit) 30 _ _ Hlate H1 H2)
      as (H4 & H5 & H6).
    rewrite H4, H5, H6, H3. done. }
  intros flags. split; [apply Hnone|]. split.
  - intros Hin. subst flags. rewrite walkedDays_split, dueFlags_app in Hin.
    rewrite calculateHabitStreak_flags. cbv zeta. cbn [best].
    destruct (flagWalk_top_grows (isWeeklyTarget habit) 0
                (dueFlags habit logs (walkedDays endDate 0 30)) streakStart)
      as (Ht & Hb & _); [done..|].
    apply elem_of_app in Hin as [Hin|Hin].
    + pose proof (flagWalk_some_completed (isWeeklyTarget habit) 0 _ streakStart
                    ltac:(done) ltac:(done) Hin) as Hone.
      destruct (flagWalk_top_grows (isWeeklyTarget habit) 30
                  (dueFlags habit logs (walkedDays endDate 30 335))
                  (flagWalk (isWeeklyTarget habit) 0
                     (dueFlags habit logs (walkedDays endDate 0 30)) streakStart))
        as (_ & _ & Hgrow); [done..|]. lia.
    + by apply flagWalk_some_completed.
  - apply Hnone. unfold dueFlags. apply Forall_fmap, Forall_forall. intros d _.
    simpl. unfold logMapOf. simpl. by rewrite lookup_empty.
Qed.

Lemma streak_zero_iff_nothing_completed_witness :
  1 ≤ best (calculateHabitStreak (zone := Istanbul) mwfHabit twoLogs 19727) ∧
  calculateHabitStreak (zone := Berlin) dailyHabit [doneLog 20023] 20032
  = {| current := 0; best := 0 |}.
Proof.
  destruct (streak_zero_iff_nothing_completed (zone := Istanbul) mwfHabit twoLogs 19727)
    as (_ & Hsome & _).
  destruct (streak_zero_iff_nothing_completed (zone := Berlin) dailyHabit
              [doneLog 20023] 20032) as (Hnone & _).
  split.
  - apply Hsome. apply (bool_decide_eq_true_1 _). vm_compute. reflexivity.
  - apply Hnone. apply (bool_decide_eq_true_1 _). vm_compute. reflexivity.
Defined.

(** ** What the current streak is *)

Lemma flagWalk_missed_current w index flags v :
  Forall (λ b, b = false) flags →
  currentStreak (flagWalk w index flags v) = currentStreak v.
Proof.
  revert v. induction flags as [|b flags IH]; intros v Hall; [done|].
  apply Forall_cons in Hall as [-> Hall]. rewrite flagWalk_cons, IH by done.
  unfold streakUpdate. destruct w; [destruct (7 <? _)|]; done.
Qed.

Lemma flagWalk_after_miss index flags v :
  tempStreak (flagWalk false index (flags ++ [false]) v) = 0.
Proof. by rewrite flagWalk_app. Qed.

Lemma flagWalk_recent_run (k : nat) v :
  let v' := flagWalk false 0 (replicate k true) v in
  tempStreak v' = tempStreak v + Z.of_nat k ∧
  currentStreak v' = match k with
                     | O => currentStreak v
                     | S _ => tempStreak v + Z.of_nat k
                     end.
Proof.
  revert v. induction k as [|k IH]; intros v; [cbv zeta; simpl; lia|].
  rewrite replicate_S, flagWalk_cons. cbv zeta.
  destruct (IH (streakUpdate false true true 0 v)) as [Ht Hc].
  rewrite Ht, Hc. simpl streakUpdate. cbn [tempStreak currentStreak].
  destruct k; split; lia.
Qed.

(** X20. For a habit that is not a weekly target, the reported current
    streak is the length of the run of completed due days that ends at the
    oldest completed due day among the days that the first 30 turns of the
    walk look at: the due days of those being, latest first, some days, then
    [k] completed ones, then missed ones only, [current] is [k], whatever the
    days before the run. It is 0 when no due day of them is completed. *)
Theorem current_is_oldest_run {zone : HostZone} (habit : Habit) (logs : list HabitLog)
    (endDate : Z) :
  isWeeklyTarget habit = false →
  let flags := dueFlags habit logs (walkedDays endDate 0 30) in
  (Forall (λ b, b = false) flags →
   current (calculateHabitStreak habit logs endDate) = 0) ∧
  (∀ (newer : list bool) (k m : nat),
     flags = newer ++ replicate k true ++ replicate m false →
     newer = [] ∨ last newer = Some false →
     (0 < k)%nat →
     current (calculateHabitStreak habit logs endDate) = Z.of_nat k).
Proof.
  intros Hw flags. rewrite calculateHabitStreak_flags. cbv zeta. cbn [current].
  rewrite flagWalk_late_current, Hw. fold flags. split.
  - intros Hall. by rewrite flagWalk_missed_current.
  - intros newer k m -> Hnewer Hk.
    rewrite !flagWalk_app.
    rewrite flagWalk_missed_current by (apply Forall_replicate; done).
    destruct (flagWalk_recent_run k (flagWalk false 0 newer streakStart)) as [_ Hc].
    cbv zeta in Hc. rewrite Hc. destruct k as [|k]; [lia|].
    assert (tempStreak (flagWalk false 0 newer streakStart) = 0) as ->; [|lia].
    destruct Hnewer as [->|Hlast]; [done|].
    apply last_Some in Hlast as [l' ->]. apply flagWalk_after_miss.
Qed.

Lemma current_is_oldest_run_witness :
  current (calculateHabitStreak (zone := Istanbul) mwfHabit brokenRunLogs 19727) = 1.
Proof.
  destruct (current_is_oldest_run (zone := Istanbul) mwfHabit brokenRunLogs 19727 eq_refl)
    as [_ Hrun].
  apply (Hrun [true; true; true; false] 1%nat 8%nat).
  - vm_compute. reflexivity.
  - right. reflexivity.
  - lia.
Defined.

(** ** What the best streak is *)

Lemma snoc_eq_app {A} (l l1 r : list A) (b : A) :
  l ++ [b] = l1 ++ r →
  (r = [] ∧ l1 = l ++ [b]) ∨ (∃ r0, r = r0 ++ [b] ∧ l = l1 ++ r0).
Proof.
  destruct r as [|x r] using rev_ind.
  - rewrite app_nil_r. intros <-. by left.
  - rewrite app_assoc. intros Heq. apply app_inj_tail in Heq as [-> ->].
    right. by exists r.
Qed.

Lemma flagWalk_runs_index w index1 index2 flags v1 v2 :
  tempStreak v1 = tempStreak v2 → bestStreak v1 = bestStreak v2 →
  consecutiveMisses v1 = consecutiveMisses v2 →
  let v1' := flagWalk w index1 flags v1 in
  let v2' := flagWalk w index2 flags v2 in
  tempStreak v1' = tempStreak v2' ∧ bestStreak v1' = bestStreak v2' ∧
  consecutiveMisses v1' = consecutiveMisses v2'.
Proof.
  revert v1 v2. induction flags as [|b flags IH]; intros v1 v2 Ht Hb Hm; [done|].
  rewrite !flagWalk_cons. apply IH;
    unfold streakUpdate; rewrite ?Ht, ?Hb, ?Hm;
    destruct b, w; try destruct (7 <? _); done.
Qed.

(** The counters of a habit that is not a weekly target, after a walk from
    the start: the running streak is the length of the run of completed days
    the walk ends on, and the larger of the best and the running streak is
    the length of the longest run met. *)
Lemma flagWalk_runs index (flags : list bool) :
  let v := flagWalk false index flags streakStart in
  (0 ≤ tempStreak v ∧ 0 ≤ bestStreak v) ∧
  (∃ l1, flags = l1 ++ replicate (Z.to_nat (tempStreak v)) true) ∧
  (∀ l1 run, flags = l1 ++ run → Forall (λ b, b = true) run →
     Z.of_nat (length run) ≤ tempStreak v) ∧
  (∀ l1 run l2, flags = l1 ++ run ++ l2 → Forall (λ b, b = true) run →
     Z.of_nat (length run) ≤ Z.max (bestStreak v) (tempStreak v)) ∧
  (∃ l1 run l2, flags = l1 ++ run ++ l2 ∧ Forall (λ b, b = true) run ∧
     Z.of_nat (length run) = Z.max (bestStreak v) (tempStreak v)).
Proof.
  induction flags as [|b flags IH] using rev_ind.
  - cbv zeta. simpl. split; [lia|]. split; [by exists []|]. split; [|split].
    + intros l1 run Heq _. symmetry in Heq. apply app_eq_nil in Heq as [_ ->]. done.
    + intros l1 run l2 Heq _. symmetry in Heq.
      apply app_eq_nil in Heq as [_ Heq]. apply app_eq_nil in Heq as [-> _]. done.
    + exists [], [], []. by repeat split.
  - cbv zeta in *. rewrite flagWalk_app.
    set (v := flagWalk false index flags streakStart) in *.
    destruct IH as ((Ht & Hb) & (s1 & Hsuffix) & Hlongest_suffix & Hlongest & Hwitness).
    cbn [flagWalk fold_left]. destruct b; simpl streakUpdate;
      cbn [tempStreak bestStreak].
    + (* a completed day extends the running streak *)
      split; [lia|]. split; [|split; [|split]].
      * exists s1. replace (Z.to_nat (tempStreak v + 1)) with (S (Z.to_nat (tempStreak v)))
          by lia.
        by rewrite replicate_S_end, app_assoc, <- Hsuffix.
      * intros l1 run Heq Hrun.
        apply snoc_eq_app in Heq as [[-> _]|(run0 & -> & Heq)]; [simpl; lia|].
        apply Forall_app in Hrun as [Hrun0 _].
        specialize (Hlongest_suffix l1 run0 Heq Hrun0).
        rewrite length_app. simpl. lia.
      * intros l1 run l2 Heq Hrun. rewrite app_assoc in Heq.
        apply snoc_eq_app in Heq as [[-> Heq]|(l2' & -> & Heq)].
        -- symmetry in Heq.
           apply snoc_eq_app in Heq as [[-> _]|(run0 & -> & Heq)]; [simpl; lia|].
           apply Forall_app in Hrun as [Hrun0 _].
           specialize (Hlongest_suffix l1 run0 Heq Hrun0).
           rewrite length_app. simpl. lia.
        -- rewrite <- app_assoc in Heq. specialize (Hlongest l1 run l2' Heq Hrun). lia.
      * destruct (decide (bestStreak v ≤ tempStreak v)) as [Hle|Hgt].
        -- exists s1, (replicate (S (Z.to_nat (tempStreak v))) true), [].
           split; [|split].
           ++ by rewrite app_nil_r, replicate_S_end, app_assoc, <- Hsuffix.
           ++ by apply Forall_replicate.
           ++ rewrite length_replicate. lia.
        -- destruct Hwitness as (l1 & run & l2 & Heq & Hrun & Hlen).
           exists l1, run, (l2 ++ [true]). split; [|split; [done|lia]].
           by rewrite Heq, <- !app_assoc.
    + (* a missed day closes the running streak *)
      split; [lia|]. split; [|split; [|split]].
      * exists (flags ++ [false]). simpl. by rewrite app_nil_r.
      * intros l1 run Heq Hrun.
        apply snoc_eq_app in Heq as [[-> _]|(run0 & -> & _)]; [simpl; lia|].
        apply Forall_app in Hrun as [_ Hlast]. by inversion Hlast.
      * intros l1 run l2 Heq Hrun. rewrite app_assoc in Heq.
        apply snoc_eq_app in Heq as [[-> Heq]|(l2' & -> & Heq)].
        -- symmetry in Heq.
           apply snoc_eq_app in Heq as [[-> _]|(run0 & -> & _)]; [simpl; lia|].
           apply Forall_app in Hrun as [_ Hlast]. by inversion Hlast.
        -- rewrite <- app_assoc in Heq. specialize (Hlongest l1 run l2' Heq Hrun). lia.
      * destruct Hwitness as (l1 & run & l2 & Heq & Hrun & Hlen).
        exists l1, run, (l2 ++ [false]). split; [|split; [done|lia]].
        by rewrite Heq, <- !app_assoc.
Qed.

(** X21. For a habit that is not a weekly target, the best streak is the
    length of the longest run of consecutive completed due days among the
    due days that the 365 turns of the walk look at: no run is longer, and
    one run has that length.  A day that the walk jumps over on the host
    neither breaks a run nor adds to it. *)
Theorem best_is_longest_run {zone : HostZone} (habit : Habit) (logs : list HabitLog)
    (endDate : Z) :
  isWeeklyTarget habit = false →
  let flags := dueFlags habit logs (walkedDays endDate 0 365) in
  let longest := best (calculateHabitStreak habit logs endDate) in
  (∀ l1 run l2, flags = l1 ++ run ++ l2 → Forall (λ b, b = true) run →
     Z.of_nat (length run) ≤ longest) ∧
  (∃ l1 run l2, flags = l1 ++ run ++ l2 ∧ Forall (λ b, b = true) run ∧
     Z.of_nat (length run) = longest).
Proof.
  intros Hw flags longest. subst longest flags.
  rewrite calculateHabitStreak_flags, walkedDays_split, dueFlags_app. cbv zeta.
  cbn [best]. rewrite Hw.
  set (recent := dueFlags habit logs (walkedDays endDate 0 30)).
  set (late := dueFlags habit logs (walkedDays endDate 30 335)).
  destruct (flagWalk_runs_index false 0 30 recent streakStart streakStart)
    as (Ht & Hb & Hm); [done..|].
  destruct (flagWalk_runs_index false 30 30 late
              (flagWalk false 0 recent streakStart)
              (flagWalk false 30 recent streakStart) Ht Hb Hm) as (Ht' & Hb' & _).
  cbv zeta in Ht', Hb'. rewrite Ht', Hb', <- flagWalk_app.
  destruct (flagWalk_runs 30 (recent ++ late)) as (_ & _ & _ & Hlongest & Hwitness).
  by split.
Qed.

Lemma best_is_longest_run_witness :
  3 ≤ best (calculateHabitStreak (zone := Istanbul) mwfHabit brokenRunLogs 19727) ∧
  19 ≤ best (calculateHabitStreak (zone := Berlin) dailyHabit twentyDaysLogs 20032).
Proof.
  destruct (best_is_longest_run (zone := Istanbul) mwfHabit brokenRunLogs 19727 eq_refl)
    as [Hlongest _].
  destruct (best_is_longest_run (zone := Berlin) dailyHabit twentyDaysLogs 20032 eq_refl)
    as [Hberlin _].
  split.
  - apply (Hlongest [] [true; true; true]
             (drop 3 (dueFlags (zone := Istanbul) mwfHabit brokenRunLogs
                        (walkedDays (zone := Istanbul) 19727 0 365)))).
    + vm_compute. reflexivity.
    + by repeat constructor.
  - apply (Hberlin [] (replicate 19 true)
             (drop 19 (dueFlags (zone := Berlin) dailyHabit twentyDaysLogs
                         (walkedDays (zone := Berlin) 20032 0 365)))).
    + vm_compute. reflexivity.
    + by apply Forall_replicate.
Defined.

(** ** The grace window of weekly targets *)

Lemma completedCount_snoc flags b :
  completedCount (flags ++ [b]) = completedCount flags + (if b then 1 else 0).
Proof.
  unfold completedCount. rewrite filter_app, length_app, filter_cons, filter_nil.
  destruct b; [rewrite decide_True by done|rewrite decide_False by done]; simpl; lia.
Qed.

Lemma flagWalk_weekly index (flags : list bool) :
  (∀ l1 run l2, flags = l1 ++ run ++ l2 → Forall (λ b, b = false) run →
     (length run ≤ 7)%nat) →
  let v := flagWalk true index flags streakStart in
  bestStreak v = 0 ∧ tempStreak v = completedCount flags ∧
  0 ≤ consecutiveMisses v ∧
  (∃ l1, flags = l1 ++ replicate (Z.to_nat (consecutiveMisses v)) false) ∧
  (index < 30 → currentStreak v = completedCount flags).
Proof.
  induction flags as [|b flags IH] using rev_ind; intros Hgaps.
  - cbv zeta. simpl. repeat split; try done. by exists [].
  - cbv zeta in *. rewrite flagWalk_app, completedCount_snoc.
    set (v := flagWalk true index flags streakStart) in *.
    destruct IH as (Hb & Ht & Hm & (s1 & Hsuffix) & Hc).
    { intros l1 run l2 Heq. apply (Hgaps l1 run (l2 ++ [b])).
      by rewrite Heq, <- !app_assoc. }
    cbn [flagWalk fold_left]. destruct b.
    + simpl streakUpdate. cbn [bestStreak tempStreak consecutiveMisses currentStreak].
      split; [done|]. split; [lia|]. split; [done|]. split.
      * exists (flags ++ [true]). simpl. by rewrite app_nil_r.
      * intros Hrecent. rewrite (proj2 (Z.ltb_lt index 30)) by done. lia.
    + assert (consecutiveMisses v + 1 ≤ 7) as Hshort.
      { assert (length (replicate (S (Z.to_nat (consecutiveMisses v))) false) ≤ 7)%nat
          as Hlen.
        { apply (Hgaps s1 _ []); [|by apply Forall_replicate].
          by rewrite app_nil_r, replicate_S_end, app_assoc, <- Hsuffix. }
        rewrite length_replicate in Hlen. lia. }
      unfold streakUpdate. rewrite (proj2 (Z.ltb_ge 7 (consecutiveMisses v + 1))) by lia.
      cbn [bestStreak tempStreak consecutiveMisses currentStreak].
      split; [done|]. split; [lia|]. split; [lia|]. split.
      * exists s1. replace (Z.to_nat (consecutiveMisses v + 1))
          with (S (Z.to_nat (consecutiveMisses v))) by lia.
        by rewrite replicate_S_end, app_assoc, <- Hsuffix.
      * intros Hrecent. rewrite Hc by done. lia.
Qed.

(** X22. The grace window of a weekly target: while no more than 7 due days
    in a row are missed, a missed day never resets the streak, so the best
    streak is the number of completed days among those that the 365 turns of
    the walk look at (a day looked at twice counting twice) and the current
    streak the number of completed days among those of the first 30
    turns. *)
Theorem weekly_target_grace {zone : HostZone} (habit : Habit) (logs : list HabitLog)
    (endDate : Z) :
  isWeeklyTarget habit = true →
  let flags := dueFlags habit logs (walkedDays endDate 0 365) in
  (∀ l1 run l2, flags = l1 ++ run ++ l2 → Forall (λ b, b = false) run →
     (length run ≤ 7)%nat) →
  best (calculateHabitStreak habit logs endDate) = completedCount flags ∧
  current (calculateHabitStreak habit logs endDate)
  = completedCount (dueFlags habit logs (walkedDays endDate 0 30)).
Proof.
  intros Hw flags Hgaps. subst flags.
  rewrite walkedDays_split, dueFlags_app in Hgaps.
  rewrite calculateHabitStreak_flags, walkedDays_split, dueFlags_app. cbv zeta.
  cbn [best current]. rewrite Hw.
  set (recent := dueFlags habit logs (walkedDays endDate 0 30)) in *.
  set (late := dueFlags habit logs (walkedDays endDate 30 335)) in *.
  split.
  - destruct (flagWalk_runs_index true 0 30 recent streakStart streakStart)
      as (Ht & Hb & Hm); [done..|].
    destruct (flagWalk_runs_index true 30 30 late
                (flagWalk true 0 recent streakStart)
                (flagWalk true 30 recent streakStart) Ht Hb Hm) as (Ht' & Hb' & _).
    cbv zeta in Ht', Hb'. rewrite Ht', Hb', <- flagWalk_app.
    destruct (flagWalk_weekly 30 (recent ++ late) Hgaps) as (-> & -> & _).
    unfold completedCount. lia.
  - rewrite flagWalk_late_current.
    destruct (flagWalk_weekly 0 recent) as (_ & _ & _ & _ & Hc); [|by apply Hc].
    intros l1 run l2 Heq. apply (Hgaps l1 run (l2 ++ late)).
    by rewrite Heq, <- !app_assoc.
Qed.

Lemma weekly_target_grace_witness :
  best (calculateHabitStreak (zone := Istanbul) weeklyHabit everyFifthDayLogs 19727) = 73 ∧
  current (calculateHabitStreak (zone := Istanbul) weeklyHabit everyFifthDayLogs 19727) = 6.
Proof.
  apply (weekly_target_grace (zone := Istanbul) weeklyHabit everyFifthDayLogs 19727 eq_refl).
  intros l1 run l2 Heq Hrun.
  destruct (flagWalk_runs 30
              (negb <$> dueFlags (zone := Istanbul) weeklyHabit everyFifthDayLogs
                          (walkedDays (zone := Istanbul) 19727 0 365)))
    as (_ & _ & _ & Hlongest & _).
  specialize (Hlongest (negb <$> l1) (negb <$> run) (negb <$> l2)).
  rewrite Heq, !fmap_app, length_fmap in Hlongest.
  assert (Z.of_nat (length run) ≤ 4) as Hlen; [|lia].
  etrans; [apply Hlongest; [done|]|].
  - apply Forall_fmap. by eapply Forall_impl; [exact Hrun|intros b ->].
  - rewrite <- !fmap_app, <- Heq. vm_compute. discriminate.
Defined.

(** ** Days that are due every [interval] days *)

Lemma diffDays_add (habit : Habit) d k : diffDays habit (d + k) = diffDays habit d + k.
Proof.
  unfold diffDays, getTime.
  replace ((d + k) * MS_PER_DAY - habit_createdAt habit)
    with (d * MS_PER_DAY - habit_createdAt habit + k * MS_PER_DAY) by lia.
  by rewrite Z.div_add.
Qed.

(** X23. An [everyXDays] habit is never due on a day before its first full
    day, and from then on being due repeats with period [interval]: exactly
    the days a multiple of [interval] after the first one are due. *)
Theorem everyXDays_period {zone : HostZone} (habit : Habit) (interval d : Z) :
  habit_frequency habit = EveryXDays interval → 0 < interval →
  (diffDays habit d < 0 → isHabitDueOnDate habit d = false) ∧
  (0 ≤ diffDays habit d →
   isHabitDueOnDate habit (d + interval) = isHabitDueOnDate habit d) ∧
  (diffDays habit d = 0 → ∀ k, 0 ≤ k →
   (isHabitDueOnDate habit (d + k) = true ↔ k `mod` interval = 0)).
Proof.
  intros Hfreq Hpos.
  pose proof (isHabitDueOnDate_everyXDays habit interval) as Hdue.
  split; [|split].
  - intros Hbefore. apply not_true_is_false. rewrite (Hdue d) by done. lia.
  - intros Hafter. apply eq_true_iff_eq. rewrite !Hdue by done. rewrite diffDays_add.
    replace (diffDays habit d + interval) with (diffDays habit d + 1 * interval) by lia.
    rewrite Z.mod_add by lia. intuition lia.
  - intros Hfirst k Hk. rewrite Hdue by done. rewrite diffDays_add, Hfirst. simpl.
    intuition lia.
Qed.

Lemma everyXDays_period_witness :
  isHabitDueOnDate (zone := Berlin) (sampleHabit Boolean (EveryXDays 3) (getTime 19700))
    19706 = true.
Proof.
  destruct (everyXDays_period (zone := Berlin)
              (sampleHabit Boolean (EveryXDays 3) (getTime 19700)) 3 19700
              eq_refl eq_refl) as (_ & _ & Hdue).
  apply (Hdue eq_refl 6); [done|reflexivity].
Defined.

(** ** Weeks *)

Lemma Date_getDay_range {zone : HostZone} date : 0 ≤ Date_getDay date < 7.
Proof. unfold Date_getDay, WeekDay. by apply Z.mod_pos_bound. Qed.

Lemma week_shift (day : Z) :
  0 ≤ day < 7 →
  - day + (if decide (day = 0) then -6 else 1) = - ((day + 6) `mod` 7).
Proof. intros Hday. destruct (decide _); Z.div_mod_to_equations; lia. Qed.

Lemma Day_add_days (t k : Z) : Day (t + k * MS_PER_DAY) = Day t + k.
Proof. unfold Day. by rewrite Z.div_add. Qed.

Lemma Day_midnight (d : Z) : Day (d * MS_PER_DAY) = d.
Proof. unfold Day. by rewrite Z.div_mul. Qed.

(** When the local times that [getWeekStart] sets exist, it returns the
    instant of the Monday midnight. *)
Lemma getWeekStart_mondayOf {zone : HostZone} date :
  localTimeExists (LocalTime date - (Date_getDay date + 6) `mod` 7 * MS_PER_DAY) →
  getWeekStart date = UTC (mondayOf date).
Proof.
  intros Hshifted. unfold getWeekStart. cbv zeta.
  rewrite week_shift by apply Date_getDay_range.
  unfold setHours, addDays, localDay at 1.
  replace (LocalTime date + - ((Date_getDay date + 6) `mod` 7) * MS_PER_DAY)
    with (LocalTime date - (Date_getDay date + 6) `mod` 7 * MS_PER_DAY) by lia.
  rewrite Hshifted.
  replace (LocalTime date - (Date_getDay date + 6) `mod` 7 * MS_PER_DAY)
    with (LocalTime date + - ((Date_getDay date + 6) `mod` 7) * MS_PER_DAY) by lia.
  rewrite Day_add_days. unfold mondayOf, localDay. f_equal. lia.
Qed.

Lemma mondayOf_weekday {zone : HostZone} date : WeekDay (mondayOf date) = 1.
Proof.
  unfold mondayOf, WeekDay. rewrite Day_midnight. unfold Date_getDay, WeekDay, localDay.
  generalize (Day (LocalTime date)). intros day. Z.div_mod_to_equations. lia.
Qed.

Lemma getWeekStart_of_monday {zone : HostZone} (start monday : Z) :
  LocalTime start = monday → UTC monday = start →
  WeekDay monday = 1 → monday `mod` MS_PER_DAY = 0 →
  getWeekStart start = start.
Proof.
  intros Hlocal Hutc Hday Hmidnight. unfold getWeekStart. cbv zeta.
  unfold Date_getDay. rewrite Hlocal, Hday. rewrite decide_False by done.
  change (- 1 + 1) with 0. unfold addDays. rewrite Hlocal, Z.mul_0_l, Z.add_0_r, Hutc.
  unfold setHours, localDay. rewrite Hlocal, Z.add_0_r.
  replace (Day monday * MS_PER_DAY) with monday; [done|].
  unfold Day. pose proof (Z.div_mod monday MS_PER_DAY ltac:(done)). lia.
Qed.

Lemma fixed_localTimeExists {zone : HostZone} tz t : fixedOffset tz → localTimeExists t.
Proof.
  intros Hfixed. unfold localTimeExists.
  rewrite (fixed_LocalTime tz), (fixed_UTC tz) by done. lia.
Qed.

Lemma getWeekStart_exists {zone : HostZone} date :
  localTimeExists (LocalTime date - (Date_getDay date + 6) `mod` 7 * MS_PER_DAY) →
  localTimeExists (mondayOf date) →
  LocalTime (getWeekStart date) = mondayOf date ∧
  Date_getDay (getWeekStart date) = 1 ∧
  localDay (getWeekStart date) ≤ localDay date < localDay (getWeekStart date) + 7 ∧
  getWeekStart (getWeekStart date) = getWeekStart date.
Proof.
  intros Hshifted Hmonday. rewrite (getWeekStart_mondayOf date Hshifted).
  unfold localTimeExists in Hmonday. split; [done|]. split; [|split].
  - unfold Date_getDay. rewrite Hmonday. apply mondayOf_weekday.
  - assert (localDay (UTC (mondayOf date))
            = localDay date - (Date_getDay date + 6) `mod` 7) as ->.
    { unfold localDay at 1. rewrite Hmonday. unfold mondayOf. apply Day_midnight. }
    pose proof (Z.mod_pos_bound (Date_getDay date + 6) 7 ltac:(done)). lia.
  - apply (getWeekStart_of_monday _ (mondayOf date)); [done..|apply mondayOf_weekday|].
    unfold mondayOf. by apply Z.mod_mul.
Qed.

Lemma fixed_getWeekStart {zone : HostZone} tz date :
  fixedOffset tz →
  (getWeekStart date + tz) `mod` MS_PER_DAY = 0 ∧
  getWeekStart date ≤ date < getWeekStart date + 7 * MS_PER_DAY ∧
  getWeekStart (getWeekStart date) = getWeekStart date.
Proof.
  intros Hfixed.
  destruct (getWeekStart_exists date) as (Hlocal & _ & _ & Hidem);
    [by apply (fixed_localTimeExists tz)..|].
  rewrite (fixed_LocalTime tz) in Hlocal by done.
  split; [|split; [|done]].
  - rewrite Hlocal. unfold mondayOf. by apply Z.mod_mul.
  - assert (getWeekStart date = mondayOf date - tz) as -> by lia.
    unfold mondayOf, Date_getDay, WeekDay, localDay.
    rewrite (fixed_LocalTime tz) by done. unfold Day, MS_PER_DAY.
    Z.div_mod_to_equations. lia.
Qed.

(** X24. When the local times that [getWeekStart] sets exist on the host
    (no change of offset skips them), it returns the instant whose local
    time is the midnight that starts the Monday of the local week of its
    argument, at most six local days back, and applied to its own result it
    changes nothing.  On a host that keeps one offset the result is moreover
    not after the argument and less than 7 times 24 hours before it. *)
Theorem getWeekStart_monday {zone : HostZone} (date : Z) :
  let start := getWeekStart date in
  (localTimeExists (LocalTime date - (Date_getDay date + 6) `mod` 7 * MS_PER_DAY) →
   localTimeExists (mondayOf date) →
   LocalTime start = mondayOf date ∧ Date_getDay start = 1 ∧
   localDay start ≤ localDay date < localDay start + 7 ∧
   getWeekStart start = start) ∧
  (∀ tz, fixedOffset tz →
     Date_getDay start = 1 ∧ (start + tz) `mod` MS_PER_DAY = 0 ∧
     start ≤ date < start + 7 * MS_PER_DAY ∧
     getWeekStart start = start).
Proof.
  cbv zeta. split; [apply getWeekStart_exists|]. intros tz Hfixed.
  destruct (getWeekStart_exists date) as (_ & Hday & _);
    [by apply (fixed_localTimeExists tz)..|].
  destruct (fixed_getWeekStart tz date Hfixed) as (Hmidnight & Hle & Hidem). done.
Qed.

Lemma getWeekStart_monday_witness :
  Date_getDay (zone := Berlin)
    (getWeekStart (zone := Berlin) (20023 * MS_PER_DAY + 22 * MS_PER_HOUR + 30 * 60 * 1000))
  = 1 ∧
  getWeekStart (zone := Istanbul) wednesdayMorning ≤ wednesdayMorning.
Proof.
  destruct (getWeekStart_monday (zone := Berlin)
              (20023 * MS_PER_DAY + 22 * MS_PER_HOUR + 30 * 60 * 1000))
    as [Hberlin _].
  destruct (getWeekStart_monday (zone := Istanbul) wednesdayMorning) as [_ Histanbul].
  split.
  - apply Hberlin; vm_compute; reflexivity.
  - by destruct (Histanbul (3 * MS_PER_HOUR)) as (_ & _ & [Hle _] & _).
Defined.

(** ** The days of a range *)

Lemma getDaysInRange_fuel {zone : HostZone} (fuel fuel' : nat) startDate endDate days :
  getDaysInRange fuel startDate endDate = Some days → (fuel ≤ fuel')%nat →
  getDaysInRange fuel' startDate endDate = Some days.
Proof.
  revert fuel' startDate days.
  induction fuel as [|fuel IH]; intros fuel' startDate days Hdays Hle; [done|].
  destruct fuel' as [|fuel']; [lia|]. simpl in *.
  destruct (decide (startDate ≤ endDate)); [|done].
  destruct (getDaysInRange fuel (addDays startDate 1) endDate) as [rest|] eqn:Hrest;
    [|done].
  rewrite (IH fuel' (addDays startDate 1) rest Hrest) by lia. done.
Qed.

Lemma fixed_getDaysInRange {zone : HostZone} tz (fuel : nat) startDate endDate :
  fixedOffset tz →
  (Z.to_nat ((endDate - startDate) `div` MS_PER_DAY + 1) < fuel)%nat →
  getDaysInRange fuel startDate endDate
  = Some (seqZ (formatDate startDate) ((endDate - startDate) `div` MS_PER_DAY + 1)).
Proof.
  intros Hfixed. revert startDate.
  induction fuel as [|fuel IH]; intros startDate Hfuel; [lia|]. simpl.
  destruct (decide (startDate ≤ endDate)) as [Hle|Hgt].
  - assert (0 ≤ (endDate - startDate) `div` MS_PER_DAY) as Hpos
      by (apply Z.div_pos; unfold MS_PER_DAY; lia).
    assert ((endDate - addDays startDate 1) `div` MS_PER_DAY
            = (endDate - startDate) `div` MS_PER_DAY - 1) as Hnext.
    { rewrite (fixed_addDays tz) by done.
      replace (endDate - (startDate + 1 * MS_PER_DAY))
        with (endDate - startDate + (-1) * MS_PER_DAY) by lia.
      rewrite Z.div_add by done. lia. }
    rewrite IH by (rewrite Hnext; lia). simpl.
    rewrite (seqZ_cons (formatDate startDate)) by lia. do 2 f_equal.
    rewrite Hnext. f_equal; [|lia].
    rewrite (fixed_addDays tz) by done. unfold formatDate. rewrite Day_add_days. lia.
  - rewrite seqZ_nil; [done|].
    assert ((endDate - startDate) `div` MS_PER_DAY < 0); [|lia].
    apply Z.div_lt_upper_bound; unfold MS_PER_DAY; lia.
Qed.

(** X25. The result of [getDaysInRange] does not depend on the fuel once the
    fuel suffices, and it is the empty list when [endDate] is before
    [startDate].  On a host that keeps one offset the loop ends, and lists
    consecutive calendar days in UTC: the day of [startDate] and one more
    day for each whole 24 hours that fit in the range, so that the day of
    [endDate] itself is left out when [endDate] is earlier in its day than
    [startDate] is. *)
Theorem getDaysInRange_days {zone : HostZone} (startDate endDate : Z) :
  (∀ fuel fuel' days,
     getDaysInRange fuel startDate endDate = Some days → (fuel ≤ fuel')%nat →
     getDaysInRange fuel' startDate endDate = Some days) ∧
  (endDate < startDate → ∀ fuel, getDaysInRange (S fuel) startDate endDate = Some []) ∧
  (∀ tz, fixedOffset tz → startDate ≤ endDate →
     let turns := (endDate - startDate) `div` MS_PER_DAY + 1 in
     (∀ fuel, (Z.to_nat turns < fuel)%nat →
        getDaysInRange fuel startDate endDate
        = Some (seqZ (formatDate startDate) turns)) ∧
     (formatDate endDate ∈ seqZ (formatDate startDate) turns ↔
      startDate `mod` MS_PER_DAY ≤ endDate `mod` MS_PER_DAY)).
Proof.
  split; [|split].
  - intros fuel fuel' days. apply getDaysInRange_fuel.
  - intros Hbefore fuel. simpl. by rewrite decide_False by lia.
  - intros tz Hfixed Hle. cbv zeta. split.
    + intros fuel Hfuel. by apply (fixed_getDaysInRange tz).
    + rewrite elem_of_seqZ. unfold formatDate, Day, MS_PER_DAY. split.
      * intros Hin. Z.div_mod_to_equations. lia.
      * intros Hmod. Z.div_mod_to_equations. lia.
Qed.

Lemma getDaysInRange_days_witness :
  getDaysInRange (zone := Istanbul) 5 (getTime 19730 + MS_PER_HOUR) (getTime 19732)
  = Some [19730; 19731].
Proof.
  destruct (getDaysInRange_days (zone := Istanbul) (getTime 19730 + MS_PER_HOUR)
              (getTime 19732)) as (_ & _ & Hdays).
  destruct (Hdays (3 * MS_PER_HOUR)) as [Hlisted _]; [done|by vm_compute|].
  rewrite Hlisted; [reflexivity|vm_compute; lia].
Defined.

(** ** The days of a week *)

Lemma seqZ_7 a : seqZ a 7 = [a; a + 1; a + 2; a + 3; a + 4; a + 5; a + 6].
Proof.
  unfold seqZ. change (Z.to_nat 7) with 7%nat. cbn [seq fmap list_fmap].
  repeat (f_equal; try lia).
Qed.

Lemma fixed_getWeekEnd {zone : HostZone} tz date :
  fixedOffset tz → getWeekEnd date = getWeekStart date + 7 * MS_PER_DAY - 1.
Proof.
  intros Hfixed. unfold getWeekEnd. cbv zeta. unfold setHours, localDay.
  rewrite (fixed_UTC tz), (fixed_LocalTime tz), (fixed_addDays tz) by done.
  destruct (fixed_getWeekStart tz date Hfixed) as (Hmidnight & _).
  replace (getWeekStart date + 6 * MS_PER_DAY + tz)
    with (getWeekStart date + tz + 6 * MS_PER_DAY) by lia.
  rewrite Day_add_days. unfold Day, END_OF_DAY.
  pose proof (Z.div_mod (getWeekStart date + tz) MS_PER_DAY ltac:(done)) as Hdiv.
  rewrite Hmidnight in Hdiv. unfold MS_PER_DAY in *. lia.
Qed.

Lemma fixed_week_days {zone : HostZone} tz (fuel : nat) date :
  fixedOffset tz → (7 < fuel)%nat →
  getDaysInRange fuel (getWeekStart date) (getWeekEnd (getWeekStart date))
  = Some (seqZ (formatDate (getWeekStart date)) 7).
Proof.
  intros Hfixed Hfuel.
  destruct (fixed_getWeekStart tz date Hfixed) as (_ & _ & Hidem).
  assert ((getWeekEnd (getWeekStart date) - getWeekStart date) `div` MS_PER_DAY + 1 = 7)
    as Hturns.
  { rewrite (fixed_getWeekEnd tz), Hidem by done.
    replace (_ - getWeekStart date) with (MS_PER_DAY - 1 + 6 * MS_PER_DAY) by lia.
    rewrite Z.div_add by done. rewrite Z.div_small by done. lia. }
  rewrite (fixed_getDaysInRange tz) by (done || (rewrite Hturns; lia)).
  by rewrite Hturns.
Qed.

Lemma fixed_week_days_length {zone : HostZone} tz (fuel : nat) startDate :
  fixedOffset tz → (7 < fuel)%nat →
  ∃ days, getDaysInRange fuel startDate (getWeekEnd startDate) = Some days ∧
          (length days ≤ 7)%nat.
Proof.
  intros Hfixed Hfuel.
  destruct (fixed_getWeekStart tz startDate Hfixed) as (_ & Hle & _).
  assert ((getWeekEnd startDate - startDate) `div` MS_PER_DAY < 7) as Hturns.
  { rewrite (fixed_getWeekEnd tz) by done.
    apply Z.div_lt_upper_bound; unfold MS_PER_DAY in *; lia. }
  eexists. split; [apply (fixed_getDaysInRange tz); [done|lia]|].
  rewrite length_seqZ. lia.
Qed.

(** X26. On a host that keeps one offset at or ahead of UTC, the days
    [getWeeklyProgress] looks at, for the week of an instant, are seven
    consecutive days: they run from Monday to Sunday when the host zone is
    UTC, and from the Sunday before that Monday to Saturday when the zone is
    ahead of UTC, because the local midnight of the Monday is then an
    instant of the Sunday in UTC. *)
Theorem week_days_listed {zone : HostZone} (tz : Z) (fuel : nat) (date : Z) :
  fixedOffset tz → 0 ≤ tz < MS_PER_DAY → (7 < fuel)%nat →
  let start := getWeekStart date in
  ∃ days, getDaysInRange fuel start (getWeekEnd start) = Some days ∧
    (tz = 0 → days = seqZ (localDay start) 7 ∧ getDay <$> days = [1; 2; 3; 4; 5; 6; 0]) ∧
    (0 < tz →
     days = seqZ (localDay start - 1) 7 ∧ getDay <$> days = [0; 1; 2; 3; 4; 5; 6]).
Proof.
  intros Hfixed Htz Hfuel. cbv zeta. eexists. split; [by apply (fixed_week_days tz)|].
  destruct (getWeekStart_exists date) as (Hlocal & Hmonday & _);
    [by apply (fixed_localTimeExists tz)..|].
  assert (∀ days : list Z, getDay <$> days = (λ d, (d + 4) `mod` 7) <$> days) as Hdays.
  { intros days. apply list_fmap_ext. intros i d _.
    by rewrite (fixed_getDay_ahead tz), WeekDay_getTime. }
  unfold Date_getDay, WeekDay in Hmonday. fold (localDay (getWeekStart date)) in Hmonday.
  assert (getWeekStart date = localDay (getWeekStart date) * MS_PER_DAY - tz) as Hstart.
  { rewrite (fixed_LocalTime tz) in Hlocal by done. unfold localDay.
    rewrite (fixed_LocalTime tz), Hlocal by done. unfold mondayOf.
    rewrite Day_midnight. unfold mondayOf in Hlocal. lia. }
  revert Hmonday Hstart. generalize (localDay (getWeekStart date)).
  generalize (getWeekStart date). intros start monday Hmonday ->.
  rewrite !Hdays. split.
  - intros ->. assert (formatDate (monday * MS_PER_DAY - 0) = monday) as ->.
    { unfold formatDate. rewrite Z.sub_0_r. apply Day_midnight. }
    split; [done|]. rewrite seqZ_7. cbn [fmap list_fmap].
    repeat (apply (f_equal2 cons); [Z.div_mod_to_equations; lia|]). done.
  - intros Hahead. assert (formatDate (monday * MS_PER_DAY - tz) = monday - 1) as ->.
    { unfold formatDate, Day, MS_PER_DAY in *. Z.div_mod_to_equations. lia. }
    split; [done|]. rewrite seqZ_7. cbn [fmap list_fmap].
    repeat (apply (f_equal2 cons); [Z.div_mod_to_equations; lia|]). done.
Qed.

Lemma week_days_listed_witness :
  getDaysInRange (zone := Istanbul) 8 (getWeekStart (zone := Istanbul) wednesdayMorning)
    (getWeekEnd (zone := Istanbul) (getWeekStart (zone := Istanbul) wednesdayMorning))
  = Some (seqZ 19729 7).
Proof.
  destruct (week_days_listed (zone := Istanbul) (3 * MS_PER_HOUR) 8 wednesdayMorning)
    as (days & -> & _ & Hahead); [done|by vm_compute|lia|].
  destruct Hahead as [-> _]; [done|]. reflexivity.
Defined.

Lemma fold_weekStep {zone : HostZone} habit (logMap : gmap Z HabitLog) days c t :
  fold_left (weekStep habit logMap) days (c, t)
  = (c + Z.of_nat (length (filter (λ d, isHabitCompleted habit (logMap !! d) = true)
                             (filter (λ d, isHabitDueOnDate habit d = true) days))),
     t + Z.of_nat (length (filter (λ d, isHabitDueOnDate habit d = true) days))).
Proof.
  revert c t. induction days as [|d days IH]; intros c t.
  - simpl. f_equal; lia.
  - cbn [fold_left]. unfold weekStep at 2. rewrite (filter_cons _ d days).
    destruct (isHabitDueOnDate habit d) eqn:Hdue.
    + rewrite decide_True by done. rewrite filter_cons.
      destruct (isHabitCompleted habit (logMap !! d)) eqn:Hdone.
      * rewrite decide_True by done. rewrite IH. cbn [length]. f_equal; lia.
      * rewrite decide_False by done. rewrite IH. cbn [length]. f_equal; lia.
    + rewrite decide_False by done. apply IH.
Qed.

Lemma getWeeklyProgress_listed {zone : HostZone} (fuel : nat) now habit logs weekStartDate
    days :
  getDaysInRange fuel (default (getWeekStart now) weekStartDate)
    (getWeekEnd (default (getWeekStart now) weekStartDate)) = Some days →
  let due := filter (λ d, isHabitDueOnDate habit d = true) days in
  ∃ progress, getWeeklyProgress fuel now habit logs weekStartDate = Some progress ∧
    completed progress
    = Z.of_nat (length (filter (λ d, isHabitCompleted habit (logMapOf logs !! d) = true)
                          due)) ∧
    target progress
    = match habit_frequency habit with
      | WeeklyTarget timesPerWeek => timesPerWeek
      | _ => Z.of_nat (length due)
      end ∧
    0 ≤ completed progress ≤ Z.of_nat (length days) ∧
    (isWeeklyTarget habit = false →
     completed progress ≤ target progress ≤ Z.of_nat (length days)).
Proof.
  intros Hlisted. cbv zeta. unfold getWeeklyProgress. cbv zeta. rewrite Hlisted.
  cbn [mbind option_bind]. rewrite fold_weekStep. eexists. split; [done|].
  cbn [completed target]. rewrite !Z.add_0_l.
  pose proof (length_filter (λ d, isHabitDueOnDate habit d = true) days) as Hdue.
  pose proof (length_filter (λ d, isHabitCompleted habit (logMapOf logs !! d) = true)
                (filter (λ d, isHabitDueOnDate habit d = true) days)) as Hdone.
  split; [done|]. split; [by destruct (habit_frequency habit)|]. split; [lia|].
  unfold isWeeklyTarget. destruct (habit_frequency habit); [done|lia..].
Qed.

(** X27. When the loop of [getDaysInRange] runs out of fuel so does
    [getWeeklyProgress]; otherwise it counts, among the days listed for the
    week, the due days that are completed, and its target is the number of
    due days, except for a weekly target, which gives its own
    [timesPerWeek].  So no more days are completed than are listed, and
    unless the habit is a weekly target the completed days do not exceed the
    target, which does not exceed the days listed.  On a host that keeps one
    offset 8 turns of fuel suffice and at most 7 days are listed. *)
Theorem getWeeklyProgress_counts {zone : HostZone} (fuel : nat) (now : Z) (habit : Habit)
    (logs : list HabitLog) (weekStartDate : option Z) :
  let start := default (getWeekStart now) weekStartDate in
  let listed := getDaysInRange fuel start (getWeekEnd start) in
  let result := getWeeklyProgress fuel now habit logs weekStartDate in
  (listed = None → result = None) ∧
  (∀ days, listed = Some days →
     let due := filter (λ d, isHabitDueOnDate habit d = true) days in
     ∃ progress, result = Some progress ∧
       completed progress
       = Z.of_nat (length (filter (λ d, isHabitCompleted habit (logMapOf logs !! d) = true)
                             due)) ∧
       target progress
       = match habit_frequency habit with
         | WeeklyTarget timesPerWeek => timesPerWeek
         | _ => Z.of_nat (length due)
         end ∧
       0 ≤ completed progress ≤ Z.of_nat (length days) ∧
       (isWeeklyTarget habit = false →
        completed progress ≤ target progress ≤ Z.of_nat (length days))) ∧
  (∀ tz, fixedOffset tz → (7 < fuel)%nat →
     ∃ days progress, listed = Some days ∧ result = Some progress ∧
       (length days ≤ 7)%nat ∧
       0 ≤ completed progress ≤ 7 ∧
       (isWeeklyTarget habit = false → completed progress ≤ target progress ≤ 7)).
Proof.
  cbv zeta. split; [|split].
  - intros Hnone. unfold getWeeklyProgress. cbv zeta. by rewrite Hnone.
  - intros days. apply getWeeklyProgress_listed.
  - intros tz Hfixed Hfuel.
    destruct (fixed_week_days_length tz fuel (default (getWeekStart now) weekStartDate))
      as (days & Hlisted & Hweek); [done..|].
    destruct (getWeeklyProgress_listed fuel now habit logs weekStartDate days Hlisted)
      as (progress & Hresult & _ & _ & Hdone & Htarget).
    exists days, progress. split; [done|]. split; [done|]. split; [done|].
    split; [lia|]. intros Hw. specialize (Htarget Hw). lia.
Qed.

Lemma getWeeklyProgress_counts_witness :
  ∃ progress,
    getWeeklyProgress (zone := Istanbul) 8 wednesdayMorning mwfHabit brokenRunLogs None
    = Some progress ∧
    completed progress ≤ target progress ≤ 7.
Proof.
  destruct (getWeeklyProgress_counts (zone := Istanbul) 8 wednesdayMorning mwfHabit
              brokenRunLogs None) as (_ & _ & Hfixed).
  destruct (Hfixed (3 * MS_PER_HOUR)) as (days & progress & _ & Hresult & _ & _ & Hbounds);
    [done|lia|].
  exists progress. split; [done|]. by apply Hbounds.
Defined.

(** ** A host that changes its offset *)

(** Europe/Berlin around the end of summer time on 2024-10-27.  The walk of
    [calculateHabitStreak] from 2024-11-05 jumps from 2024-10-28 to
    2024-10-26, so twenty completed days in a row give streaks of 19;
    [getLastNDays] half an hour after UTC midnight jumps over the same day;
    the week that starts on Monday 2024-10-21 lasts an hour more than seven
    times 24 hours and still lists seven days; and [getWeekStart] of Sunday
    2024-10-27, 22:30 UTC, is 2024-10-20, 22:00 UTC, seven days and half an
    hour earlier. *)
Lemma Berlin_end_of_summer_time :
  walkedDays (zone := Berlin) 20032 8 3 = [20024; 20022; 20021] ∧
  calculateHabitStreak (zone := Berlin) dailyHabit twentyDaysLogs 20032
  = {| current := 19; best := 19 |} ∧
  calculateHabitStreak (zone := Istanbul) dailyHabit twentyDaysLogs 20032
  = {| current := 20; best := 20 |} ∧
  getLastNDays (zone := Berlin) berlinNight 3 = [20030; 20031; 20032] ∧
  getLastNDays (zone := Berlin) berlinNight 10 !! 0%nat = Some 20022 ∧
  getLastNDays (zone := Berlin) berlinNight 10 !! 1%nat = Some 20024 ∧
  (let start := getWeekStart (zone := Berlin) (20018 * MS_PER_DAY) in
   getWeekEnd (zone := Berlin) start - start = 7 * MS_PER_DAY + MS_PER_HOUR - 1 ∧
   getDaysInRange (zone := Berlin) 8 start (getWeekEnd (zone := Berlin) start)
   = Some (seqZ 20016 7)) ∧
  getWeekStart (zone := Berlin) (20023 * MS_PER_DAY + 22 * MS_PER_HOUR + 30 * 60 * 1000)
  = 20016 * MS_PER_DAY + 22 * MS_PER_HOUR.
Proof. vm_compute. repeat split. Qed.
